(** * GATE study tracker: exam generation, grading, sessions and progress

    A shallow embedding of the handlers of the repository:
    - [src/ai.ts]: the [generateExam] action, with its two provider closures
      ([tryAnthropic], [tryOnceOpenRouter]), the response normalizer they share
      and the local generator [buildLocalQuestions];
    - the exam module ([createAttempt], [submitAttempt], [listAttempts]):
      attempt lifecycle, scoring and guidance;
    - the sessions module ([startSession], [endSession]), [src/users.ts]
      ([getCurrentUser], [currentUser], [updatePreferences]) and
      [src/progress.ts] ([updateSubjectProgress], [getUserProgress]).

    Conventions of the embedding.
    - A JavaScript number is a [num]: NaN, the two infinities, or a finite
      double, held as its exact rational value. Comparisons, [Math.abs],
      [Math.floor], [Math.max] and [Math.min] are exact on doubles. Where
      the code computes a value that need not be a double (the difference
      of the tolerance test, the numerals of a JSON text or of a numeric
      string, the decimal literals of the source), the value is rounded to
      the nearest double by [JS.double]. The arithmetic of the sessions is
      on whole numbers of milliseconds, minutes and hours, on which doubles
      are exact below 2^53, and is written without rounding. There is no
      negative zero.
    - A JavaScript exception is an [Exn]; code that may throw returns a
      [Result].
    - Built-ins of the host whose definition is not part of the repository
      and whose exact output no property here depends on ([Number::toString],
      [StringToNumber]) are section variables: every theorem holds for
      whichever functions the host provides.
    - Strings are byte strings; a text is read as its UTF-8 encoding. *)

From Stdlib Require Import List String Ascii ZArith QArith Qabs Qround Bool Lia Arith.
From Stdlib Require Import Permutation Sorted DecimalString.
From Stdlib Require Floats.SpecFloat.
Import ListNotations.

Set Warnings "-register-all".
Local Close Scope Q_scope.
Local Open Scope string_scope.
Local Open Scope list_scope.
Local Open Scope nat_scope.

(* ===================================================================== *)
(** ** Exceptions and results *)
(* ===================================================================== *)

(** [new Error(message)] and the engine's [TypeError]. *)
Inductive Exn : Type :=
| Error (message : string)
| TypeError (message : string).

Inductive Result (A : Type) : Type :=
| Ok (a : A)
| Throw (e : Exn).

Arguments Ok {A} a.
Arguments Throw {A} e.

Definition bind {A B : Type} (r : Result A) (k : A -> Result B) : Result B :=
  match r with
  | Ok a => k a
  | Throw e => Throw e
  end.

Notation "x <- r ;; k" := (bind r (fun x => k))
  (at level 61, r at next level, right associativity).

Definition is_Ok {A : Type} (r : Result A) : bool :=
  match r with Ok _ => true | Throw _ => false end.

(** [xs.map((x, idx) => f(idx, x))] where [f] may throw: the first exception
    aborts the whole map. [i] is the index of the head. *)
Fixpoint mapi_from {A B : Type} (f : nat -> A -> Result B) (i : nat) (xs : list A)
  : Result (list B) :=
  match xs with
  | [] => Ok []
  | x :: rest =>
      y <- f i x ;;
      ys <- mapi_from f (S i) rest ;;
      Ok (y :: ys)
  end.

(* ===================================================================== *)
(** ** The host language: numbers, JSON values, JSON.parse *)
(* ===================================================================== *)

Module JS.

(** *** Numbers *)

Inductive num : Type :=
| NaN
| PosInf
| NegInf
| Fin (q : Q).

Definition of_Z (z : Z) : num := Fin (inject_Z z).

Definition isNaN (n : num) : bool :=
  match n with NaN => true | _ => false end.

(** [a === b] on numbers: NaN equals nothing, itself included. *)
Definition strict_eq (a b : num) : bool :=
  match a, b with
  | Fin x, Fin y => Qeq_bool x y
  | PosInf, PosInf => true
  | NegInf, NegInf => true
  | _, _ => false
  end.

(** The exact difference; it is [a - b] where that is a double, as on
    whole numbers below [2^53]. *)
Definition sub (a b : num) : num :=
  match a, b with
  | NaN, _ => NaN
  | _, NaN => NaN
  | Fin x, Fin y => Fin (x - y)
  | PosInf, PosInf => NaN
  | NegInf, NegInf => NaN
  | PosInf, _ => PosInf
  | NegInf, _ => NegInf
  | Fin _, PosInf => NegInf
  | Fin _, NegInf => PosInf
  end.

Definition Math_abs (n : num) : num :=
  match n with
  | NaN => NaN
  | PosInf => PosInf
  | NegInf => PosInf
  | Fin q => Fin (Qabs q)
  end.

(** [a < b]: false as soon as one side is NaN. *)
Definition lt (a b : num) : bool :=
  match a, b with
  | NaN, _ => false
  | _, NaN => false
  | Fin x, Fin y => negb (Qle_bool y x)
  | NegInf, NegInf => false
  | NegInf, _ => true
  | _, NegInf => false
  | PosInf, _ => false
  | Fin _, PosInf => true
  end.

(** [a <= b]. *)
Definition le (a b : num) : bool :=
  match a, b with
  | NaN, _ => false
  | _, NaN => false
  | Fin x, Fin y => Qle_bool x y
  | NegInf, _ => true
  | _, PosInf => true
  | PosInf, _ => false
  | Fin _, NegInf => false
  end.

Definition Math_floor (n : num) : num :=
  match n with
  | Fin q => Fin (inject_Z (Qfloor q))
  | other => other
  end.

(** [Math.max(a, b)]: NaN as soon as one argument is NaN. *)
Definition Math_max (a b : num) : num :=
  match a, b with
  | NaN, _ => NaN
  | _, NaN => NaN
  | _, _ => if lt a b then b else a
  end.

(** [Math.min(a, b)]: NaN as soon as one argument is NaN. *)
Definition Math_min (a b : num) : num :=
  match a, b with
  | NaN, _ => NaN
  | _, NaN => NaN
  | _, _ => if lt b a then b else a
  end.

(** The integer part of a finite value, toward zero. *)
Definition truncate (q : Q) : Z :=
  if Qle_bool 0 q then Qfloor q else Qceiling q.

(** [xs.slice(0, e)]: the end is made an integer toward zero, NaN counting
    as 0; a negative end counts back from the length. *)
Definition slice_to {A : Type} (xs : list A) (e : num) : list A :=
  match e with
  | NaN => []
  | PosInf => xs
  | NegInf => []
  | Fin q =>
      let t := truncate q in
      if (t <? 0)%Z then firstn (Z.to_nat (Z.of_nat (List.length xs) + t)) xs
      else firstn (Z.to_nat t) xs
  end.

(** The turns of [for (let i = 0; i < total; i++)] for a [total] that is
    not infinite: the indices below it, none when it is NaN (a comparison
    with NaN is false). *)
Definition turns (total : num) : nat :=
  match total with
  | Fin q => Z.to_nat (Qceiling q)
  | _ => 0
  end.

(** *** Double precision

    A finite number is the exact value of a double. Where the code computes
    a value that need not be one, the result is the double nearest to the
    exact result, the even one of two that are equally near, and an
    infinity from [2^1024] on. *)

(** The integer nearest to [a / b] for [b] above zero, the even one of two
    that are equally near. *)
Definition round_half_even (a b : Z) : Z :=
  let f := (a / b)%Z in
  match (2 * (a mod b) ?= b)%Z with
  | Lt => f
  | Gt => (f + 1)%Z
  | Eq => if Z.even f then f else (f + 1)%Z
  end.

(** [2^k] for [k] from zero on, and 1 below it: the power of two of
    exponent [k], negative or not, is [pow2 k / pow2 (- k)]. *)
Definition pow2 (k : Z) : Z := (2 ^ Z.max 0 k)%Z.

(** [2^e <= n / d]. *)
Definition reaches (e n d : Z) : bool :=
  (d * pow2 e <=? n * pow2 (- e))%Z.

(** The exponent of [n / d] above zero: the [e] with
    [2^e <= n / d < 2^(e+1)]. *)
Definition exponent (n d : Z) : Z :=
  let e := (Z.log2 n - Z.log2 d)%Z in
  if reaches e n d then e else (e - 1)%Z.

(** The double nearest to [n / d] above zero. From the exponent [e], not
    taken below the exponent -1022 of the least normal number, the doubles
    up to the next power of two are the multiples of [2^(e - 52)]. *)
Definition double_pos (n d : Z) : num :=
  let e := Z.max (exponent n d) (-1022) in
  let k := (52 - e)%Z in
  let m := round_half_even (n * pow2 k) (d * pow2 (- k)) in
  if (1024 <=? e)%Z || ((e =? 1023)%Z && (m =? 2 ^ 53)%Z) then PosInf
  else Fin (Qred (Qmake (m * pow2 (- k)) (Z.to_pos (pow2 k)))).

Definition negate (n : num) : num :=
  match n with
  | NaN => NaN
  | PosInf => NegInf
  | NegInf => PosInf
  | Fin q => Fin (Qopp q)
  end.

(** The double nearest to [q]. *)
Definition double (q : Q) : num :=
  match Qnum q with
  | Z0 => Fin (inject_Z 0)
  | Zpos n => double_pos (Zpos n) (Zpos (Qden q))
  | Zneg n => negate (double_pos (Zpos n) (Zpos (Qden q)))
  end.

(** [a - b] on doubles: the exact difference, rounded. *)
Definition minus (a b : num) : num :=
  match sub a b with
  | Fin q => double q
  | other => other
  end.

(** *** Characters *)

Definition dquote : ascii := ascii_of_nat 34.
Definition backslash : ascii := ascii_of_nat 92.

Definition code (c : ascii) : nat := nat_of_ascii c.

Definition is_digit (c : ascii) : bool :=
  (48 <=? code c) && (code c <=? 57).

Definition digit_val (c : ascii) : Z := Z.of_nat (code c - 48).

(** JSON white space: space, tab, line feed, carriage return. *)
Definition is_json_ws (c : ascii) : bool :=
  let n := code c in
  (n =? 32) || (n =? 9) || (n =? 10) || (n =? 13).

Definition hex_val (c : ascii) : option nat :=
  let n := code c in
  if (48 <=? n) && (n <=? 57) then Some (n - 48)
  else if (65 <=? n) && (n <=? 70) then Some (n - 55)
  else if (97 <=? n) && (n <=? 102) then Some (n - 87)
  else None.

(** *** White space

    The white space and the line terminators of the language, which
    [String.prototype.trim] and [StringToNumber] strip, as they are in
    UTF-8. *)

(** In one byte: tab, line feed, vertical tab, form feed, carriage return,
    space. *)
Definition is_space (c : ascii) : bool :=
  let n := code c in ((9 <=? n) && (n <=? 13)) || (n =? 32).

(** In two bytes: the no-break space U+00A0. *)
Definition is_space2 (a b : nat) : bool := (a =? 194) && (b =? 160).

(** In three bytes: U+1680; U+2000 to U+200A, U+2028, U+2029 and U+202F;
    U+205F; U+3000; the byte order mark U+FEFF. *)
Definition is_space3 (a b c : nat) : bool :=
  ((a =? 225) && (b =? 154) && (c =? 128))
  || ((a =? 226) && (b =? 128)
      && (((128 <=? c) && (c <=? 138)) || (c =? 168) || (c =? 169) || (c =? 175)))
  || ((a =? 226) && (b =? 129) && (c =? 159))
  || ((a =? 227) && (b =? 128) && (c =? 128))
  || ((a =? 239) && (b =? 187) && (c =? 191)).

Fixpoint trim_start (s : string) : string :=
  match s with
  | String a r1 =>
      if is_space a then trim_start r1
      else
        match r1 with
        | String b r2 =>
            if is_space2 (code a) (code b) then trim_start r2
            else
              match r2 with
              | String c r3 =>
                  if is_space3 (code a) (code b) (code c) then trim_start r3
                  else s
              | EmptyString => s
              end
        | EmptyString => s
        end
  | EmptyString => s
  end.

(** The text is white space from end to end. *)
Definition blank (s : string) : bool :=
  match trim_start s with
  | EmptyString => true
  | String _ _ => false
  end.

(** The text up to the white space it ends with. *)
Fixpoint trim_end (s : string) : string :=
  match s with
  | EmptyString => EmptyString
  | String c rest => if blank s then EmptyString else String c (trim_end rest)
  end.

(** [String.prototype.trim]. *)
Definition trim (s : string) : string := trim_end (trim_start s).

(** *** JSON values *)

Inductive JSON : Type :=
| JNull
| JBool (b : bool)
| JNum (n : num)
| JStr (s : string)
| JArr (items : list JSON)
| JObj (members : list (string * JSON)).

(** Own property [k] of a parsed object: [JSON.parse] keeps the last value of
    a repeated key. *)
Fixpoint own_property (k : string) (members : list (string * JSON)) : option JSON :=
  match members with
  | [] => None
  | (k', v) :: rest =>
      match own_property k rest with
      | Some later => Some later
      | None => if String.eqb k k' then Some v else None
      end
  end.

(** *** JSON.parse *)

Fixpoint skip_ws (s : string) : string :=
  match s with
  | String c rest => if is_json_ws c then skip_ws rest else s
  | EmptyString => s
  end.

(** [expect lit s]: the rest of [s] after the prefix [lit]. *)
Fixpoint expect (lit s : string) : option string :=
  match lit, s with
  | EmptyString, _ => Some s
  | String a lit', String b s' => if Ascii.eqb a b then expect lit' s' else None
  | String _ _, EmptyString => None
  end.

(** A run of decimal digits: its value continuing [acc], its length, the rest. *)
Fixpoint digits (s : string) (acc : Z) (len : nat) : Z * nat * string :=
  match s with
  | String c rest =>
      if is_digit c then digits rest (10 * acc + digit_val c)%Z (S len)
      else (acc, len, s)
  | EmptyString => (acc, len, s)
  end.

(** The finite value [m * 10^e]. *)
Definition scale10 (m e : Z) : Q :=
  if (0 <=? e)%Z then inject_Z (m * 10 ^ e)
  else Qred (Qmake m (Z.to_pos (10 ^ (- e)))).

(** A JSON number: an optional minus sign, an integer part without a
    leading zero (or the single digit 0), an optional fraction of at least
    one digit, an optional exponent of at least one digit. Its value is the
    double nearest to the numeral. *)
Definition parse_number (s : string) : option (num * string) :=
  let '(neg, s1) :=
    match s with
    | String c rest => if (code c =? 45) then (true, rest) else (false, s)
    | EmptyString => (false, s)
    end in
  let '(ip, ilen, s2) := digits s1 0%Z 0 in
  let leading_zero :=
    match s1 with
    | String c _ => (code c =? 48) && (1 <? ilen)
    | EmptyString => false
    end in
  if (ilen =? 0) || leading_zero then None
  else
    let frac :=
      match s2 with
      | String c rest =>
          if code c =? 46 then
            let '(m, flen, s3) := digits rest ip 0 in
            if flen =? 0 then None else Some (m, flen, s3)
          else Some (ip, 0, s2)
      | EmptyString => Some (ip, 0, s2)
      end in
    match frac with
    | None => None
    | Some (m, flen, s3) =>
        let expo :=
          match s3 with
          | String c rest =>
              if (code c =? 101) || (code c =? 69) then
                let '(eneg, s4) :=
                  match rest with
                  | String d rest' =>
                      if code d =? 45 then (true, rest')
                      else if code d =? 43 then (false, rest')
                      else (false, rest)
                  | EmptyString => (false, rest)
                  end in
                let '(e, elen, s5) := digits s4 0%Z 0 in
                if elen =? 0 then None
                else Some ((if eneg then - e else e)%Z, s5)
              else Some (0%Z, s3)
          | EmptyString => Some (0%Z, s3)
          end in
        match expo with
        | None => None
        | Some (e, s5) =>
            let m' := (if neg then - m else m)%Z in
            Some (double (scale10 m' (e - Z.of_nat flen)), s5)
        end
    end.

(** The UTF-8 bytes of the code point [n]. *)
Definition utf8 (n : N) : string :=
  let byte (k : N) := ascii_of_N k in
  if (n <? 128)%N then String (byte n) EmptyString
  else if (n <? 2048)%N then
    String (byte (192 + n / 64)%N)
      (String (byte (128 + n mod 64)%N) EmptyString)
  else if (n <? 65536)%N then
    String (byte (224 + n / 4096)%N)
      (String (byte (128 + (n / 64) mod 64)%N)
         (String (byte (128 + n mod 64)%N) EmptyString))
  else
    String (byte (240 + n / 262144)%N)
      (String (byte (128 + (n / 4096) mod 64)%N)
         (String (byte (128 + (n / 64) mod 64)%N)
            (String (byte (128 + n mod 64)%N) EmptyString))).

(** The code unit of four hexadecimal digits. *)
Definition hex4 (s : string) : option (N * string) :=
  match s with
  | String a (String b (String c (String d rest))) =>
      match hex_val a, hex_val b, hex_val c, hex_val d with
      | Some x, Some y, Some z, Some w =>
          Some ((((N.of_nat x * 16 + N.of_nat y) * 16 + N.of_nat z) * 16
                 + N.of_nat w)%N, rest)
      | _, _, _, _ => None
      end
  | _ => None
  end.

(** The code point of an escape of code unit [u] followed by [rest]: a
    high surrogate followed by the escape of a low surrogate makes one code
    point with it; any other code unit stands for itself, a lone surrogate
    too. *)
Definition code_point (u : N) (rest : string) : N * string :=
  if (55296 <=? u)%N && (u <? 56320)%N then
    match rest with
    | String b (String v rest') =>
        if Ascii.eqb b backslash && (code v =? 117) then
          match hex4 rest' with
          | Some (l, rest'') =>
              if (56320 <=? l)%N && (l <? 57344)%N
              then ((65536 + (u - 55296) * 1024 + (l - 56320))%N, rest'')
              else (u, rest)
          | None => (u, rest)
          end
        else (u, rest)
    | _ => (u, rest)
    end
  else (u, rest).

(** The characters of a JSON string after its opening quote, up to and
    including the closing quote. *)
Fixpoint parse_chars (fuel : nat) (s : string) : option (string * string) :=
  match fuel with
  | O => None
  | S fuel' =>
      match s with
      | EmptyString => None
      | String c rest =>
          if Ascii.eqb c dquote then Some (EmptyString, rest)
          else if Ascii.eqb c backslash then
            match rest with
            | EmptyString => None
            | String e rest' =>
                let simple (ch : nat) :=
                  match parse_chars fuel' rest' with
                  | Some (str, r) => Some (String (ascii_of_nat ch) str, r)
                  | None => None
                  end in
                let n := code e in
                if n =? 34 then simple 34
                else if n =? 92 then simple 92
                else if n =? 47 then simple 47
                else if n =? 98 then simple 8
                else if n =? 102 then simple 12
                else if n =? 110 then simple 10
                else if n =? 114 then simple 13
                else if n =? 116 then simple 9
                else if n =? 117 then
                  match hex4 rest' with
                  | Some (u, r0) =>
                      let '(cp, r1) := code_point u r0 in
                      match parse_chars fuel' r1 with
                      | Some (str, r) => Some (String.append (utf8 cp) str, r)
                      | None => None
                      end
                  | None => None
                  end
                else None
            end
          else if code c <? 32 then None
          else
            match parse_chars fuel' rest with
            | Some (str, r) => Some (String c str, r)
            | None => None
            end
      end
  end.

(** Recursive descent over the JSON grammar. [fuel] bounds the depth of the
    descent; [JSON_parse] below starts it with twice the length of the text,
    more than any descent uses, as every nested call follows a consumed
    character. *)
Fixpoint parse_value (fuel : nat) (s : string) : option (JSON * string) :=
  match fuel with
  | O => None
  | S fuel' =>
      match skip_ws s with
      | EmptyString => None
      | String c rest =>
          let n := code c in
          if n =? 110 then
            match expect "ull" rest with Some r => Some (JNull, r) | None => None end
          else if n =? 116 then
            match expect "rue" rest with Some r => Some (JBool true, r) | None => None end
          else if n =? 102 then
            match expect "alse" rest with Some r => Some (JBool false, r) | None => None end
          else if n =? 34 then
            match parse_chars (String.length rest + 1) rest with
            | Some (str, r) => Some (JStr str, r)
            | None => None
            end
          else if n =? 91 then
            match skip_ws rest with
            | String d r =>
                if code d =? 93 then Some (JArr [], r)
                else
                  match parse_elements fuel' rest with
                  | Some (items, r') => Some (JArr items, r')
                  | None => None
                  end
            | EmptyString => None
            end
          else if n =? 123 then
            match skip_ws rest with
            | String d r =>
                if code d =? 125 then Some (JObj [], r)
                else
                  match parse_members fuel' rest with
                  | Some (members, r') => Some (JObj members, r')
                  | None => None
                  end
            | EmptyString => None
            end
          else
            match parse_number (String c rest) with
            | Some (v, r) => Some (JNum v, r)
            | None => None
            end
      end
  end

with parse_elements (fuel : nat) (s : string) : option (list JSON * string) :=
  match fuel with
  | O => None
  | S fuel' =>
      match parse_value fuel' s with
      | None => None
      | Some (v, r) =>
          match skip_ws r with
          | String d r' =>
              if code d =? 93 then Some ([v], r')
              else if code d =? 44 then
                match parse_elements fuel' r' with
                | Some (vs, r'') => Some (v :: vs, r'')
                | None => None
                end
              else None
          | EmptyString => None
          end
      end
  end

with parse_members (fuel : nat) (s : string) : option (list (string * JSON) * string) :=
  match fuel with
  | O => None
  | S fuel' =>
      match skip_ws s with
      | String q r0 =>
          if code q =? 34 then
            match parse_chars (String.length r0 + 1) r0 with
            | None => None
            | Some (k, r1) =>
                match skip_ws r1 with
                | String colon r2 =>
                    if code colon =? 58 then
                      match parse_value fuel' r2 with
                      | None => None
                      | Some (v, r3) =>
                          match skip_ws r3 with
                          | String d r4 =>
                              if code d =? 125 then Some ([(k, v)], r4)
                              else if code d =? 44 then
                                match parse_members fuel' r4 with
                                | Some (ms, r5) => Some ((k, v) :: ms, r5)
                                | None => None
                                end
                              else None
                          | EmptyString => None
                          end
                      end
                    else None
                | EmptyString => None
                end
            end
          else None
      | EmptyString => None
      end
  end.

(** [JSON.parse(text)]: [None] stands for the SyntaxError. *)
Definition JSON_parse (text : string) : option JSON :=
  match parse_value (2 * String.length text + 2) text with
  | Some (v, r) =>
      match skip_ws r with
      | EmptyString => Some v
      | String _ _ => None
      end
  | None => None
  end.

(** *** Instances of the host's conversions for the examples *)

(** [Number::toString] on integers, where it is the decimal numeral (the
    host turns to exponent notation from 10^21 on). The examples print
    integers only; a fraction is printed as the integer below it, which is
    not what the host prints. *)
Definition integer_text (n : num) : string :=
  match n with
  | NaN => "NaN"
  | PosInf => "Infinity"
  | NegInf => "-Infinity"
  | Fin q => NilZero.string_of_int (Z.to_int (Qfloor q))
  end.

(** A run of digits of the radix [base], at most 16: its value continuing
    [acc], its length, the rest. *)
Fixpoint radix_digits (base : nat) (s : string) (acc : Z) (len : nat)
  : Z * nat * string :=
  match s with
  | String c rest =>
      match hex_val c with
      | Some v =>
          if v <? base
          then radix_digits base rest (Z.of_nat base * acc + Z.of_nat v)%Z (S len)
          else (acc, len, s)
      | None => (acc, len, s)
      end
  | EmptyString => (acc, len, s)
  end.

(** An unsigned decimal numeral of a numeric string, to its end: digits
    with an optional point and an optional exponent, at least one digit
    before or after the point. *)
Definition unsigned_decimal (s : string) : option Q :=
  let '(ip, ilen, s2) := digits s 0%Z 0 in
  let '(m, flen, s3) :=
    match s2 with
    | String c rest => if code c =? 46 then digits rest ip 0 else (ip, 0, s2)
    | EmptyString => (ip, 0, s2)
    end in
  if (ilen =? 0) && (flen =? 0) then None
  else
    match s3 with
    | EmptyString => Some (scale10 m (- Z.of_nat flen))
    | String c rest =>
        if (code c =? 101) || (code c =? 69) then
          let '(eneg, s4) :=
            match rest with
            | String d rest' =>
                if code d =? 45 then (true, rest')
                else if code d =? 43 then (false, rest')
                else (false, rest)
            | EmptyString => (false, rest)
            end in
          let '(e, elen, s5) := digits s4 0%Z 0 in
          match s5 with
          | EmptyString =>
              if elen =? 0 then None
              else Some (scale10 m ((if eneg then - e else e) - Z.of_nat flen))
          | String _ _ => None
          end
        else None
    end.

(** [StringToNumber], the value of [Number(s)]: zero for a text that is
    white space from end to end; between white space, a binary, octal or
    hexadecimal numeral; or, after an optional sign, [Infinity] or a decimal
    numeral; NaN for any other text. A number has no sign when it is zero. *)
Definition decimal_value (s : string) : num :=
  match trim s with
  | EmptyString => Fin (inject_Z 0)
  | String c rest as text =>
      let radix :=
        if code c =? 48 then
          match rest with
          | String x digs =>
              if (code x =? 120) || (code x =? 88) then Some (16, digs)
              else if (code x =? 111) || (code x =? 79) then Some (8, digs)
              else if (code x =? 98) || (code x =? 66) then Some (2, digs)
              else None
          | EmptyString => None
          end
        else None in
      match radix with
      | Some (base, digs) =>
          match radix_digits base digs 0%Z 0 with
          | (v, S _, EmptyString) => double (inject_Z v)
          | _ => NaN
          end
      | None =>
          let '(neg, u) :=
            if code c =? 45 then (true, rest)
            else if code c =? 43 then (false, rest)
            else (false, text) in
          if String.eqb u "Infinity" then (if neg then NegInf else PosInf)
          else
            match unsigned_decimal u with
            | Some q => double (if neg then Qopp q else q)
            | None => NaN
            end
      end
  end.

(** A text with each apostrophe turned into a double quote, to write JSON
    texts. *)
Fixpoint quoted (s : string) : string :=
  match s with
  | EmptyString => EmptyString
  | String c rest => String (if code c =? 39 then dquote else c) (quoted rest)
  end.

End JS.

(* ===================================================================== *)
(** ** Rounding to doubles *)
(* ===================================================================== *)

Module Double.
Import JS.
Local Open Scope Z_scope.

(** One hundredth, and [2^-59], the distance from the double nearest to one
    hundredth to the doubles next to it. *)
Definition hundredth : Q := Qmake 1 100.
Definition margin : Q := Qmake 1 (2 ^ 59).

(** The literal [0.01]. *)
Lemma tolerance_value :
  double hundredth = Fin (Qmake 5764607523034235 576460752303423488).
Proof. reflexivity. Qed.

Lemma round_half_even_bounds (a b : Z) :
  0 < b ->
  2 * a - b <= 2 * b * round_half_even a b <= 2 * a + b.
Proof.
  intros Hb. unfold round_half_even.
  pose proof (Z.div_mod a b ltac:(lia)) as Hd.
  pose proof (Z.mod_pos_bound a b Hb) as Hr.
  destruct (Z.compare_spec (2 * (a mod b)) b) as [E|E|E].
  - destruct (Z.even (a / b)); nia.
  - nia.
  - nia.
Qed.

Lemma round_half_even_least (a b k : Z) :
  0 < b -> b * k <= a -> k <= round_half_even a b.
Proof.
  intros Hb Hk. pose proof (round_half_even_bounds a b Hb) as H. nia.
Qed.

Lemma pow2_pos (k : Z) : 0 < pow2 k.
Proof. unfold pow2. apply Z.pow_pos_nonneg; lia. Qed.

Lemma pow2_nonneg (k : Z) : 0 <= k -> pow2 k = 2 ^ k /\ pow2 (- k) = 1.
Proof.
  intros H. unfold pow2. rewrite Z.max_r by lia. split; [reflexivity|].
  now rewrite Z.max_l by lia.
Qed.

Lemma pow2_neg (k : Z) : k <= 0 -> pow2 k = 1 /\ pow2 (- k) = 2 ^ (- k).
Proof.
  intros H. unfold pow2. rewrite Z.max_l by lia. split; [reflexivity|].
  now rewrite Z.max_r by lia.
Qed.

Lemma exponent_reaches (n d : Z) :
  0 < n -> 0 < d -> reaches (exponent n d) n d = true.
Proof.
  intros Hn Hd. unfold exponent.
  destruct (reaches (Z.log2 n - Z.log2 d) n d) eqn:E; [exact E|].
  pose proof (Z.log2_spec n Hn) as [Hn1 Hn2].
  pose proof (Z.log2_spec d Hd) as [Hd1 Hd2].
  pose proof (Z.log2_nonneg n) as Ln. pose proof (Z.log2_nonneg d) as Ld.
  unfold reaches. apply Z.leb_le.
  set (e := Z.log2 n - Z.log2 d - 1).
  destruct (Z.le_gt_cases 0 e) as [He|He].
  - destruct (pow2_nonneg e He) as [-> ->]. rewrite Z.mul_1_r.
    assert (H : 2 ^ Z.succ (Z.log2 d) * 2 ^ e = 2 ^ Z.log2 n).
    { rewrite <- Z.pow_add_r by lia. f_equal. unfold e. lia. }
    assert (0 < 2 ^ e) by (apply Z.pow_pos_nonneg; lia). nia.
  - destruct (pow2_neg e ltac:(lia)) as [-> ->]. rewrite Z.mul_1_r.
    assert (H : 2 ^ Z.log2 n * 2 ^ (- e) = 2 ^ Z.succ (Z.log2 d)).
    { rewrite <- Z.pow_add_r by lia. f_equal. unfold e. lia. }
    assert (0 < 2 ^ (- e)) by (apply Z.pow_pos_nonneg; lia). nia.
Qed.

Lemma exponent_greatest (n d : Z) :
  0 < n -> 0 < d -> reaches (exponent n d + 1) n d = false.
Proof.
  intros Hn Hd. unfold exponent.
  destruct (reaches (Z.log2 n - Z.log2 d) n d) eqn:E.
  2:{ now replace (Z.log2 n - Z.log2 d - 1 + 1) with (Z.log2 n - Z.log2 d)
        by lia. }
  pose proof (Z.log2_spec n Hn) as [Hn1 Hn2].
  pose proof (Z.log2_spec d Hd) as [Hd1 Hd2].
  pose proof (Z.log2_nonneg n) as Ln. pose proof (Z.log2_nonneg d) as Ld.
  unfold reaches. apply Z.leb_gt.
  set (e := Z.log2 n - Z.log2 d + 1).
  destruct (Z.le_gt_cases 0 e) as [He|He].
  - destruct (pow2_nonneg e He) as [-> ->]. rewrite Z.mul_1_r.
    assert (H : 2 ^ Z.log2 d * 2 ^ e = 2 ^ Z.succ (Z.log2 n)).
    { rewrite <- Z.pow_add_r by lia. f_equal. unfold e. lia. }
    assert (0 < 2 ^ e) by (apply Z.pow_pos_nonneg; lia). nia.
  - destruct (pow2_neg e ltac:(lia)) as [-> ->]. rewrite Z.mul_1_r.
    assert (H : 2 ^ Z.succ (Z.log2 n) * 2 ^ (- e) = 2 ^ Z.log2 d).
    { rewrite <- Z.pow_add_r by lia. f_equal. unfold e. lia. }
    assert (0 < 2 ^ (- e)) by (apply Z.pow_pos_nonneg; lia). nia.
Qed.

(** A value at least [2^-59] below one hundredth rounds to a double
    below the tolerance. *)
Lemma double_pos_below (n d : Z) :
  0 < n -> 0 < d ->
  100 * 2 ^ 59 * n <= (2 ^ 59 - 100) * d ->
  lt (Math_abs (double_pos n d)) (double hundredth) = true.
Proof.
  intros Hn Hd Hx. unfold double_pos.
  pose proof (exponent_reaches n d Hn Hd) as Hr.
  set (e := exponent n d) in *.
  assert (He : e <= -7).
  { destruct (Z.le_gt_cases e (-7)) as [H|H]; [exact H|]. exfalso.
    unfold reaches in Hr. apply Z.leb_le in Hr.
    assert (Hd64 : d <= 64 * n).
    { destruct (Z.le_gt_cases 0 e) as [H0|H0].
      - destruct (pow2_nonneg e H0) as [E1 E2]. rewrite E1, E2 in Hr.
        assert (1 <= 2 ^ e) by (apply (Z.pow_le_mono_r 2 0 e); lia). nia.
      - destruct (pow2_neg e ltac:(lia)) as [E1 E2]. rewrite E1, E2 in Hr.
        assert (2 ^ (- e) <= 2 ^ 6) by (apply Z.pow_le_mono_r; lia).
        change (2 ^ 6) with 64 in *. nia. }
    change (2 ^ 59) with 576460752303423488 in Hx. lia. }
  set (E := Z.max e (-1022)).
  assert (HE : E <= -7) by (unfold E; lia).
  replace ((1024 <=? E) || ((E =? 1023) && _)) with false.
  2:{ symmetry. apply orb_false_iff. split; [apply Z.leb_gt; lia|].
      apply andb_false_iff. left. apply Z.eqb_neq. lia. }
  set (k := 52 - E). assert (Hk : 59 <= k) by (unfold k; lia).
  destruct (pow2_nonneg k ltac:(lia)) as [E1 E2]. rewrite E1, E2.
  rewrite !Z.mul_1_r.
  set (m := round_half_even (n * 2 ^ k) d).
  pose proof (round_half_even_bounds (n * 2 ^ k) d Hd) as Hm. fold m in Hm.
  assert (Hp : 2 ^ k = 2 ^ 59 * 2 ^ (k - 59)).
  { rewrite <- Z.pow_add_r by lia. f_equal. lia. }
  assert (HP : 1 <= 2 ^ (k - 59)) by (apply (Z.pow_le_mono_r 2 0); lia).
  set (P := 2 ^ (k - 59)) in *.
  assert (Hm0 : 0 <= m) by nia.
  assert (Hpos : 0 < 2 ^ k) by (apply Z.pow_pos_nonneg; lia).
  rewrite tolerance_value. unfold Math_abs, lt. apply negb_true_iff.
  destruct (Qle_bool _ _) eqn:Eq; [|reflexivity]. exfalso.
  apply Qle_bool_iff in Eq. rewrite Qabs_pos in Eq.
  2:{ rewrite Qred_correct. unfold Qle. simpl. rewrite Z.mul_1_r. lia. }
  rewrite Qred_correct in Eq.
  unfold Qle in Eq. cbn [Qnum Qden] in Eq.
  rewrite Z2Pos.id in Eq by assumption. rewrite Hp in Eq.
  change (2 ^ 59) with 576460752303423488 in *.
  change (Z.pos 576460752303423488) with 576460752303423488 in Eq.
  assert (200 * m <= 2 * (576460752303423488 - 100) * P + 100) by nia.
  nia.
Qed.

(** A value at least [2^-59] above one hundredth rounds to a double
    above the tolerance, or to infinity. *)
Lemma double_pos_above (n d : Z) :
  0 < n -> 0 < d ->
  (2 ^ 59 + 100) * d <= 100 * 2 ^ 59 * n ->
  lt (Math_abs (double_pos n d)) (double hundredth) = false.
Proof.
  intros Hn Hd Hx. unfold double_pos.
  pose proof (exponent_reaches n d Hn Hd) as Hr.
  pose proof (exponent_greatest n d Hn Hd) as Hg.
  set (e := exponent n d) in *.
  unfold reaches in Hr, Hg. apply Z.leb_le in Hr. apply Z.leb_gt in Hg.
  assert (He : -7 <= e).
  { destruct (Z.le_gt_cases (-7) e) as [H|H]; [exact H|]. exfalso.
    destruct (pow2_neg (e + 1) ltac:(lia)) as [E1 E2]. rewrite E1, E2 in Hg.
    assert (2 ^ 7 <= 2 ^ (- (e + 1))) by (apply Z.pow_le_mono_r; lia).
    change (2 ^ 7) with 128 in *.
    change (2 ^ 59) with 576460752303423488 in Hx. nia. }
  rewrite Z.max_l by lia.
  destruct ((1024 <=? e) || ((e =? 1023) && _)); [reflexivity|].
  set (k := 52 - e).
  set (m := round_half_even (n * pow2 k) (d * pow2 (- k))).
  pose proof (pow2_pos k) as Pk. pose proof (pow2_pos (- k)) as Pk'.
  assert (Hb : 0 < d * pow2 (- k)) by nia.
  rewrite tolerance_value. unfold Math_abs, lt.
  apply negb_false_iff, Qle_bool_iff.
  assert (Hm0 : 0 <= m).
  { apply round_half_even_least; [assumption|]. nia. }
  rewrite Qabs_pos.
  2:{ rewrite Qred_correct. unfold Qle. simpl. nia. }
  rewrite Qred_correct. unfold Qle. cbn [Qnum Qden].
  rewrite Z2Pos.id by assumption.
  change (Z.pos 576460752303423488) with 576460752303423488.
  destruct (Z.eq_dec e (-7)) as [E7|E7].
  - assert (Ek : k = 59) by (unfold k; lia).
    pose proof (round_half_even_bounds (n * pow2 k) (d * pow2 (- k)) Hb) as Hm.
    fold m in Hm. revert Hm. rewrite Ek.
    change (pow2 59) with 576460752303423488. change (pow2 (- 59)) with 1.
    change (2 ^ 59) with 576460752303423488 in Hx.
    rewrite !Z.mul_1_r. intros Hm. nia.
  - assert (Hk : k <= 58) by (unfold k; lia).
    assert (Hm : 2 ^ 52 <= m).
    { apply round_half_even_least; [assumption|].
      destruct (Z.le_gt_cases 52 e) as [H52|H52].
      - destruct (pow2_neg k ltac:(unfold k; lia)) as [E1 E2].
        destruct (pow2_nonneg e ltac:(lia)) as [E3 E4].
        rewrite E1, E2. rewrite E3, E4 in Hr.
        assert (H : 2 ^ (- k) * 2 ^ 52 = 2 ^ e).
        { rewrite <- Z.pow_add_r by (unfold k; lia). f_equal. unfold k. lia. }
        nia.
      - destruct (pow2_nonneg k ltac:(unfold k; lia)) as [E1 E2].
        rewrite E1, E2.
        destruct (Z.le_gt_cases 0 e) as [H0|H0].
        + destruct (pow2_nonneg e H0) as [E3 E4]. rewrite E3, E4 in Hr.
          assert (H : 2 ^ e * 2 ^ k = 2 ^ 52).
          { rewrite <- Z.pow_add_r by (unfold k; lia). f_equal. unfold k. lia. }
          assert (0 < 2 ^ k) by (apply Z.pow_pos_nonneg; unfold k; lia).
          nia.
        + destruct (pow2_neg e ltac:(lia)) as [E3 E4]. rewrite E3, E4 in Hr.
          assert (H : 2 ^ (- e) * 2 ^ 52 = 2 ^ k).
          { rewrite <- Z.pow_add_r by lia. f_equal. unfold k. lia. }
          nia. }
    assert (Hpk : pow2 k <= 2 ^ 58).
    { unfold pow2. apply Z.pow_le_mono_r; lia. }
    change (2 ^ 52) with 4503599627370496 in Hm.
    change (2 ^ 58) with 288230376151711744 in Hpk.
    nia.
Qed.

Lemma double_zero (q : Q) : Qeq q (inject_Z 0) -> double q = Fin (inject_Z 0).
Proof.
  unfold Qeq, double. simpl. rewrite Z.mul_1_r. now intros ->.
Qed.

Lemma lt_abs_negate (x t : num) :
  lt (Math_abs (negate x)) t = lt (Math_abs x) t.
Proof.
  destruct x as [| | |q]; try reflexivity. destruct t as [| | |y]; try reflexivity.
  cbn [Math_abs negate lt]. f_equal.
  destruct (Qle_bool y (Qabs q)) eqn:E.
  - apply Qle_bool_iff. apply Qle_bool_iff in E. now rewrite Qabs_opp.
  - destruct (Qle_bool y (Qabs (- q))) eqn:E'; [|reflexivity].
    apply Qle_bool_iff in E'. rewrite Qabs_opp in E'.
    apply Qle_bool_iff in E'. congruence.
Qed.

Lemma double_close (x : Q) :
  Qle (Qabs x) (Qminus hundredth margin) ->
  lt (Math_abs (double x)) (double hundredth) = true.
Proof.
  destruct x as [n d]. unfold double, Qle. cbn [Qnum Qden Qabs].
  change (Qnum (Qminus hundredth margin)) with (2 ^ 59 - 100).
  change (QDen (Qminus hundredth margin)) with (100 * 2 ^ 59).
  intros H. destruct n as [|p|p].
  - reflexivity.
  - apply double_pos_below; [reflexivity | reflexivity |].
    cbn [Z.abs] in H. lia.
  - rewrite lt_abs_negate. apply double_pos_below; [reflexivity | reflexivity |].
    cbn [Z.abs] in H. lia.
Qed.

Lemma double_far (x : Q) :
  Qle (Qplus hundredth margin) (Qabs x) ->
  lt (Math_abs (double x)) (double hundredth) = false.
Proof.
  destruct x as [n d]. unfold double, Qle. cbn [Qnum Qden Qabs].
  change (Qnum (Qplus hundredth margin)) with (2 ^ 59 + 100).
  change (QDen (Qplus hundredth margin)) with (100 * 2 ^ 59).
  intros H. destruct n as [|p|p].
  - cbn [Z.abs] in H. change (2 ^ 59) with 576460752303423488 in H. lia.
  - apply double_pos_above; [reflexivity | reflexivity |].
    cbn [Z.abs] in H. lia.
  - rewrite lt_abs_negate. apply double_pos_above; [reflexivity | reflexivity |].
    cbn [Z.abs] in H. lia.
Qed.

(** *** The rounding against the standard library's binary64

    [SpecFloat] holds the reference operations on binary floats of the
    library. Its division of two whole numbers below [2^53], and its
    rounding of a whole multiple of a power of two, are compared with
    [double] on a sample that covers ties, the subnormal numbers and the
    overflow. *)

Definition of_spec_float (x : SpecFloat.spec_float) : num :=
  match x with
  | SpecFloat.S754_zero _ => Fin (inject_Z 0)
  | SpecFloat.S754_infinity s => if s then NegInf else PosInf
  | SpecFloat.S754_nan => NaN
  | SpecFloat.S754_finite s m e =>
      let v := Qmake (Zpos m * pow2 e) (Z.to_pos (pow2 (- e))) in
      Fin (Qred (if s then Qopp v else v))
  end.

Definition binary64_quotient (n d : Z) : num :=
  of_spec_float
    (SpecFloat.SFdiv 53 1024 (SpecFloat.binary_normalize 53 1024 n 0 false)
       (SpecFloat.binary_normalize 53 1024 d 0 false)).

Definition binary64_scaled (m e : Z) : num :=
  of_spec_float (SpecFloat.binary_normalize 53 1024 m e false).

Definition same_number (a b : num) : bool :=
  match a, b with
  | NaN, NaN => true
  | _, _ => strict_eq a b
  end.

Example double_is_binary64 :
  forallb (fun nd => same_number (double (Qmake (fst nd) (Z.to_pos (snd nd))))
                       (binary64_quotient (fst nd) (snd nd)))
    [ (1, 100); (1201, 100); (21, 100); (-21, 100); (1, 3); (2, 3); (-7, 10);
      (1, 10); (3, 10); (12, 1); (9007199254740991, 1); (1, 9007199254740991);
      (9007199254740991, 9007199254740990); (5, 1000); (123456789, 1000) ]
  = true
  /\ forallb (fun me => same_number
                          (double (Qmake (fst me * pow2 (snd me))
                                     (Z.to_pos (pow2 (- snd me)))))
                          (binary64_scaled (fst me) (snd me)))
       [ (2 ^ 53 + 1, 0); (2 ^ 53 + 3, 0); (2 ^ 54 + 2, 0); (2 ^ 54 + 6, 0);
         (1, -1074); (1, -1075); (3, -1075); (5, -1076); (2 ^ 52 + 1, -1075);
         (2 ^ 53 - 1, 971); (2 ^ 54 - 1, 970); (2 ^ 54 - 2, 970); (1, 1024);
         (1, 1023); (123456789, -30); (-(2 ^ 53 + 1), 0) ]
     = true.
Proof. split; vm_compute; reflexivity. Qed.

End Double.

(* ===================================================================== *)
(** ** Stable sorting by insertion *)
(* ===================================================================== *)

Section Sorting.

Context {A : Type}.

(** [goes_before e x]: [e], which stood before [x], stays before it. *)
Variable goes_before : A -> A -> bool.

Fixpoint insert_by (e : A) (sorted : list A) : list A :=
  match sorted with
  | [] => [e]
  | x :: rest =>
      if goes_before e x then e :: sorted
      else x :: insert_by e rest
  end.

(** The elements are inserted from the last to the first, so that each one
    meets only elements that stood after it. *)
Definition sort_by (l : list A) : list A := fold_right insert_by [] l.

Lemma insert_by_perm (e : A) (l : list A) : Permutation (e :: l) (insert_by e l).
Proof.
  induction l as [|x l IH]; simpl; [apply Permutation_refl|].
  destruct (goes_before e x); [apply Permutation_refl|].
  eapply Permutation_trans; [apply perm_swap|]. now apply perm_skip.
Qed.

Lemma sort_by_perm (l : list A) : Permutation l (sort_by l).
Proof.
  induction l as [|x l IH]; simpl; [constructor|].
  eapply Permutation_trans; [apply perm_skip, IH | apply insert_by_perm].
Qed.

Lemma sort_by_In (l : list A) (x : A) : In x (sort_by l) <-> In x l.
Proof.
  split; apply Permutation_in;
    [apply Permutation_sym|]; apply sort_by_perm.
Qed.

Hypothesis total : forall a b, goes_before a b = false -> goes_before b a = true.
Hypothesis trans :
  forall a b c, goes_before a b = true -> goes_before b c = true -> goes_before a c = true.

(** [earlier] is an order the input respects; the output keeps it among
    elements that tie. *)
Variable earlier : A -> A -> Prop.

Definition sorted_stably (a b : A) : Prop :=
  goes_before a b = true /\ (goes_before b a = true -> earlier a b).

Lemma insert_by_sorted (e : A) (l : list A) :
  StronglySorted sorted_stably l ->
  Forall (earlier e) l ->
  StronglySorted sorted_stably (insert_by e l).
Proof.
  induction l as [|x l IH]; intros Hs He; simpl.
  - constructor; constructor.
  - inversion Hs as [|? ? Hs' Hx]; subst.
    inversion He as [|? ? Hex He']; subst.
    destruct (goes_before e x) eqn:G.
    + constructor; [assumption|].
      constructor; [now split|].
      rewrite Forall_forall in *. intros z Hz. split.
      * apply (trans e x z); [assumption | apply (Hx z Hz)].
      * intros _. now apply He'.
    + constructor; [now apply IH|].
      rewrite Forall_forall in *. intros z Hz.
      apply (Permutation_in _ (Permutation_sym (insert_by_perm e l))) in Hz.
      destruct Hz as [<-|Hz]; [|now apply Hx].
      split; [now apply total | congruence].
Qed.

Lemma sort_by_sorted (l : list A) :
  StronglySorted earlier l -> StronglySorted sorted_stably (sort_by l).
Proof.
  induction l as [|x l IH]; intros Hs; simpl; [constructor|].
  inversion Hs as [|? ? Hs' Hx]; subst.
  apply insert_by_sorted; [now apply IH|].
  rewrite Forall_forall in *. intros z Hz. apply Hx.
  now apply sort_by_In.
Qed.

End Sorting.

(** *** Facts on lists sorted for a relation *)

Lemma StronglySorted_filter {A : Type} (R : A -> A -> Prop) (f : A -> bool) (l : list A) :
  StronglySorted R l -> StronglySorted R (filter f l).
Proof.
  induction 1 as [|x l Hs IH Hx]; simpl; [constructor|].
  destruct (f x); [|assumption].
  constructor; [assumption|].
  rewrite Forall_forall in *. intros y Hy. apply Hx.
  now apply filter_In in Hy.
Qed.

Lemma StronglySorted_weaken {A : Type} (R R' : A -> A -> Prop) (l : list A) :
  (forall a b, In a l -> In b l -> R a b -> R' a b) ->
  StronglySorted R l -> StronglySorted R' l.
Proof.
  intros Himp Hs. induction Hs as [|x l Hs IH Hx]; [constructor|].
  constructor.
  - apply IH. intros a b Ha Hb. apply Himp; now right.
  - rewrite Forall_forall in *. intros y Hy.
    apply Himp; [now left | now right | now apply Hx].
Qed.

Lemma StronglySorted_map {A B : Type} (R : B -> B -> Prop) (f : A -> B) (l : list A) :
  StronglySorted (fun a b => R (f a) (f b)) l -> StronglySorted R (map f l).
Proof.
  induction 1 as [|x l Hs IH Hx]; simpl; constructor; [assumption|].
  rewrite Forall_forall in *. intros y Hy.
  apply in_map_iff in Hy. destruct Hy as [a [<- Ha]]. now apply Hx.
Qed.

Lemma StronglySorted_app {A : Type} (R : A -> A -> Prop) (l1 l2 : list A) :
  StronglySorted R l1 -> StronglySorted R l2 ->
  (forall a b, In a l1 -> In b l2 -> R a b) ->
  StronglySorted R (l1 ++ l2).
Proof.
  intros H1 H2 Hc. induction H1 as [|x l Hs IH Hx]; simpl; [assumption|].
  constructor.
  - apply IH. intros a b Ha Hb. apply Hc; [now right | assumption].
  - rewrite Forall_forall in *. intros y Hy.
    apply in_app_or in Hy. destruct Hy as [Hy|Hy];
      [now apply Hx | apply Hc; [now left | assumption]].
Qed.

Lemma filter_partition_perm {A : Type} (f : A -> bool) (l : list A) :
  Permutation (filter f l ++ filter (fun x => negb (f x)) l) l.
Proof.
  induction l as [|x l IH]; simpl; [constructor|].
  destruct (f x); simpl.
  - now apply perm_skip.
  - apply Permutation_sym. apply Permutation_cons_app. now apply Permutation_sym.
Qed.

Lemma Permutation_filter {A : Type} (f : A -> bool) (l l' : list A) :
  Permutation l l' -> Permutation (filter f l) (filter f l').
Proof.
  induction 1 as [|x l l' H IH|x y l|l l' l'' H1 IH1 H2 IH2]; simpl.
  - constructor.
  - destruct (f x); [now apply perm_skip | assumption].
  - destruct (f x), (f y); try apply Permutation_refl. apply perm_swap.
  - now apply Permutation_trans with (filter f l').
Qed.

(** *** Facts on a map that may throw *)

Lemma mapi_from_length {A B : Type} (f : nat -> A -> Result B) (i : nat)
  (xs : list A) (ys : list B) :
  mapi_from f i xs = Ok ys -> List.length ys = List.length xs.
Proof.
  revert i ys. induction xs as [|x xs IH]; intros i ys; simpl.
  - intros H. now injection H as <-.
  - destruct (f i x) as [y|e]; simpl; [|discriminate].
    destruct (mapi_from f (S i) xs) as [ys'|e] eqn:E; simpl; [|discriminate].
    intros H. injection H as <-. simpl. f_equal. now apply (IH (S i)).
Qed.

Lemma mapi_from_Forall {A B : Type} (P : B -> Prop) (f : nat -> A -> Result B)
  (i : nat) (xs : list A) (ys : list B) :
  (forall j x y, f j x = Ok y -> P y) ->
  mapi_from f i xs = Ok ys -> Forall P ys.
Proof.
  intros HP. revert i ys. induction xs as [|x xs IH]; intros i ys; simpl.
  - intros H. injection H as <-. constructor.
  - destruct (f i x) as [y|e] eqn:Ey; simpl; [|discriminate].
    destruct (mapi_from f (S i) xs) as [ys'|e] eqn:E; simpl; [|discriminate].
    intros H. injection H as <-. constructor; [now apply (HP i x) | now apply (IH (S i))].
Qed.

Lemma mapi_from_index {A B C : Type} (g : B -> C) (h : nat -> C)
  (f : nat -> A -> Result B) (i : nat) (xs : list A) (ys : list B) :
  (forall j x y, f j x = Ok y -> g y = h j) ->
  mapi_from f i xs = Ok ys -> map g ys = map h (seq i (List.length ys)).
Proof.
  intros Hg. revert i ys. induction xs as [|x xs IH]; intros i ys; simpl.
  - intros H. now injection H as <-.
  - destruct (f i x) as [y|e] eqn:Ey; simpl; [|discriminate].
    destruct (mapi_from f (S i) xs) as [ys'|e] eqn:E; simpl; [|discriminate].
    intros H. injection H as <-. simpl. f_equal; [now apply (Hg i x) | now apply IH].
Qed.

Lemma mapi_from_total {A B : Type} (f : nat -> A -> Result B) (i : nat) (xs : list A) :
  (forall j x, In x xs -> exists y, f j x = Ok y) ->
  exists ys, mapi_from f i xs = Ok ys.
Proof.
  revert i. induction xs as [|x xs IH]; intros i Hf; simpl.
  - now exists [].
  - destruct (Hf i x (or_introl eq_refl)) as [y ->]. simpl.
    destruct (IH (S i)) as [ys ->].
    + intros j x' Hx'. apply Hf. now right.
    + simpl. now exists (y :: ys).
Qed.

Lemma mapi_from_throw {A B : Type} (f : nat -> A -> Result B) (i : nat)
  (xs : list A) (e : Exn) :
  mapi_from f i xs = Throw e -> exists j x, In x xs /\ f j x = Throw e.
Proof.
  revert i. induction xs as [|x xs IH]; intros i; simpl; [discriminate|].
  destruct (f i x) as [y|e'] eqn:Ey; simpl.
  - destruct (mapi_from f (S i) xs) as [ys'|e'] eqn:E; simpl; [discriminate|].
    intros H. injection H as ->. destruct (IH (S i) E) as [j [x' [Hin Hx']]].
    exists j, x'. split; [now right | assumption].
  - intros H. injection H as ->. exists i, x. split; [now left | assumption].
Qed.

(** A value of the union [number | string]. *)
Inductive Answer : Type :=
| ANum (n : JS.num)
| AStr (s : string).

(** The literal union of the two question types, multiple choice and
    numeric answer. *)
Inductive QType : Type := mcq | nat_.

(* ===================================================================== *)
(** ** src/ai.ts: exam generation *)
(* ===================================================================== *)

Module Ai.
Import JS.

(** [type RawQuestion]: optional fields are options. The elements of
    [options] are whatever the provider sent: the normalizer checks the
    length of the array only. *)

Record RawQuestion : Type := {
  id : option Z;
  type : QType;
  question : string;
  options : option (list JSON);
  answer : option Answer;
  marks : option Z;
  topic : option string;
  explanation : option string
}.

Inductive Difficulty : Type := easy | medium | hard | mixed.

(** The validated arguments of the action. *)
Record Args : Type := {
  subjectMix : option (list string);
  numQuestions : option num;
  difficulty : option Difficulty;
  includeExplanations : option bool
}.

(** The variables of [process.env] the handler reads. *)
Record ProcessEnv : Type := {
  OPENROUTER_API_KEY : option string;
  VITE_OPENROUTER_API_KEY : option string;
  OPENAI_API_KEY : option string;
  ANTHROPIC_API_KEY : option string;
  VITE_ANTHROPIC_API_KEY : option string
}.

(** [a ?? b]. *)
Definition nullish {A : Type} (a : option A) (b : A) : A :=
  match a with Some x => x | None => b end.

(** Truthiness of a string: non-empty. *)
Definition nonempty (s : string) : bool :=
  match s with EmptyString => false | String _ _ => true end.

Definition default_topics : list string :=
  [ "programming_and_dsa"; "database_management"; "operating_systems";
    "computer_networks"; "computer_organization"; "theory_of_computation";
    "compiler_design"; "discrete_mathematics"; "linear_algebra";
    "probability_statistics"; "general_aptitude" ].

Definition models : list string :=
  [ "anthropic/claude-3-haiku"; "mistralai/mixtral-8x7b-instruct";
    "openai/gpt-4o-mini" ].

(** *** The response normalizer

    The text of lines 132-172 ([tryOnceOpenRouter]) and 204-244
    ([tryAnthropic]) is the same up to the message of the parse error. *)

(** [String(content).match(/\[[\s\S]*\]/)]: from the first opening bracket
    to the last closing bracket after it. *)
Fixpoint from_first_open (s : string) : option string :=
  match s with
  | EmptyString => None
  | String c rest => if code c =? 91 then Some s else from_first_open rest
  end.

Fixpoint upto_last_close (s : string) : option string :=
  match s with
  | EmptyString => None
  | String c rest =>
      match upto_last_close rest with
      | Some kept => Some (String c kept)
      | None => if code c =? 93 then Some (String c EmptyString) else None
      end
  end.

Definition regex_match (content : string) : option string :=
  match from_first_open content with
  | Some s => upto_last_close s
  | None => None
  end.

(** [const jsonStr = match ? match[0] : content]. *)
Definition jsonStr (content : string) : string :=
  match regex_match content with Some m => m | None => content end.

(** Truthiness of a parsed value. *)
Definition truthy (v : JSON) : bool :=
  match v with
  | JNull => false
  | JBool b => b
  | JNum NaN => false
  | JNum (Fin q) => negb (Qeq_bool q 0)
  | JNum _ => true
  | JStr s => nonempty s
  | JArr _ => true
  | JObj _ => true
  end.

(** [q.k] for [q] not null and [k] one of the names the normalizer reads
    (type, marks, options, answer, question, topic, explanation): an own
    property of an object, undefined on every other value, as no prototype
    defines these names. *)
Definition property (q : JSON) (k : string) : option JSON :=
  match q with
  | JObj members => own_property k members
  | _ => None
  end.

Definition is_string (v : option JSON) (s : string) : bool :=
  match v with Some (JStr s') => String.eqb s' s | _ => false end.

(** *** The local generator *)

Record McqTemplate : Type := {
  mcq_q : string; mcq_options : list string; mcq_ans : num; mcq_topic : string
}.

Record NatTemplate : Type := {
  nat_q : string; nat_ans : Answer; nat_topic : string
}.

Definition baseMCQs : list McqTemplate :=
  [ {| mcq_q := "Which data structure is most suitable for implementing a LRU cache?";
       mcq_options := ["Queue"; "Stack"; "Hash map + Doubly linked list"; "Binary heap"];
       mcq_ans := of_Z 2; mcq_topic := "programming_and_dsa" |};
    {| mcq_q := "Which of the following is a lossless-join, dependency preserving normal form?";
       mcq_options := ["1NF"; "2NF"; "3NF"; "BCNF (not always dependency preserving)"];
       mcq_ans := of_Z 2; mcq_topic := "database_management" |};
    {| mcq_q := "Which scheduling algorithm can lead to starvation without aging?";
       mcq_options := ["Round Robin"; "FCFS"; "SJF"; "Priority (preemptive)"];
       mcq_ans := of_Z 3; mcq_topic := "operating_systems" |};
    {| mcq_q := "In networking, which layer is responsible for end-to-end reliable delivery?";
       mcq_options := ["Application"; "Transport"; "Network"; "Link"];
       mcq_ans := of_Z 1; mcq_topic := "computer_networks" |};
    {| mcq_q := "Which of the following is NOT typically part of a CPU pipeline stage?";
       mcq_options := ["Fetch"; "Decode"; "Execute"; "Fragment"];
       mcq_ans := of_Z 3; mcq_topic := "computer_organization" |};
    {| mcq_q := "Which language class is recognized by a deterministic finite automaton (DFA)?";
       mcq_options := ["Context-sensitive"; "Context-free"; "Regular"; "Recursively enumerable"];
       mcq_ans := of_Z 2; mcq_topic := "theory_of_computation" |};
    {| mcq_q := "Which phase of a compiler performs lexical analysis?";
       mcq_options := ["Frontend: Lexer"; "Frontend: Parser"; "Backend: Code generation"; "Optimizer"];
       mcq_ans := of_Z 0; mcq_topic := "compiler_design" |};
    {| mcq_q := "Which statement is TRUE about a simple undirected graph?";
       mcq_options := ["Self-loops are allowed"; "Multiple edges are allowed";
                       "Degree sum equals twice the number of edges";
                       "All nodes have the same degree"];
       mcq_ans := of_Z 2; mcq_topic := "discrete_mathematics" |} ].

Definition baseNATs : list NatTemplate :=
  [ {| nat_q := "Compute the determinant of [[1,2],[3,4]].";
       nat_ans := ANum (of_Z (-2)); nat_topic := "linear_algebra" |};
    {| nat_q := "If X~Bernoulli(p) with p=0.3, what is Var(X)? Enter as decimal.";
       nat_ans := ANum (double (Qmake 21 100)); nat_topic := "probability_statistics" |};
    {| nat_q := "Find the derivative of f(x)=3x^2 at x=2.";
       nat_ans := ANum (of_Z 12); nat_topic := "programming_and_dsa" |} ].

(** [a || b] on strings. *)
Definition or_else (a b : string) : string := if nonempty a then a else b.

(** The body of the loop at index [i]: the question it pushes. The index
    of the template is [(i / 2) % length | 0]: the quotient is exact at an
    even [i] (multiple choice) and has a half at an odd one (numeric), which
    the remainder keeps and the truncation drops, so both are the integer
    quotient modulo the length. Reading a member of an undefined template
    would throw. *)
Definition localQuestion (topicsList : list string) (withExplanations : bool) (i : nat)
  : Result RawQuestion :=
  let isMcq := i mod 2 =? 0 in
  let marks := if i mod 3 =? 0 then 2%Z else 1%Z in
  let topic :=
    nullish (nth_error topicsList (i mod List.length topicsList)) "general_aptitude" in
  if isMcq then
    match nth_error baseMCQs ((i / 2) mod List.length baseMCQs) with
    | None => Throw (TypeError "Cannot read properties of undefined (reading 'q')")
    | Some pick =>
        Ok {| id := Some (Z.of_nat i + 1)%Z;
              type := mcq;
              question := mcq_q pick;
              options := Some (map JStr (mcq_options pick));
              answer := Some (ANum (mcq_ans pick));
              marks := Some marks;
              topic := Some (or_else (mcq_topic pick) topic);
              explanation :=
                if withExplanations
                then Some "Reason about definitions and standard properties; select the logically valid option."
                else None |}
    end
  else
    match nth_error baseNATs ((i / 2) mod List.length baseNATs) with
    | None => Throw (TypeError "Cannot read properties of undefined (reading 'q')")
    | Some pick =>
        Ok {| id := Some (Z.of_nat i + 1)%Z;
              type := nat_;
              question := nat_q pick;
              options := None;
              answer := Some (nat_ans pick);
              marks := Some marks;
              topic := Some (or_else (nat_topic pick) topic);
              explanation :=
                if withExplanations
                then Some "Apply standard formula or computation to obtain the numeric result."
                else None |}
    end.

(** [for (let i = 0; i < total; i++) arr.push(...)]: one question per index
    below [total], in order. [total] is NaN or from 5 to 65. *)
Definition buildLocalQuestions (n : num) (topicsList : list string)
  (withExplanations : bool) : Result (list RawQuestion) :=
  let total := Math_max (of_Z 5) (Math_min (of_Z 65) n) in
  mapi_from (fun i _ => localQuestion topicsList withExplanations i) 0
    (seq 0 (turns total)).

(** *** Providers and the trace of outbound calls *)

Inductive Candidate : Type :=
| Anthropic
| OpenRouter (model : string).

(** What one outbound request comes back with: an exception before any text
    is at hand (the request is rejected, or the body is not JSON), a status
    that is not 2xx, or a text ([String(content)] in the source). *)
Inductive Reply : Type :=
| Rejected (message : string)
| NotOk (status text statusText : string)
| Content (content : string).

(** A computation that issues requests: it receives the calls made so far
    and returns them extended. *)
Definition Action (A : Type) : Type := list Candidate -> Result A * list Candidate.

Definition lift {A : Type} (r : Result A) : Action A := fun calls => (r, calls).

(** [try { m } catch (e) { h(e) }]. *)
Definition try_catch {A : Type} (m : Action A) (h : Exn -> Action A) : Action A :=
  fun calls =>
    match m calls with
    | (Ok a, calls') => (Ok a, calls')
    | (Throw e, calls') => h e calls'
    end.

Section Host.

(** [Number::toString], the text of a number. *)
Variable NumberToString : num -> string.

(** [String(v)], [None] when the conversion throws. An object converts
    through [Object.prototype.toString] unless it has an own [toString]
    member, which in a parsed value is never callable: the conversion then
    falls to [valueOf], receives the object back, and throws. An array joins
    its elements with commas, null elements as empty text. *)
Fixpoint to_text (v : JSON) : option string :=
  match v with
  | JNull => Some "null"
  | JBool true => Some "true"
  | JBool false => Some "false"
  | JNum n => Some (NumberToString n)
  | JStr s => Some s
  | JArr items =>
      (fix join (l : list JSON) : option string :=
         match l with
         | [] => Some ""
         | x :: rest =>
             match (match x with JNull => Some "" | _ => to_text x end) with
             | None => None
             | Some sx =>
                 match rest with
                 | [] => Some sx
                 | _ :: _ =>
                     match join rest with
                     | None => None
                     | Some sr => Some (sx ++ "," ++ sr)%string
                     end
                 end
             end
         end) items
  | JObj members =>
      match own_property "toString" members with
      | Some _ => None
      | None => Some "[object Object]"
      end
  end.

Definition js_String (v : JSON) : Result string :=
  match to_text v with
  | Some s => Ok s
  | None => Throw (TypeError "Cannot convert object to primitive value")
  end.

(** [String(v ?? fallback)]. *)
Definition text_of (v : option JSON) (fallback : string) : Result string :=
  match v with
  | None => Ok fallback
  | Some JNull => Ok fallback
  | Some x => js_String x
  end.

(** [...(q.explanation ? { explanation: String(q.explanation) } : {})]. *)
Definition explanation_of (q : JSON) : Result (option string) :=
  match property q "explanation" with
  | Some e => if truthy e then (s <- js_String e ;; Ok (Some s)) else Ok None
  | None => Ok None
  end.

(** The callback of [parsed.slice(0, numQuestions).map((q, idx) => ...)] on
    an element that is not null. *)
Definition normalizeFields (topics : list string) (idx : nat) (q : JSON)
  : Result RawQuestion :=
  let type :=
    if is_string (property q "type") "mcq" then mcq
    else if is_string (property q "type") "nat" then nat_
    else mcq in
  let marks :=
    match property q "marks" with
    | Some (JNum n) => if strict_eq n (of_Z 2) then 2%Z else 1%Z
    | _ => 1%Z
    end in
  let pool_topic :=
    match nth_error topics (idx mod List.length topics) with
    | Some t => t
    | None => "undefined"
    end in
  match type with
  | mcq =>
      let options :=
        match property q "options" with
        | Some (JArr items) =>
            if List.length items =? 4 then items
            else [JStr "A"; JStr "B"; JStr "C"; JStr "D"]
        | _ => [JStr "A"; JStr "B"; JStr "C"; JStr "D"]
        end in
      let answer :=
        match property q "answer" with
        | Some (JNum n) => if le (of_Z 0) n && le n (of_Z 3) then n else of_Z 0
        | _ => of_Z 0
        end in
      question <- text_of (property q "question") "Untitled" ;;
      topic <- text_of (property q "topic") pool_topic ;;
      explanation <- explanation_of q ;;
      Ok {| id := Some (Z.of_nat idx + 1)%Z;
            type := type;
            question := question;
            options := Some options;
            answer := Some (ANum answer);
            marks := Some marks;
            topic := Some topic;
            explanation := explanation |}
  | nat_ =>
      let natAns :=
        match property q "answer" with
        | Some (JNum n) => ANum n
        | Some (JStr s) => AStr s
        | _ => AStr "0"
        end in
      question <- text_of (property q "question") "Untitled" ;;
      topic <- text_of (property q "topic") pool_topic ;;
      explanation <- explanation_of q ;;
      Ok {| id := Some (Z.of_nat idx + 1)%Z;
            type := type;
            question := question;
            options := None;
            answer := Some natAns;
            marks := Some marks;
            topic := Some topic;
            explanation := explanation |}
  end.

(** The callback: reading [q.type] of a null element throws. *)
Definition normalizeQuestion (topics : list string) (idx : nat) (q : JSON)
  : Result RawQuestion :=
  match q with
  | JNull => Throw (TypeError "Cannot read properties of null (reading 'type')")
  | _ => normalizeFields topics idx q
  end.

(** From the provider's text to the questions: extraction of the array,
    [JSON.parse], [Array.isArray], [slice] and [map]. [failure] is the
    message of the parse error. *)
Definition normalize (failure : string) (numQuestions : num) (topics : list string)
  (content : string) : Result (list RawQuestion) :=
  match JSON_parse (jsonStr content) with
  | Some (JArr parsed) =>
      mapi_from (normalizeQuestion topics) 0 (slice_to parsed numQuestions)
  | _ => Throw (Error failure)
  end.

Section Orchestrator.

(** The outcome of the k-th outbound request of a run, counted from 0. The
    orchestrator is deterministic, so this fixes every behaviour the
    providers can show to one run. *)
Variable provider : nat -> Reply.

Variable numQuestions' : num.
Variable topics : list string.

Definition tryOnceOpenRouter (model : string) : Action (list RawQuestion) :=
  fun calls =>
    let calls' := calls ++ [OpenRouter model] in
    match provider (List.length calls) with
    | Rejected message => (Throw (Error message), calls')
    | NotOk status text statusText =>
        (Throw (Error ("Model " ++ model ++ " error " ++ status ++ ": "
                       ++ or_else text statusText)%string), calls')
    | Content content =>
        (normalize ("Failed to parse AI response for model " ++ model ++ ".")%string
           numQuestions' topics content, calls')
    end.

Definition tryAnthropic : Action (list RawQuestion) :=
  fun calls =>
    let calls' := calls ++ [Anthropic] in
    match provider (List.length calls) with
    | Rejected message => (Throw (Error message), calls')
    | NotOk status text statusText =>
        (Throw (Error ("Anthropic error " ++ status ++ ": "
                       ++ or_else text statusText)%string), calls')
    | Content content =>
        (normalize "Failed to parse Anthropic response." numQuestions' topics content,
         calls')
    end.

(** [for (const model of models) { try { return await tryOnceOpenRouter(model) }
    catch (e) { errors.push(...); continue } }] followed by [after]. *)
Fixpoint try_models (ms : list string) (after : Action (list RawQuestion))
  : Action (list RawQuestion) :=
  match ms with
  | [] => after
  | model :: rest =>
      try_catch (tryOnceOpenRouter model) (fun _ => try_models rest after)
  end.

(** [tryOnceOpenRouter(models[0].toString().trim())]. *)
Definition retry_first_model : Action (list RawQuestion) :=
  match nth_error models 0 with
  | Some m => tryOnceOpenRouter (trim m)
  | None => lift (Throw (TypeError "Cannot read properties of undefined (reading 'toString')"))
  end.

(** The provider selection at the end of the handler, lines 308-387. *)
Definition select (anthropicKey openrouterKey : string) (withExplanations : bool)
  : Action (list RawQuestion) :=
  let local := lift (buildLocalQuestions numQuestions' topics withExplanations) in
  if nonempty anthropicKey then
    try_catch tryAnthropic (fun firstErr =>
      if nonempty openrouterKey then
        try_catch (try_models models retry_first_model) (fun _secondErr => local)
      else local)
  else if nonempty openrouterKey then
    try_models models
      (if nonempty anthropicKey then
         try_catch tryAnthropic (fun _e => local)
       else
         try_catch retry_first_model (fun _e => local))
  else local.

End Orchestrator.

(** The constants the handler computes before it selects a provider. *)
Definition openrouterKey (env : ProcessEnv) : string :=
  let rawOpenRouter :=
    match OPENROUTER_API_KEY env with
    | Some k => k
    | None =>
        match VITE_OPENROUTER_API_KEY env with
        | Some k => k
        | None => nullish (OPENAI_API_KEY env) ""
        end
    end in
  trim rawOpenRouter.

Definition anthropicKey (env : ProcessEnv) : string :=
  let rawAnthropic :=
    match ANTHROPIC_API_KEY env with
    | Some k => k
    | None => nullish (VITE_ANTHROPIC_API_KEY env) ""
    end in
  trim rawAnthropic.

(** [args.numQuestions ?? 10]. *)
Definition requested (args : Args) : num :=
  nullish (numQuestions args) (of_Z 10).

(** [Math.min(Math.max(args.numQuestions ?? 10, 5), 65)]. *)
Definition clamped (args : Args) : num :=
  Math_min (Math_max (requested args) (of_Z 5)) (of_Z 65).

Definition topics_of (args : Args) : list string :=
  match subjectMix args with
  | Some (t :: ts) => t :: ts
  | _ => default_topics
  end.

(** The handler of the action. *)
Definition generateExam (provider : nat -> Reply) (env : ProcessEnv) (args : Args)
  : Action (list RawQuestion) :=
  let numQuestions := clamped args in
  let includeExplanations := nullish (includeExplanations args) true in
  let topics := topics_of args in
  select provider numQuestions topics (anthropicKey env) (openrouterKey env)
    includeExplanations.

(** *** What the normalizer is measured against *)

(** The invariants of a canonical question as the code keeps them: on a
    multiple-choice question an array of four options, whatever they are,
    and as answer a number from 0 to 3, whole or not (the normalizer tests
    the type, the length and the two bounds, and nothing else); no options
    on a numeric-answer question. *)
Definition canonical (q : RawQuestion) : bool :=
  match type q with
  | mcq =>
      match options q, answer q with
      | Some os, Some (ANum a) =>
          (List.length os =? 4) && le (of_Z 0) a && le a (of_Z 3)
      | _, _ => false
      end
  | nat_ =>
      match options q with
      | None => true
      | Some _ => false
      end
  end.

(** The invariants in full: on a multiple-choice question the four
    options are texts and the answer is one of the indices 0, 1, 2, 3. *)
Definition whole_index (q : RawQuestion) : bool :=
  match type q with
  | mcq =>
      match options q, answer q with
      | Some os, Some (ANum a) =>
          (List.length os =? 4)
          && forallb (fun o => match o with JStr _ => true | _ => false end) os
          && existsb (fun i => strict_eq a (of_Z i)) [0; 1; 2; 3]%Z
      | _, _ => false
      end
  | nat_ =>
      match options q with
      | None => true
      | Some _ => false
      end
  end.

(** The identifiers 1, 2, ... of [k] questions. *)
Definition numbered (k : nat) : list (option Z) :=
  map (fun j => Some (Z.of_nat j + 1)%Z) (seq 0 k).

(** A value [String] converts: no object with an own [toString] member in
    it, at any depth of arrays. *)
Fixpoint plain (v : JSON) : bool :=
  match v with
  | JObj members =>
      match own_property "toString" members with
      | Some _ => false
      | None => true
      end
  | JArr items => forallb plain items
  | _ => true
  end.

Definition plain_field (q : JSON) (k : string) : bool :=
  match property q k with
  | Some v => plain v
  | None => true
  end.

(** An element the callback accepts: not null, and with text fields that
    convert. Its type, marks, options and answer may be anything, or
    missing. *)
Definition tame (q : JSON) : bool :=
  match q with
  | JNull => false
  | _ => plain_field q "question" && plain_field q "topic"
         && plain_field q "explanation"
  end.

Fixpoint JSON_nested_ind (P : JSON -> Prop)
  (Hnull : P JNull) (Hbool : forall b, P (JBool b)) (Hnum : forall n, P (JNum n))
  (Hstr : forall s, P (JStr s))
  (Harr : forall items, Forall P items -> P (JArr items))
  (Hobj : forall members, P (JObj members)) (v : JSON) : P v :=
  match v with
  | JNull => Hnull
  | JBool b => Hbool b
  | JNum n => Hnum n
  | JStr s => Hstr s
  | JArr items =>
      Harr items
        ((fix all (l : list JSON) : Forall P l :=
            match l with
            | [] => Forall_nil P
            | x :: rest =>
                Forall_cons x
                  (JSON_nested_ind P Hnull Hbool Hnum Hstr Harr Hobj x) (all rest)
            end) items)
  | JObj members => Hobj members
  end.

Lemma plain_converts (v : JSON) : plain v = true -> exists s, to_text v = Some s.
Proof.
  induction v as [|b|n|s|items IH|members] using JSON_nested_ind; simpl; intros Hp.
  - now eexists.
  - destruct b; now eexists.
  - now eexists.
  - now eexists.
  - induction items as [|x rest IHrest]; [now eexists|].
    simpl in Hp. apply andb_true_iff in Hp. destruct Hp as [Hx Hrest].
    inversion IH as [|? ? IHx IHr]; subst.
    destruct (IHx Hx) as [sx Hsx]. destruct (IHrest IHr Hrest) as [sr Hsr].
    assert (Hx' : exists s, match x with JNull => Some "" | _ => to_text x end = Some s).
    { destruct x; try (now exists sx); now eexists. }
    destruct Hx' as [s' ->].
    destruct rest as [|y rest']; [now eexists|].
    rewrite Hsr. now eexists.
  - destruct (own_property "toString" members); [discriminate | now eexists].
Qed.

Lemma js_String_throws (v : JSON) (e : Exn) :
  js_String v = Throw e -> exists m, e = TypeError m.
Proof.
  unfold js_String. destruct (to_text v); [discriminate|].
  intros H. injection H as <-. now eexists.
Qed.

Lemma text_of_throws (v : option JSON) (d : string) (e : Exn) :
  text_of v d = Throw e -> exists m, e = TypeError m.
Proof.
  destruct v as [[| | | | |]|]; simpl; try discriminate; apply js_String_throws.
Qed.

Lemma explanation_of_throws (q : JSON) (e : Exn) :
  explanation_of q = Throw e -> exists m, e = TypeError m.
Proof.
  unfold explanation_of. destruct (property q "explanation") as [v|]; [|discriminate].
  destruct (truthy v); [|discriminate].
  destruct (js_String v) eqn:E; simpl; [discriminate|].
  intros H. injection H as <-. now apply js_String_throws in E.
Qed.

Lemma normalizeFields_throws (topics : list string) (idx : nat) (q : JSON) (e : Exn) :
  normalizeFields topics idx q = Throw e -> exists m, e = TypeError m.
Proof.
  unfold normalizeFields.
  destruct (if is_string (property q "type") "mcq" then mcq
            else if is_string (property q "type") "nat" then nat_ else mcq);
    (destruct (text_of (property q "question") "Untitled") eqn:E1; simpl;
     [|intros H; injection H as <-; now apply text_of_throws in E1]);
    (destruct (text_of (property q "topic") _) eqn:E2; simpl;
     [|intros H; injection H as <-; now apply text_of_throws in E2]);
    (destruct (explanation_of q) eqn:E3; simpl;
     [discriminate | intros H; injection H as <-; now apply explanation_of_throws in E3]).
Qed.

Lemma normalizeQuestion_throws (topics : list string) (idx : nat) (q : JSON) (e : Exn) :
  normalizeQuestion topics idx q = Throw e -> exists m, e = TypeError m.
Proof.
  destruct q; simpl; try apply normalizeFields_throws.
  intros H. injection H as <-. now eexists.
Qed.

Lemma explanation_of_source (q : JSON) (s : string) :
  explanation_of q = Ok (Some s) ->
  exists e, property q "explanation" = Some e /\ truthy e = true /\ js_String e = Ok s.
Proof.
  unfold explanation_of. destruct (property q "explanation") as [v|]; [|discriminate].
  destruct (truthy v) eqn:T; [|discriminate].
  destruct (js_String v) eqn:E; simpl; [|discriminate].
  intros H. injection H as <-. now exists v.
Qed.

Lemma four_options (o : option JSON) :
  (List.length
     match o with
     | Some (JArr items) =>
         if List.length items =? 4 then items
         else [JStr "A"; JStr "B"; JStr "C"; JStr "D"]
     | _ => [JStr "A"; JStr "B"; JStr "C"; JStr "D"]
     end =? 4) = true.
Proof.
  destruct o as [[| | | |items|]|]; try reflexivity.
  destruct (List.length items =? 4) eqn:E; [exact E | reflexivity].
Qed.

Lemma index_in_range (o : option JSON) :
  le (of_Z 0)
     match o with
     | Some (JNum n) => if le (of_Z 0) n && le n (of_Z 3) then n else of_Z 0
     | _ => of_Z 0
     end
  && le match o with
        | Some (JNum n) => if le (of_Z 0) n && le n (of_Z 3) then n else of_Z 0
        | _ => of_Z 0
        end (of_Z 3) = true.
Proof.
  destruct o as [[| |n| | |]|]; try reflexivity.
  destruct (le (of_Z 0) n && le n (of_Z 3)) eqn:E; [exact E | reflexivity].
Qed.

Lemma normalizeFields_ok (topics : list string) (idx : nat) (q : JSON) (rq : RawQuestion) :
  normalizeFields topics idx q = Ok rq ->
  canonical rq = true
  /\ id rq = Some (Z.of_nat idx + 1)%Z
  /\ explanation_of q = Ok (explanation rq).
Proof.
  unfold normalizeFields.
  destruct (if is_string (property q "type") "mcq" then mcq
            else if is_string (property q "type") "nat" then nat_ else mcq);
    (destruct (text_of (property q "question") "Untitled") eqn:E1; simpl; [|discriminate]);
    (destruct (text_of (property q "topic") _) eqn:E2; simpl; [|discriminate]);
    (destruct (explanation_of q) eqn:E3; simpl; [|discriminate]);
    intros H; injection H as <-; unfold canonical; cbn [type options answer id explanation];
    (split; [|split; reflexivity]).
  - rewrite four_options. cbn [andb]. apply index_in_range.
  - reflexivity.
Qed.

Lemma normalizeQuestion_ok (topics : list string) (idx : nat) (q : JSON) (rq : RawQuestion) :
  normalizeQuestion topics idx q = Ok rq ->
  canonical rq = true
  /\ id rq = Some (Z.of_nat idx + 1)%Z
  /\ explanation_of q = Ok (explanation rq).
Proof.
  destruct q; simpl; try apply normalizeFields_ok. discriminate.
Qed.

Lemma plain_field_text (q : JSON) (k d : string) :
  plain_field q k = true -> exists s, text_of (property q k) d = Ok s.
Proof.
  unfold plain_field, text_of. destruct (property q k) as [v|]; [|now eexists].
  intros Hp. destruct (plain_converts v Hp) as [s Hs].
  unfold js_String. rewrite Hs. destruct v; now eexists.
Qed.

Lemma tame_normalizes (topics : list string) (idx : nat) (q : JSON) :
  tame q = true -> exists rq, normalizeQuestion topics idx q = Ok rq.
Proof.
  intros Ht.
  assert (Hf : plain_field q "question" && plain_field q "topic"
               && plain_field q "explanation" = true /\ q <> JNull).
  { destruct q; try discriminate; split; try assumption; discriminate. }
  destruct Hf as [Hf Hnn].
  apply andb_true_iff in Hf. destruct Hf as [Hf He].
  apply andb_true_iff in Hf. destruct Hf as [Hq Htopic].
  assert (Hbody : exists rq, normalizeFields topics idx q = Ok rq).
  { unfold normalizeFields.
    assert (Hexp : exists o, explanation_of q = Ok o).
    { unfold explanation_of. unfold plain_field in He.
      destruct (property q "explanation") as [v|]; [|now eexists].
      destruct (truthy v); [|now eexists].
      destruct (plain_converts v He) as [s Hs]. unfold js_String. rewrite Hs.
      now eexists. }
    destruct Hexp as [o Ho].
    destruct (plain_field_text q "question" "Untitled" Hq) as [s1 H1].
    destruct (if is_string (property q "type") "mcq" then mcq
              else if is_string (property q "type") "nat" then nat_ else mcq);
      rewrite H1; simpl;
      match goal with
      | |- context [text_of (property q "topic") ?d] =>
          destruct (plain_field_text q "topic" d Htopic) as [s2 H2]; rewrite H2
      end; simpl; rewrite Ho; simpl; now eexists. }
  destruct q; try exact Hbody. contradiction.
Qed.

(** *** The normalizer on a text *)

Lemma normalize_ok (failure : string) (n : num) (topics : list string)
  (content : string) (qs : list RawQuestion) :
  normalize failure n topics content = Ok qs ->
  exists parsed,
    JSON_parse (jsonStr content) = Some (JArr parsed)
    /\ List.length qs = List.length (slice_to parsed n)
    /\ Forall (fun q => canonical q = true) qs
    /\ map id qs = numbered (List.length qs).
Proof.
  unfold normalize.
  destruct (JSON_parse (jsonStr content)) as [[| | | |parsed|]|]; try discriminate.
  intros H. exists parsed. split; [reflexivity|]. split; [|split].
  - apply (mapi_from_length _ _ _ _ H).
  - revert H. apply mapi_from_Forall. intros j x y Hy.
    now apply normalizeQuestion_ok in Hy.
  - revert H. apply mapi_from_index. intros j x y Hy.
    now apply normalizeQuestion_ok in Hy.
Qed.

Lemma normalize_parse_error (failure : string) (n : num) (topics : list string)
  (content : string) :
  normalize failure n topics content = Throw (Error failure)
  <-> (forall parsed, JSON_parse (jsonStr content) <> Some (JArr parsed)).
Proof.
  unfold normalize. split.
  - intros H parsed Hp. rewrite Hp in H.
    apply mapi_from_throw in H. destruct H as [j [x [_ H]]].
    apply normalizeQuestion_throws in H. destruct H as [m H]. discriminate.
  - intros H.
    destruct (JSON_parse (jsonStr content)) as [[| | | |parsed|]|]; try reflexivity.
    now destruct (H parsed).
Qed.

Lemma normalize_throws (failure : string) (n : num) (topics : list string)
  (content : string) (e : Exn) :
  normalize failure n topics content = Throw e ->
  e = Error failure \/ exists m, e = TypeError m.
Proof.
  unfold normalize.
  destruct (JSON_parse (jsonStr content)) as [[| | | |parsed|]|];
    try (intros H; injection H as <-; now left).
  intros H. right. apply mapi_from_throw in H. destruct H as [j [x [_ H]]].
  now apply normalizeQuestion_throws in H.
Qed.

Lemma normalize_tame (failure : string) (n : num) (topics : list string)
  (content : string) (parsed : list JSON) :
  JSON_parse (jsonStr content) = Some (JArr parsed) ->
  forallb tame (slice_to parsed n) = true ->
  exists qs, normalize failure n topics content = Ok qs.
Proof.
  intros Hp Ht. unfold normalize. rewrite Hp.
  apply mapi_from_total. intros j x Hx.
  apply tame_normalizes. rewrite forallb_forall in Ht. now apply Ht.
Qed.

(** *** The local generator never throws *)

Lemma baseMCQs_canonical :
  Forall (fun t => List.length (mcq_options t) = 4
                   /\ le (of_Z 0) (mcq_ans t) && le (mcq_ans t) (of_Z 3) = true)
    baseMCQs.
Proof. repeat constructor. Qed.

Lemma localQuestion_ok (topicsList : list string) (withExplanations : bool) (i : nat) :
  exists q,
    localQuestion topicsList withExplanations i = Ok q
    /\ canonical q = true
    /\ id q = Some (Z.of_nat i + 1)%Z
    /\ (withExplanations = false -> explanation q = None).
Proof.
  unfold localQuestion. destruct (i mod 2 =? 0).
  - destruct (nth_error baseMCQs ((i / 2) mod List.length baseMCQs)) as [pick|] eqn:E.
    + eexists. split; [reflexivity|].
      apply nth_error_In in E.
      destruct (proj1 (Forall_forall _ _) baseMCQs_canonical pick E) as [Hlen Hans].
      unfold canonical. cbn [type options answer id explanation].
      rewrite length_map, Hlen. cbn [Nat.eqb andb]. rewrite Hans.
      repeat split. now intros ->.
    + apply nth_error_None in E.
      assert (H := Nat.mod_upper_bound (i / 2) (List.length baseMCQs)).
      simpl in *. lia.
  - destruct (nth_error baseNATs ((i / 2) mod List.length baseNATs)) as [pick|] eqn:E.
    + eexists. split; [reflexivity|]. repeat split. now intros ->.
    + apply nth_error_None in E.
      assert (H := Nat.mod_upper_bound (i / 2) (List.length baseNATs)).
      simpl in *. lia.
Qed.

Lemma buildLocalQuestions_ok (n : num) (topicsList : list string)
  (withExplanations : bool) :
  exists qs,
    buildLocalQuestions n topicsList withExplanations = Ok qs
    /\ List.length qs = turns (Math_max (of_Z 5) (Math_min (of_Z 65) n))
    /\ Forall (fun q => canonical q = true) qs
    /\ map id qs = numbered (List.length qs)
    /\ (withExplanations = false -> Forall (fun q => explanation q = None) qs).
Proof.
  unfold buildLocalQuestions.
  destruct (mapi_from_total
              (fun i (_ : nat) => localQuestion topicsList withExplanations i) 0
              (seq 0 (turns (Math_max (of_Z 5) (Math_min (of_Z 65) n))))) as [qs Hqs].
  { intros j x _. destruct (localQuestion_ok topicsList withExplanations j) as [q [Hq _]].
    now exists q. }
  exists qs. split; [assumption|]. split; [|split; [|split]].
  - now rewrite (mapi_from_length _ _ _ _ Hqs), length_seq.
  - revert Hqs. apply mapi_from_Forall. intros j x y Hy.
    destruct (localQuestion_ok topicsList withExplanations j) as [q [Hq [Hc _]]].
    congruence.
  - revert Hqs. apply mapi_from_index. intros j x y Hy.
    destruct (localQuestion_ok topicsList withExplanations j) as [q [Hq [_ [Hi _]]]].
    congruence.
  - intros Hw. revert Hqs. apply mapi_from_Forall. intros j x y Hy.
    destruct (localQuestion_ok topicsList withExplanations j) as [q [Hq [_ [_ He]]]].
    rewrite Hq in Hy. injection Hy as <-. now apply He.
Qed.

Lemma baseMCQs_whole :
  Forall (fun t => List.length (mcq_options t) = 4
                   /\ existsb (fun i => strict_eq (mcq_ans t) (of_Z i))
                        [0; 1; 2; 3]%Z = true)
    baseMCQs.
Proof. repeat constructor. Qed.

Lemma localQuestion_whole (topicsList : list string) (withExplanations : bool)
  (i : nat) (q : RawQuestion) :
  localQuestion topicsList withExplanations i = Ok q -> whole_index q = true.
Proof.
  unfold localQuestion. destruct (i mod 2 =? 0).
  - destruct (nth_error baseMCQs ((i / 2) mod List.length baseMCQs)) as [pick|] eqn:E;
      [|discriminate].
    intros H. injection H as <-. apply nth_error_In in E.
    destruct (proj1 (Forall_forall _ _) baseMCQs_whole pick E) as [Hlen Hans].
    unfold whole_index. cbn [type options answer].
    rewrite length_map, Hlen, Hans. cbn [Nat.eqb andb]. rewrite andb_true_r.
    clear. induction (mcq_options pick) as [|o os IH]; [reflexivity | exact IH].
  - destruct (nth_error baseNATs ((i / 2) mod List.length baseNATs)) as [pick|];
      [|discriminate].
    intros H. now injection H as <-.
Qed.

Lemma buildLocalQuestions_whole (n : num) (topicsList : list string)
  (withExplanations : bool) (qs : list RawQuestion) :
  buildLocalQuestions n topicsList withExplanations = Ok qs ->
  Forall (fun q => whole_index q = true) qs.
Proof.
  unfold buildLocalQuestions. apply mapi_from_Forall. intros j x y.
  apply localQuestion_whole.
Qed.

(** The bound of the loop is NaN or at most 65: the loop ends. *)
Lemma local_total_bounded (n : num) :
  Math_max (of_Z 5) (Math_min (of_Z 65) n) = NaN
  \/ exists q, Math_max (of_Z 5) (Math_min (of_Z 65) n) = Fin q /\ Qle q (inject_Z 65).
Proof.
  destruct n as [| | |q].
  - now left.
  - right. exists (inject_Z 65). split; [reflexivity | apply Qle_refl].
  - right. exists (inject_Z 5). split; [reflexivity | discriminate].
  - right. unfold Math_max, Math_min, of_Z, lt.
    destruct (Qle_bool (inject_Z 65) q) eqn:E65; cbn [negb].
    + exists (inject_Z 65). split; [reflexivity | apply Qle_refl].
    + destruct (Qle_bool q (inject_Z 5)) eqn:E5; cbn [negb].
      * exists (inject_Z 5). split; [reflexivity | discriminate].
      * exists q. split; [reflexivity|].
        apply Qlt_le_weak, Qnot_le_lt. intros H.
        apply Qle_bool_iff in H. congruence.
Qed.

(** *** Integer counts *)

(** The clamp of an integer count. *)
Definition clamp (z : Z) : Z := Z.min (Z.max z 5) 65.

(** The count requested is the integer [z]. *)
Definition integer_count (args : Args) (z : Z) : Prop :=
  match requested args with
  | Fin q => Qeq q (inject_Z z)
  | _ => False
  end.

Lemma Qle_bool_Z (q : Q) (z c : Z) :
  Qeq q (inject_Z z) -> Qle_bool (inject_Z c) q = (c <=? z)%Z.
Proof.
  intros E. apply eq_true_iff_eq. rewrite Qle_bool_iff, Z.leb_le, E.
  rewrite Zle_Qle. reflexivity.
Qed.

Lemma Qle_bool_Z' (q : Q) (z c : Z) :
  Qeq q (inject_Z z) -> Qle_bool q (inject_Z c) = (z <=? c)%Z.
Proof.
  intros E. apply eq_true_iff_eq. rewrite Qle_bool_iff, Z.leb_le, E.
  rewrite Zle_Qle. reflexivity.
Qed.

Lemma clamped_integer (args : Args) (z : Z) :
  integer_count args z ->
  exists q, clamped args = Fin q /\ Qeq q (inject_Z (clamp z)).
Proof.
  unfold integer_count, clamped, clamp.
  destruct (requested args) as [| | |q]; try contradiction.
  intros E. unfold Math_max, Math_min, of_Z, lt.
  rewrite (Qle_bool_Z q z 5 E).
  destruct (5 <=? z)%Z eqn:E5; cbn [negb].
  - rewrite (Qle_bool_Z' q z 65 E).
    destruct (z <=? 65)%Z eqn:E65; cbn [negb].
    + exists q. split; [reflexivity|]. rewrite E.
      apply Z.leb_le in E5, E65. now rewrite Z.max_l, Z.min_l by lia.
    + exists (inject_Z 65). split; [reflexivity|].
      apply Z.leb_le in E5. apply Z.leb_gt in E65.
      now rewrite Z.max_l, Z.min_r by lia.
  - exists (inject_Z 5). split; [reflexivity|].
    apply Z.leb_gt in E5. now rewrite Z.max_r, Z.min_l by lia.
Qed.

Lemma turns_integer (q : Q) (c : Z) :
  Qeq q (inject_Z c) -> turns (Fin q) = Z.to_nat c.
Proof. intros E. unfold turns. now rewrite (Qceiling_comp _ _ E), Qceiling_Z. Qed.

Lemma slice_to_integer {A : Type} (xs : list A) (q : Q) (c : Z) :
  Qeq q (inject_Z c) -> (0 <= c)%Z -> slice_to xs (Fin q) = firstn (Z.to_nat c) xs.
Proof.
  intros E Hc. unfold slice_to, truncate.
  rewrite (Qfloor_comp _ _ E), (Qceiling_comp _ _ E), Qfloor_Z, Qceiling_Z.
  destruct (Qle_bool 0 q); apply Z.ltb_ge in Hc; now rewrite Hc.
Qed.

Lemma local_total_integer (q : Q) (c : Z) :
  Qeq q (inject_Z c) -> (5 <= c <= 65)%Z ->
  turns (Math_max (of_Z 5) (Math_min (of_Z 65) (Fin q))) = Z.to_nat c.
Proof.
  intros E Hc. unfold Math_max, Math_min, of_Z, lt.
  rewrite (Qle_bool_Z q c 65 E).
  destruct (65 <=? c)%Z eqn:E65; cbn [negb].
  - apply Z.leb_le in E65. assert (c = 65%Z) by lia. subst c. reflexivity.
  - rewrite (Qle_bool_Z' q c 5 E).
    destruct (c <=? 5)%Z eqn:E5; cbn [negb].
    + apply Z.leb_le in E5. assert (c = 5%Z) by lia. subst c. reflexivity.
    + now apply turns_integer.
Qed.

(** *** The cascade the selection amounts to *)

(** The request to one candidate. *)
Definition try_one (provider : nat -> Reply) (n : num) (topics : list string)
  (c : Candidate) : Action (list RawQuestion) :=
  match c with
  | Anthropic => tryAnthropic provider n topics
  | OpenRouter model => tryOnceOpenRouter provider n topics model
  end.

(** What the request to [c] makes of the reply [r]. *)
Definition outcome_of (n : num) (topics : list string) (c : Candidate) (r : Reply)
  : Result (list RawQuestion) :=
  fst (try_one (fun _ => r) n topics c []).

(** The candidates in priority order, each once. *)
Definition priority (anthropicKey openrouterKey : string) : list Candidate :=
  (if nonempty anthropicKey then [Anthropic] else [])
  ++ (if nonempty openrouterKey then map OpenRouter models else []).

(** The last attempt, on the first OpenRouter model again. *)
Definition last_retry (openrouterKey : string) : list Candidate :=
  if nonempty openrouterKey then [OpenRouter "anthropic/claude-3-haiku"] else [].

(** The requests of a run in which every request fails. *)
Definition plan (anthropicKey openrouterKey : string) : list Candidate :=
  priority anthropicKey openrouterKey ++ last_retry openrouterKey.

(** Try the candidates in order until one returns, then [after]. *)
Fixpoint chain (provider : nat -> Reply) (n : num) (topics : list string)
  (cands : list Candidate) (after : Action (list RawQuestion))
  : Action (list RawQuestion) :=
  match cands with
  | [] => after
  | c :: rest =>
      try_catch (try_one provider n topics c)
        (fun _ => chain provider n topics rest after)
  end.

(** In a run from no calls, the first [k] requests of [cands] fail. *)
Definition failed_before (provider : nat -> Reply) (n : num) (topics : list string)
  (cands : list Candidate) (k : nat) : Prop :=
  forall j c, j < k -> nth_error cands j = Some c ->
              is_Ok (outcome_of n topics c (provider j)) = false.

Section Cascade.

Variable provider : nat -> Reply.
Variable n : num.
Variable topics : list string.

Lemma try_one_run (c : Candidate) (calls : list Candidate) :
  try_one provider n topics c calls
  = (outcome_of n topics c (provider (List.length calls)), calls ++ [c]).
Proof.
  unfold outcome_of, try_one, tryAnthropic, tryOnceOpenRouter.
  destruct c; simpl; now destruct (provider (List.length calls)).
Qed.

Lemma try_catch_ext {A : Type} (m : Action A) (h1 h2 : Exn -> Action A)
  (calls : list Candidate) :
  (forall e c, h1 e c = h2 e c) -> try_catch m h1 calls = try_catch m h2 calls.
Proof.
  intros H. unfold try_catch. destruct (m calls) as [[a|e] c]; [reflexivity | apply H].
Qed.

Lemma try_catch_left {A : Type} (m1 m2 : Action A) (h : Exn -> Action A)
  (calls : list Candidate) :
  (forall c, m1 c = m2 c) -> try_catch m1 h calls = try_catch m2 h calls.
Proof. intros H. unfold try_catch. now rewrite H. Qed.

Lemma try_catch_assoc {A : Type} (m k h : Action A) (calls : list Candidate) :
  try_catch (try_catch m (fun _ => k)) (fun _ => h) calls
  = try_catch m (fun _ => try_catch k (fun _ => h)) calls.
Proof.
  unfold try_catch. now destruct (m calls) as [[a|e] c].
Qed.

Lemma try_models_chain (ms : list string) (after : Action (list RawQuestion))
  (calls : list Candidate) :
  try_models provider n topics ms after calls
  = chain provider n topics (map OpenRouter ms) after calls.
Proof.
  revert calls. induction ms as [|m ms IH]; intros calls; simpl; [reflexivity|].
  apply try_catch_ext. intros _ c. apply IH.
Qed.

Lemma chain_app (l1 l2 : list Candidate) (after : Action (list RawQuestion))
  (calls : list Candidate) :
  chain provider n topics (l1 ++ l2) after calls
  = chain provider n topics l1 (chain provider n topics l2 after) calls.
Proof.
  revert calls. induction l1 as [|c l1 IH]; intros calls; simpl; [reflexivity|].
  apply try_catch_ext. intros _ c'. apply IH.
Qed.

Lemma try_catch_chain (l : list Candidate) (after h : Action (list RawQuestion))
  (calls : list Candidate) :
  try_catch (chain provider n topics l after) (fun _ => h) calls
  = chain provider n topics l (try_catch after (fun _ => h)) calls.
Proof.
  revert calls. induction l as [|c l IH]; intros calls; simpl; [reflexivity|].
  rewrite try_catch_assoc. apply try_catch_ext. intros _ c'. apply IH.
Qed.

Lemma select_chain (anthropicKey openrouterKey : string) (withExplanations : bool)
  (calls : list Candidate) :
  select provider n topics anthropicKey openrouterKey withExplanations calls
  = chain provider n topics (plan anthropicKey openrouterKey)
      (lift (buildLocalQuestions n topics withExplanations)) calls.
Proof.
  unfold select, plan, priority, last_retry.
  destruct (nonempty anthropicKey), (nonempty openrouterKey);
    cbn [app chain try_one]; try reflexivity.
  apply try_catch_ext. intros _ c.
    rewrite (try_catch_left _ (chain provider n topics (map OpenRouter models)
                                 (retry_first_model provider n topics)))
      by (intros; apply try_models_chain).
    rewrite try_catch_chain, chain_app. reflexivity.
Qed.

(** Where a cascade stops: at the first request that returns, with what it
    returned, or after the last one, with the fallback. *)
Lemma chain_outcome (cands : list Candidate) (fallback : Result (list RawQuestion))
  (calls : list Candidate) :
  (exists k c,
      nth_error cands k = Some c
      /\ snd (chain provider n topics cands (lift fallback) calls)
         = calls ++ firstn (S k) cands
      /\ (forall j cj, j < k -> nth_error cands j = Some cj ->
            is_Ok (outcome_of n topics cj (provider (List.length calls + j))) = false)
      /\ fst (chain provider n topics cands (lift fallback) calls)
         = outcome_of n topics c (provider (List.length calls + k))
      /\ is_Ok (fst (chain provider n topics cands (lift fallback) calls)) = true)
  \/ (snd (chain provider n topics cands (lift fallback) calls) = calls ++ cands
      /\ (forall j cj, nth_error cands j = Some cj ->
            is_Ok (outcome_of n topics cj (provider (List.length calls + j))) = false)
      /\ fst (chain provider n topics cands (lift fallback) calls) = fallback).
Proof.
  revert calls. induction cands as [|c rest IH]; intros calls.
  - right. simpl. rewrite app_nil_r. repeat split.
    intros j cj H. now destruct j.
  - cbn [chain]. unfold try_catch. rewrite try_one_run.
    destruct (outcome_of n topics c (provider (List.length calls))) as [qs|e] eqn:E.
    + left. exists 0, c. cbn [fst snd nth_error firstn].
      rewrite Nat.add_0_r, E. repeat split. intros j cj Hj. lia.
    + destruct (IH (calls ++ [c])) as [[k [c' [Hk [Hcalls [Hfail [Hres Hok]]]]]]|[Hcalls [Hfail Hres]]].
      * left. exists (S k), c'. rewrite length_app in *. cbn [List.length] in *.
        split; [exact Hk|]. split; [rewrite Hcalls; now rewrite <- app_assoc|].
        split; [|split].
        -- intros [|j] cj Hj Hn.
           ++ injection Hn as <-. now rewrite Nat.add_0_r, E.
           ++ replace (List.length calls + S j) with (List.length calls + 1 + j) by lia.
              apply Hfail; [lia | exact Hn].
        -- rewrite Hres. f_equal. f_equal. lia.
        -- exact Hok.
      * right. rewrite length_app in *. cbn [List.length] in *.
        split; [rewrite Hcalls; now rewrite <- app_assoc|]. split; [|exact Hres].
        intros [|j] cj Hn.
        -- injection Hn as <-. now rewrite Nat.add_0_r, E.
        -- replace (List.length calls + S j) with (List.length calls + 1 + j) by lia.
           now apply Hfail.
Qed.

End Cascade.

Lemma priority_NoDup (anthropicKey openrouterKey : string) :
  NoDup (priority anthropicKey openrouterKey).
Proof.
  unfold priority. destruct (nonempty anthropicKey), (nonempty openrouterKey);
    simpl; repeat constructor; simpl; intuition discriminate.
Qed.

(** *** The span the regular expression matches *)

(** Whether the character of code [c] occurs in [s]. *)
Fixpoint has (c : nat) (s : string) : bool :=
  match s with
  | EmptyString => false
  | String a rest => (code a =? c) || has c rest
  end.

Lemma code_char (a : ascii) (c : nat) : code a = c -> a = ascii_of_nat c.
Proof. intros <-. unfold code. now rewrite ascii_nat_embedding. Qed.

Lemma from_first_open_span (s s' : string) :
  from_first_open s = Some s' ->
  exists pre rest,
    s = (pre ++ "[" ++ rest)%string /\ s' = ("[" ++ rest)%string /\ has 91 pre = false.
Proof.
  induction s as [|a s IH]; simpl; [discriminate|].
  destruct (code a =? 91) eqn:E.
  - intros H. injection H as <-. apply Nat.eqb_eq, code_char in E. subst a.
    exists EmptyString, s. repeat split.
  - intros H. destruct (IH H) as [pre [rest [-> [-> Hpre]]]].
    exists (String a pre), rest. simpl. rewrite E. repeat split. exact Hpre.
Qed.

Lemma from_first_open_none (s : string) :
  from_first_open s = None -> has 91 s = false.
Proof.
  induction s as [|a s IH]; simpl; [reflexivity|].
  destruct (code a =? 91); [discriminate | exact IH].
Qed.

Lemma upto_last_close_span (s m : string) :
  upto_last_close s = Some m ->
  exists body post,
    s = (m ++ post)%string /\ m = (body ++ "]")%string /\ has 93 post = false.
Proof.
  revert m. induction s as [|a s IH]; intros m; simpl; [discriminate|].
  destruct (upto_last_close s) as [kept|] eqn:E.
  - intros H. injection H as <-.
    destruct (IH kept eq_refl) as [body [post [-> [-> Hpost]]]].
    exists (String a body), post. repeat split. exact Hpost.
  - destruct (code a =? 93) eqn:Ea; [|discriminate].
    intros H. injection H as <-. apply Nat.eqb_eq, code_char in Ea. subst a.
    exists EmptyString, s. repeat split.
    clear IH. induction s as [|b s IHs]; [reflexivity|].
    simpl in E. destruct (upto_last_close s); [discriminate|].
    destruct (code b =? 93) eqn:Eb; [discriminate|].
    simpl. rewrite Eb. now apply IHs.
Qed.

Lemma upto_last_close_none (s : string) :
  upto_last_close s = None -> has 93 s = false.
Proof.
  induction s as [|a s IH]; simpl; [reflexivity|].
  destruct (upto_last_close s); [discriminate|].
  destruct (code a =? 93); [discriminate | now intros _; apply IH].
Qed.

(** A match runs from the first opening bracket of the text to the last
    closing bracket after it. *)
Lemma regex_match_span (content m : string) :
  regex_match content = Some m ->
  exists pre body post,
    content = (pre ++ m ++ post)%string
    /\ m = ("[" ++ body ++ "]")%string
    /\ has 91 pre = false
    /\ has 93 post = false.
Proof.
  unfold regex_match. destruct (from_first_open content) as [s'|] eqn:E; [|discriminate].
  intros H. destruct (from_first_open_span _ _ E) as [pre [rest [-> [-> Hpre]]]].
  simpl in H. destruct (upto_last_close rest) as [kept|] eqn:Ek; [|discriminate].
  injection H as <-.
  destruct (upto_last_close_span _ _ Ek) as [body [post [-> [-> Hpost]]]].
  exists pre, body, post. repeat split; assumption.
Qed.

(** There is no match when no closing bracket follows the first opening
    bracket. *)
Lemma regex_match_none (content : string) :
  regex_match content = None ->
  has 91 content = false
  \/ exists pre rest,
       content = (pre ++ "[" ++ rest)%string /\ has 91 pre = false /\ has 93 rest = false.
Proof.
  unfold regex_match. destruct (from_first_open content) as [s'|] eqn:E.
  - intros H. right. destruct (from_first_open_span _ _ E) as [pre [rest [-> [-> Hpre]]]].
    exists pre, rest. repeat split; [assumption|].
    simpl in H. destruct (upto_last_close rest) eqn:Ek; [discriminate|].
    now apply upto_last_close_none.
  - intros _. left. now apply from_first_open_none.
Qed.

(** *** A run of the handler *)

Lemma outcome_ok (n : num) (topics : list string) (c : Candidate) (r : Reply)
  (qs : list RawQuestion) :
  outcome_of n topics c r = Ok qs ->
  exists content failure,
    r = Content content /\ normalize failure n topics content = Ok qs.
Proof.
  unfold outcome_of, try_one, tryAnthropic, tryOnceOpenRouter.
  destruct c, r; simpl; try discriminate; intros H; eauto.
Qed.

(** Whether a text normalizes does not depend on the message of the parse
    error. *)
Lemma normalize_message (f1 f2 : string) (n : num) (topics : list string)
  (content : string) (qs : list RawQuestion) :
  normalize f1 n topics content = Ok qs -> normalize f2 n topics content = Ok qs.
Proof.
  unfold normalize.
  now destruct (JSON_parse (jsonStr content)) as [[| | | |parsed|]|].
Qed.

(** A request returns exactly when its reply is a text that normalizes. *)
Lemma outcome_returns (n : num) (topics : list string) (c : Candidate) (r : Reply) :
  is_Ok (outcome_of n topics c r) = true
  <-> exists content qs,
        r = Content content
        /\ forall failure, normalize failure n topics content = Ok qs.
Proof.
  split.
  - destruct (outcome_of n topics c r) as [qs|e] eqn:E; [|discriminate].
    intros _. apply outcome_ok in E. destruct E as [content [failure [Hr Hn]]].
    exists content, qs. split; [assumption|].
    intros failure'. now apply (normalize_message failure).
  - intros [content [qs [-> Hn]]].
    unfold outcome_of, try_one, tryAnthropic, tryOnceOpenRouter.
    destruct c; simpl; now rewrite Hn.
Qed.

(** A run from no calls stops at the first request of the plan that
    returns, or goes through the plan and returns the local questions. *)
Lemma generateExam_outcome (provider : nat -> Reply) (env : ProcessEnv) (args : Args) :
  (exists k c,
      nth_error (plan (anthropicKey env) (openrouterKey env)) k = Some c
      /\ snd (generateExam provider env args [])
         = firstn (S k) (plan (anthropicKey env) (openrouterKey env))
      /\ failed_before provider (clamped args) (topics_of args)
           (plan (anthropicKey env) (openrouterKey env)) k
      /\ fst (generateExam provider env args [])
         = outcome_of (clamped args) (topics_of args) c (provider k)
      /\ is_Ok (fst (generateExam provider env args [])) = true)
  \/ (snd (generateExam provider env args [])
      = plan (anthropicKey env) (openrouterKey env)
      /\ failed_before provider (clamped args) (topics_of args)
           (plan (anthropicKey env) (openrouterKey env))
           (List.length (plan (anthropicKey env) (openrouterKey env)))
      /\ fst (generateExam provider env args [])
         = buildLocalQuestions (clamped args) (topics_of args)
             (nullish (includeExplanations args) true)).
Proof.
  unfold generateExam. rewrite select_chain.
  destruct (chain_outcome provider (clamped args) (topics_of args)
              (plan (anthropicKey env) (openrouterKey env))
              (buildLocalQuestions (clamped args) (topics_of args)
                 (nullish (includeExplanations args) true)) [])
    as [[k [c [Hk [Hcalls [Hfail [Hres Hok]]]]]]|[Hcalls [Hfail Hres]]].
  - left. exists k, c. repeat split; assumption.
  - right. repeat split; try assumption.
    intros j cj _ Hn. now apply (Hfail j cj).
Qed.

(* ===================================================================== *)
(** ** Properties of the exam generation *)
(* ===================================================================== *)

(** C2: whatever the providers reply (a rejected request, a status that is
    not 2xx, a text that does not parse, an element that makes the
    normalizer throw), [generateExam] returns questions and throws nothing:
    the questions are the normalization of one provider's text, or the
    local generator's. The local generator returns questions for every
    count, every list of topics and every flag: its loop runs to a bound
    that is NaN or at most 65, and no turn throws. *)
Theorem generateExam_never_throws (provider : nat -> Reply) (env : ProcessEnv)
  (args : Args) :
  (exists qs,
      fst (generateExam provider env args []) = Ok qs
      /\ ((exists k content failure,
              provider k = Content content
              /\ normalize failure (clamped args) (topics_of args) content = Ok qs)
          \/ buildLocalQuestions (clamped args) (topics_of args)
               (nullish (includeExplanations args) true) = Ok qs))
  /\ (forall (n : num) (topicsList : list string) (withExplanations : bool),
        (exists qs, buildLocalQuestions n topicsList withExplanations = Ok qs)
        /\ (Math_max (of_Z 5) (Math_min (of_Z 65) n) = NaN
            \/ exists q, Math_max (of_Z 5) (Math_min (of_Z 65) n) = Fin q
                         /\ Qle q (inject_Z 65))).
Proof.
  split.
  - destruct (generateExam_outcome provider env args)
      as [[k [c [_ [_ [_ [Hres Hok]]]]]]|[_ [_ Hres]]].
    + destruct (fst (generateExam provider env args [])) as [qs|e]; [|discriminate].
      exists qs. split; [reflexivity|]. left.
      symmetry in Hres. apply outcome_ok in Hres.
      destruct Hres as [content [failure [Hr Hn]]]. now exists k, content, failure.
    + destruct (buildLocalQuestions_ok (clamped args) (topics_of args)
                  (nullish (includeExplanations args) true)) as [qs [Hqs _]].
      exists qs. split; [congruence | now right].
  - intros n topicsList withExplanations. split; [|apply local_total_bounded].
    destruct (buildLocalQuestions_ok n topicsList withExplanations) as [qs [Hqs _]].
    now exists qs.
Qed.

(** C1, as the code has it: for every integer count n (n = 10 when
    absent) [generateExam] returns at most clamp(n, 5, 65) questions, each
    with the invariants of a canonical question as the code keeps them: an
    array of four options and a number from 0 to 3 as answer on multiple
    choice, no options on a numeric answer. When every request of the plan
    fails or no key is configured, the questions are those of the local
    generator: their count is exactly the clamp, their options are texts
    and their answers whole indices. When the request number k of the plan
    is the first to succeed, the questions are made from the array of its
    reply: their count is the smaller of the clamp and the number of
    elements of the array, the options are what the reply holds and the
    answer need not be whole. *)
Theorem generateExam_count (provider : nat -> Reply) (env : ProcessEnv) (args : Args)
  (z : Z) :
  integer_count args z ->
  exists qs,
    fst (generateExam provider env args []) = Ok qs
    /\ (Z.of_nat (List.length qs) <= clamp z)%Z
    /\ clamp z = Z.min (Z.max z 5) 65
    /\ (numQuestions args = None -> z = 10%Z)
    /\ Forall (fun q => canonical q = true) qs
    /\ ((snd (generateExam provider env args [])
          = plan (anthropicKey env) (openrouterKey env)
         /\ failed_before provider (clamped args) (topics_of args)
              (plan (anthropicKey env) (openrouterKey env))
              (List.length (plan (anthropicKey env) (openrouterKey env)))
         /\ buildLocalQuestions (clamped args) (topics_of args)
              (nullish (includeExplanations args) true) = Ok qs
         /\ Z.of_nat (List.length qs) = clamp z
         /\ Forall (fun q => whole_index q = true) qs)
        \/ (exists k c content parsed,
              nth_error (plan (anthropicKey env) (openrouterKey env)) k = Some c
              /\ snd (generateExam provider env args [])
                 = firstn (S k) (plan (anthropicKey env) (openrouterKey env))
              /\ failed_before provider (clamped args) (topics_of args)
                   (plan (anthropicKey env) (openrouterKey env)) k
              /\ provider k = Content content
              /\ JSON_parse (jsonStr content) = Some (JArr parsed)
              /\ List.length qs
                 = Nat.min (Z.to_nat (clamp z)) (List.length parsed))).
Proof.
  intros Hz.
  assert (Habsent : numQuestions args = None -> z = 10%Z).
  { intros Hn. unfold integer_count, requested in Hz. rewrite Hn in Hz. simpl in Hz.
    symmetry. now apply inject_Z_injective. }
  destruct (clamped_integer args z Hz) as [q [Hq Eq]].
  assert (Hrange : (5 <= clamp z <= 65)%Z) by (unfold clamp; lia).
  destruct (generateExam_outcome provider env args)
    as [[k [c [Hk [Hcalls [Hbefore [Hres Hok]]]]]]|[Hcalls [Hfail Hres]]].
  - destruct (fst (generateExam provider env args [])) as [qs|e]; [|discriminate].
    exists qs. split; [reflexivity|].
    symmetry in Hres. apply outcome_ok in Hres.
    destruct Hres as [content [failure [Hr Hn]]].
    apply normalize_ok in Hn. destruct Hn as [parsed [Hp [Hlen [Hcan _]]]].
    rewrite Hq, (slice_to_integer parsed q (clamp z) Eq) in Hlen by lia.
    rewrite length_firstn in Hlen.
    split; [lia|]. split; [reflexivity|]. split; [assumption|]. split; [assumption|].
    right. exists k, c, content, parsed. repeat split; assumption.
  - destruct (buildLocalQuestions_ok (clamped args) (topics_of args)
                (nullish (includeExplanations args) true))
      as [qs [Hqs [Hlen [Hcan _]]]].
    pose proof (buildLocalQuestions_whole _ _ _ _ Hqs) as Hwhole.
    rewrite Hq, (local_total_integer q (clamp z) Eq Hrange) in Hlen.
    exists qs. split; [congruence|].
    split; [lia|]. split; [reflexivity|]. split; [assumption|]. split; [assumption|].
    left. split; [assumption|]. split; [assumption|]. split; [assumption|].
    split; [lia | assumption].
Qed.

(** C3, as the code has it: the requests of a run follow a fixed plan: the
    candidates in priority order, each once (Anthropic when its key is set,
    then the three OpenRouter models when that key is set), followed, when
    the OpenRouter key is set, by one more request to the first OpenRouter
    model. A request that throws, or whose text does not normalize, is
    followed by the next request of the plan. The run stops at the first
    request that returns and returns what that request returned, all of it
    and nothing else, be it an empty list; when every request of the plan
    has failed it returns the questions of the local generator. *)
Theorem fallback_order (provider : nat -> Reply) (env : ProcessEnv) (args : Args) :
  plan (anthropicKey env) (openrouterKey env)
  = priority (anthropicKey env) (openrouterKey env) ++ last_retry (openrouterKey env)
  /\ NoDup (priority (anthropicKey env) (openrouterKey env))
  /\ (forall c r,
        is_Ok (outcome_of (clamped args) (topics_of args) c r) = true
        <-> exists content qs,
              r = Content content
              /\ forall failure,
                   normalize failure (clamped args) (topics_of args) content = Ok qs)
  /\ ((exists k c,
          nth_error (plan (anthropicKey env) (openrouterKey env)) k = Some c
          /\ snd (generateExam provider env args [])
             = firstn (S k) (plan (anthropicKey env) (openrouterKey env))
          /\ failed_before provider (clamped args) (topics_of args)
               (plan (anthropicKey env) (openrouterKey env)) k
          /\ fst (generateExam provider env args [])
             = outcome_of (clamped args) (topics_of args) c (provider k)
          /\ is_Ok (fst (generateExam provider env args [])) = true)
      \/ (snd (generateExam provider env args [])
          = plan (anthropicKey env) (openrouterKey env)
          /\ failed_before provider (clamped args) (topics_of args)
               (plan (anthropicKey env) (openrouterKey env))
               (List.length (plan (anthropicKey env) (openrouterKey env)))
          /\ fst (generateExam provider env args [])
             = buildLocalQuestions (clamped args) (topics_of args)
                 (nullish (includeExplanations args) true))).
Proof.
  split; [reflexivity|]. split; [apply priority_NoDup|].
  split; [intros c r; apply outcome_returns|].
  apply generateExam_outcome.
Qed.

(** C6, as the code has it: the normalizer parses the span from the first
    opening bracket of the text to the last closing bracket after it, or
    the whole text when there is no such span. It throws the parse error
    exactly when that text does not parse as a JSON array. When it parses,
    the normalizer returns for every array whose elements, up to the count,
    are not null and have text fields that convert, whatever their type,
    marks, options and answer; any other exception is a TypeError of an
    element. The questions returned are numbered 1, 2, ... in order. *)
Theorem normalizer_errors (failure : string) (n : num) (topics : list string)
  (content : string) :
  (normalize failure n topics content = Throw (Error failure)
   <-> forall parsed, JSON_parse (jsonStr content) <> Some (JArr parsed))
  /\ (forall m, regex_match content = Some m ->
        jsonStr content = m
        /\ exists pre body post,
             content = (pre ++ m ++ post)%string
             /\ m = ("[" ++ body ++ "]")%string
             /\ has 91 pre = false
             /\ has 93 post = false)
  /\ (regex_match content = None ->
        jsonStr content = content
        /\ (has 91 content = false
            \/ exists pre rest,
                 content = (pre ++ "[" ++ rest)%string
                 /\ has 91 pre = false /\ has 93 rest = false))
  /\ (forall parsed,
        JSON_parse (jsonStr content) = Some (JArr parsed) ->
        forallb tame (slice_to parsed n) = true ->
        exists qs, normalize failure n topics content = Ok qs)
  /\ (forall e, normalize failure n topics content = Throw e ->
        e = Error failure \/ exists m, e = TypeError m)
  /\ (forall qs, normalize failure n topics content = Ok qs ->
        map id qs = numbered (List.length qs)).
Proof.
  split; [apply normalize_parse_error|].
  split.
  { intros m Hm. split; [unfold jsonStr; now rewrite Hm | now apply regex_match_span]. }
  split.
  { intros Hm. split; [unfold jsonStr; now rewrite Hm | now apply regex_match_none]. }
  split; [apply normalize_tame|].
  split; [apply normalize_throws|].
  intros qs Hqs. apply normalize_ok in Hqs. now destruct Hqs as [parsed [_ [_ [_ H]]]].
Qed.

End Host.

(** *** Runs of the handler *)

Definition no_env : ProcessEnv :=
  {| OPENROUTER_API_KEY := None; VITE_OPENROUTER_API_KEY := None;
     OPENAI_API_KEY := None; ANTHROPIC_API_KEY := None;
     VITE_ANTHROPIC_API_KEY := None |}.

Definition only_openrouter : ProcessEnv :=
  {| OPENROUTER_API_KEY := Some "sk-or-v1"; VITE_OPENROUTER_API_KEY := None;
     OPENAI_API_KEY := None; ANTHROPIC_API_KEY := None;
     VITE_ANTHROPIC_API_KEY := None |}.

Definition no_args : Args :=
  {| subjectMix := None; numQuestions := None; difficulty := None;
     includeExplanations := None |}.

Definition without_explanations : Args :=
  {| subjectMix := None; numQuestions := None; difficulty := None;
     includeExplanations := Some false |}.

(** With no key the handler issues no request and returns ten local
    questions, numbered from 1. *)
Example local_exam_by_default :
  exists qs,
    generateExam integer_text (fun _ => Rejected "unreachable") no_env no_args []
    = (Ok qs, [])
    /\ List.length qs = 10
    /\ map id qs = numbered 10.
Proof. eexists. vm_compute. repeat split. Qed.

(** A count that is not an integer: 7.5 gives the eight questions of the
    indices below it, NaN gives none. *)
Example local_exam_fractional_count :
  exists qs,
    fst (generateExam integer_text (fun _ => Rejected "unreachable") no_env
           {| subjectMix := None; numQuestions := Some (Fin (Qmake 15 2));
              difficulty := None; includeExplanations := None |} [])
    = Ok qs
    /\ List.length qs = 8.
Proof. eexists. vm_compute. repeat split. Qed.

Example local_exam_NaN_count :
  generateExam integer_text (fun _ => Rejected "unreachable") no_env
    {| subjectMix := None; numQuestions := Some NaN;
       difficulty := None; includeExplanations := None |} []
  = (Ok [], []).
Proof. reflexivity. Qed.

(** *** Witnesses *)

Lemma generateExam_count_witness :
  integer_count no_args 10
  /\ exists qs,
       fst (generateExam integer_text (fun _ => Rejected "fetch failed")
              only_openrouter no_args []) = Ok qs
       /\ (Z.of_nat (List.length qs) <= clamp 10)%Z.
Proof.
  split; [apply Qeq_refl|].
  destruct (generateExam_count integer_text (fun _ => Rejected "fetch failed")
              only_openrouter no_args 10 (Qeq_refl _))
    as [qs [H1 [H2 _]]].
  exists qs. split; assumption.
Defined.

(** *** Where the claims as stated fail *)

(** C1 as stated fails: a provider's array of one element is returned as
    one question, where the clamp of the absent count is 10. *)
Lemma provider_array_shorter_than_count :
  clamped no_args = of_Z 10
  /\ exists q,
       fst (generateExam integer_text
              (fun _ => Content (quoted "[{'type':'nat','question':'2+2?','answer':4}]"))
              only_openrouter no_args [])
       = Ok [q].
Proof. split; [reflexivity|]. eexists. vm_compute. reflexivity. Qed.

(** The index of a provider's question need not be whole, nor its options
    texts: the answer 1.5 passes the two bounds and is returned as it is,
    with the four options of the reply. *)
Example fractional_index_is_kept :
  exists q,
    fst (generateExam integer_text
           (fun _ => Content
              (quoted "[{'type':'mcq','answer':1.5,'options':[1,null,{},[]]}]"))
           only_openrouter no_args [])
    = Ok [q]
    /\ answer q = Some (ANum (Fin (Qmake 3 2)))
    /\ options q = Some [JNum (of_Z 1); JNull; JObj []; JArr []]
    /\ canonical q = true
    /\ whole_index q = false.
Proof. eexists. vm_compute. repeat split. Qed.

(** C3 as stated fails: when every request is rejected the first
    OpenRouter model is requested twice; and an array of zero questions is
    returned as it is, no further candidate being tried. *)
Lemma first_model_requested_twice :
  snd (generateExam integer_text (fun _ => Rejected "fetch failed")
         only_openrouter no_args [])
  = [ OpenRouter "anthropic/claude-3-haiku";
      OpenRouter "mistralai/mixtral-8x7b-instruct";
      OpenRouter "openai/gpt-4o-mini";
      OpenRouter "anthropic/claude-3-haiku" ]
  /\ generateExam integer_text (fun _ => Content "[]") only_openrouter no_args []
     = (Ok [], [OpenRouter "anthropic/claude-3-haiku"]).
Proof. split; vm_compute; reflexivity. Qed.

(** C6 as stated fails: a text that holds a valid JSON array after a
    bracketed word makes the normalizer throw the parse error, the span
    matched running from the first bracket to the last; and the valid
    array of one null element makes it throw a TypeError. *)
Lemma valid_array_in_text_rejected :
  JSON_parse (quoted "[{'type':'nat','answer':4}]")
  = Some (JArr [JObj [("type", JStr "nat"); ("answer", JNum (of_Z 4))]])
  /\ quoted "Two [easy] ones: [{'type':'nat','answer':4}]"
     = ("Two [easy] ones: " ++ quoted "[{'type':'nat','answer':4}]")%string
  /\ jsonStr (quoted "Two [easy] ones: [{'type':'nat','answer':4}]")
     = quoted "[easy] ones: [{'type':'nat','answer':4}]"
  /\ normalize integer_text "Failed to parse Anthropic response." (of_Z 10)
       default_topics
       (quoted "Two [easy] ones: [{'type':'nat','answer':4}]")
     = Throw (Error "Failed to parse Anthropic response.")
  /\ JSON_parse "[null]" = Some (JArr [JNull])
  /\ normalize integer_text "Failed to parse Anthropic response." (of_Z 10)
       default_topics
       "[null]"
     = Throw (TypeError "Cannot read properties of null (reading 'type')").
Proof. repeat split; vm_compute; reflexivity. Qed.

(** C8 on the code: a question returned by the normalizer carries an
    explanation only if its source element has a truthy one, but whether
    explanations were requested plays no part: with explanations not
    requested and one sent by the provider, the question returned carries
    it. The local generator, on the same arguments, attaches none. *)
Theorem explanation_kept_when_not_requested :
  (forall (NumberToString : num -> string) (topics : list string) (idx : nat)
          (q : JSON) (rq : RawQuestion) (s : string),
      normalizeQuestion NumberToString topics idx q = Ok rq ->
      explanation rq = Some s ->
      exists e, property q "explanation" = Some e /\ truthy e = true)
  /\ includeExplanations without_explanations = Some false
  /\ (exists q,
        fst (generateExam integer_text
               (fun _ => Content
                  (quoted "[{'type':'nat','question':'2+2?','answer':4,'explanation':'because'}]"))
               only_openrouter without_explanations [])
        = Ok [q]
        /\ explanation q = Some "because")
  /\ (exists qs,
        fst (generateExam integer_text (fun _ => Rejected "fetch failed")
               only_openrouter without_explanations [])
        = Ok qs
        /\ List.length qs = 10
        /\ forallb (fun q => match explanation q with None => true | Some _ => false end) qs
           = true).
Proof.
  split.
  { intros NumberToString topics idx q rq s Hq Hs.
    apply normalizeQuestion_ok in Hq. destruct Hq as [_ [_ He]].
    rewrite Hs in He. apply explanation_of_source in He.
    destruct He as [e [H1 [H2 _]]]. now exists e. }
  split; [reflexivity|]. split.
  - eexists. vm_compute. split; reflexivity.
  - eexists. vm_compute. repeat split.
Qed.

End Ai.

(* ===================================================================== *)
(** ** The exam module: attempts, scoring, guidance *)
(* ===================================================================== *)

Module Exams.
Import JS.

(** [questionValidator]. *)
Record Question : Type := {
  id : num;
  type : QType;
  question : string;
  options : option (list string);
  answer : option Answer;
  marks : option num;
  topic : option string;
  explanation : option string
}.

Record Guidance : Type := {
  weakTopics : list string;
  suggestions : list string
}.

Definition UserId : Type := nat.

(** [v.record(v.string(), answerValue)]: an object used as a map. A key
    occurs once; a lookup takes its value. *)
Definition Answers : Type := list (string * Answer).

Fixpoint lookup (k : string) (answers : Answers) : option Answer :=
  match answers with
  | [] => None
  | (k', v) :: rest => if String.eqb k k' then Some v else lookup k rest
  end.

(** A document of the table [examAttempts]. *)
Record Attempt : Type := {
  userId : UserId;
  questions : list Question;
  answers : Answers;
  score : nat;
  total : nat;
  durationSec : num;
  guidance : Guidance;
  completed : bool;
  startedAt : Z;
  submittedAt : option Z
}.

(** The table: the identifier of a document is its position, [insert]
    appends, [get] reads, [patch] replaces a document that exists. *)
Definition Table : Type := list Attempt.

Definition db_get (t : Table) (i : nat) : option Attempt := nth_error t i.

Definition db_insert (t : Table) (a : Attempt) : nat * Table :=
  (List.length t, t ++ [a]).

Fixpoint db_patch (t : Table) (i : nat) (f : Attempt -> Attempt) : Table :=
  match t, i with
  | [], _ => []
  | a :: rest, O => f a :: rest
  | a :: rest, S j => a :: db_patch rest j f
  end.

(** What a mutation sees: the signed-in user as [getCurrentUser] returns it
    (null when nobody is signed in), the table, and the clock. *)
Record Ctx : Type := {
  currentUser : option UserId;
  examAttempts : Table;
  now : Z
}.

(** A mutation returns or throws, and leaves a table. *)
Definition Mutation (A : Type) : Type := Result A * Table.

(** *** createAttempt *)

Definition createAttempt (ctx : Ctx) (qs : list Question) : Mutation nat :=
  match currentUser ctx with
  | None => (Throw (Error "Not authenticated"), examAttempts ctx)
  | Some user =>
      let '(attemptId, table) :=
        db_insert (examAttempts ctx)
          {| userId := user;
             questions := qs;
             answers := [];
             score := 0;
             total := List.length qs;
             durationSec := of_Z 0;
             guidance := {| weakTopics := []; suggestions := [] |};
             completed := false;
             startedAt := now ctx;
             submittedAt := None |} in
      (Ok attemptId, table)
  end.

(** *** Scoring *)

Record Mistake : Type := {
  m_id : num;
  m_topic : string;
  m_correct : string;
  m_yours : string
}.

Record Stat : Type := { st_total : nat; st_wrong : nat }.

(** [topicStats]: the own properties of the object, in creation order. *)
Definition TopicStats : Type := list (string * Stat).

(** The members of [Object.prototype], which every object literal inherits.
    Each holds a function, [__proto__] holds the prototype itself: all are
    truthy objects, and none is an own property of [topicStats]. *)
Definition Object_prototype_names : list string :=
  [ "constructor"; "__defineGetter__"; "__defineSetter__"; "hasOwnProperty";
    "__lookupGetter__"; "__lookupSetter__"; "isPrototypeOf";
    "propertyIsEnumerable"; "toString"; "valueOf"; "__proto__";
    "toLocaleString" ].

Definition inherited (k : string) : bool :=
  existsb (String.eqb k) Object_prototype_names.

Definition has_own (k : string) (stats : TopicStats) : bool :=
  existsb (fun e => String.eqb k (fst e)) stats.

(** [if (!topicStats[topic]) topicStats[topic] = { total: 0, wrong: 0 }]:
    the read finds an own property or an inherited member, both truthy;
    otherwise the property is created, last in creation order. *)
Definition ensure (topic : string) (stats : TopicStats) : TopicStats :=
  if has_own topic stats || inherited topic then stats
  else stats ++ [(topic, {| st_total := 0; st_wrong := 0 |})].

(** [topicStats[topic].f += 1]: updates the own property when there is one.
    On an inherited member the assignment lands on the host's object and
    leaves the own properties as they are. *)
Fixpoint update (topic : string) (f : Stat -> Stat) (stats : TopicStats) : TopicStats :=
  match stats with
  | [] => []
  | (k, st) :: rest =>
      if String.eqb topic k then (k, f st) :: rest
      else (k, st) :: update topic f rest
  end.

Definition add_total (st : Stat) : Stat :=
  {| st_total := st_total st + 1; st_wrong := st_wrong st |}.

Definition add_wrong (st : Stat) : Stat :=
  {| st_total := st_total st; st_wrong := st_wrong st + 1 |}.

(** The state of the grading loop. *)
Record Grading : Type := {
  g_score : nat;
  g_mistakes : list Mistake;
  g_topicStats : TopicStats
}.

(** *** Guidance *)

(** [Object.entries] lists the own properties with the array indices first,
    in ascending numeric order, then the other names in creation order. An
    array index is the canonical decimal text of an integer from 0 to
    2^32 - 2. *)
Fixpoint all_digits (s : string) : bool :=
  match s with
  | EmptyString => true
  | String c rest => is_digit c && all_digits rest
  end.

Definition array_index (k : string) : option Z :=
  match k with
  | EmptyString => None
  | String c rest =>
      if all_digits k && (negb (code c =? 48) || negb (Ai.nonempty rest)) then
        let '(v, _, _) := digits k 0%Z 0 in
        if (v <=? 4294967294)%Z then Some v else None
      else None
  end.

Definition is_index (e : string * Stat) : bool :=
  match array_index (fst e) with Some _ => true | None => false end.

Definition index_of (e : string * Stat) : Z :=
  match array_index (fst e) with Some v => v | None => 0%Z end.

Definition Object_entries (stats : TopicStats) : list (string * Stat) :=
  sort_by (fun e x => (index_of e <=? index_of x)%Z) (filter is_index stats)
  ++ filter (fun e => negb (is_index e)) stats.

(** [.sort((a, b) => b[1].wrong - a[1].wrong)]. The sort of the engine is
    stable: entries that compare equal keep their order. Of the orderings
    of the entries by descending [wrong] only one is stable, and [sort_by]
    computes it: an entry goes before the first one that does not have more
    misses. *)
Definition sort_by_wrong (entries : list (string * Stat)) : list (string * Stat) :=
  sort_by (fun e x => st_wrong (snd x) <=? st_wrong (snd e)) entries.

(** The chain up to [.map(([t]) => t)], before [.slice(0, 4)]. *)
Definition ranking (stats : TopicStats) : list string :=
  map fst
    (sort_by_wrong
       (filter (fun e => 0 <? st_wrong (snd e)) (Object_entries stats))).

Definition weakTopics_of (stats : TopicStats) : list string :=
  firstn 4 (ranking stats).

(** [t.replace(/_/g, " ")]. *)
Fixpoint spaced (t : string) : string :=
  match t with
  | EmptyString => EmptyString
  | String c rest => String (if code c =? 95 then ascii_of_nat 32 else c) (spaced rest)
  end.

(** [xs.join(", ")]. *)
Fixpoint join (xs : list string) : string :=
  match xs with
  | [] => ""
  | [x] => x
  | x :: rest => (x ++ ", " ++ join rest)%string
  end.

Definition generic_suggestions : list string :=
  [ "Review basics first: definitions, standard formulas, and canonical properties.";
    "Practice 10 targeted problems per weak topic and redo similar questions.";
    "Reattempt a shorter mock to validate improvements." ].

Definition focus_line (weak : list string) : string :=
  ("Focus next: " ++ join (map spaced weak))%string.

Definition suggestions_of (weak : list string) : list string :=
  match weak with
  | [] => generic_suggestions
  | _ :: _ => focus_line weak :: generic_suggestions
  end.

(** The tolerance of a numeric answer: the literal [0.01], the double
    nearest to one hundredth, a little above it. *)
Definition tolerance : num := double (Qmake 1 100).

Section Host.

(** [Number::toString], the text of a number; it is never the name of a
    member of [Object.prototype], so [answers[String(q.id)]] reads an own
    property. *)
Variable NumberToString : num -> string.

(** [StringToNumber], the value of [Number(s)] on a string. *)
Variable StringToNumber : string -> num.

(** [String(a)] on a number or a string. *)
Definition String_of (a : Answer) : string :=
  match a with
  | ANum n => NumberToString n
  | AStr s => s
  end.

(** [typeof a === "number" ? a : Number(a)] on a value that may be
    undefined: [Number(undefined)] is NaN. *)
Definition to_number (a : option Answer) : num :=
  match a with
  | Some (ANum n) => n
  | Some (AStr s) => StringToNumber s
  | None => NaN
  end.

(** [typeof q.answer === "number" ? q.answer : -1]. *)
Definition correctIndex (q : Question) : num :=
  match answer q with
  | Some (ANum n) => n
  | _ => of_Z (-1)
  end.

Definition userAns (args_answers : Answers) (q : Question) : option Answer :=
  lookup (NumberToString (id q)) args_answers.

(** The test of the branch that adds to the score. The numbers are
    doubles; [userVal - correctNat] is their difference rounded to a
    double, and [0.01] the double nearest to one hundredth. *)
Definition is_correct (args_answers : Answers) (q : Question) : bool :=
  match type q with
  | mcq =>
      match userAns args_answers q with
      | Some (ANum u) => strict_eq u (correctIndex q)
      | _ => false
      end
  | nat_ =>
      let correctNat := to_number (answer q) in
      let userVal := to_number (userAns args_answers q) in
      negb (isNaN correctNat) && negb (isNaN userVal)
      && lt (Math_abs (minus userVal correctNat)) tolerance
  end.

Definition topic_of (q : Question) : string :=
  match topic q with Some t => t | None => "general_aptitude" end.

(** [userAns === undefined ? "blank" : String(userAns)]. *)
Definition yours_of (a : option Answer) : string :=
  match a with
  | None => "blank"
  | Some v => String_of v
  end.

(** The entry pushed to [mistakes] for a question that is not correct. *)
Definition mistake_of (args_answers : Answers) (q : Question) : Mistake :=
  {| m_id := id q;
     m_topic := topic_of q;
     m_correct :=
       match type q with
       | mcq => NumberToString (correctIndex q)
       | nat_ => match answer q with Some a => String_of a | None => "" end
       end;
     m_yours := yours_of (userAns args_answers q) |}.

(** One turn of [for (const q of questions)]. *)
Definition grade_step (args_answers : Answers) (g : Grading) (q : Question) : Grading :=
  let topic := topic_of q in
  let stats := update topic add_total (ensure topic (g_topicStats g)) in
  if is_correct args_answers q then
    {| g_score := g_score g + 1;
       g_mistakes := g_mistakes g;
       g_topicStats := stats |}
  else
    {| g_score := g_score g;
       g_mistakes := g_mistakes g ++ [mistake_of args_answers q];
       g_topicStats := update topic add_wrong stats |}.

Definition grade (args_answers : Answers) (qs : list Question) : Grading :=
  fold_left (grade_step args_answers) qs
    {| g_score := 0; g_mistakes := []; g_topicStats := [] |}.

(** *** submitAttempt *)

Record Submitted : Type := {
  r_score : nat;
  r_total : nat;
  r_weakTopics : list string;
  r_suggestions : list string;
  r_mistakes : list Mistake
}.

Definition submitAttempt (ctx : Ctx) (attemptId : nat) (args_answers : Answers)
  (args_durationSec : num) : Mutation Submitted :=
  let table := examAttempts ctx in
  match currentUser ctx with
  | None => (Throw (Error "Not authenticated"), table)
  | Some user =>
      match db_get table attemptId with
      | None => (Throw (Error "Attempt not found"), table)
      | Some attempt =>
          if negb (userId attempt =? user) then
            (Throw (Error "Not authorized to submit this attempt"), table)
          else if completed attempt then
            (Throw (Error "Attempt already submitted"), table)
          else
            let g := grade args_answers (questions attempt) in
            let weak := weakTopics_of (g_topicStats g) in
            let sugg := suggestions_of weak in
            let patched :=
              db_patch table attemptId (fun a =>
                {| userId := userId a;
                   questions := questions a;
                   answers := args_answers;
                   score := g_score g;
                   total := total a;
                   durationSec := Math_max (of_Z 0) (Math_floor args_durationSec);
                   guidance := {| weakTopics := weak; suggestions := sugg |};
                   completed := true;
                   startedAt := startedAt a;
                   submittedAt := Some (now ctx) |}) in
            (Ok {| r_score := g_score g;
                   r_total := List.length (questions attempt);
                   r_weakTopics := weak;
                   r_suggestions := sugg;
                   r_mistakes := g_mistakes g |}, patched)
      end
  end.

(** *** What grading is measured against *)

(** The topics in the order of their first occurrence. *)
Fixpoint first_seen (l : list string) : list string :=
  match l with
  | [] => []
  | x :: rest => x :: filter (fun y => negb (String.eqb y x)) (first_seen rest)
  end.

(** The number of elements before the first occurrence of [t] (the length
    of the list when there is none). *)
Fixpoint first_pos (t : string) (l : list string) : nat :=
  match l with
  | [] => 0
  | x :: rest => if String.eqb t x then 0 else S (first_pos t rest)
  end.

Definition attempted (qs : list Question) (t : string) : nat :=
  List.length (filter (fun q => String.eqb (topic_of q) t) qs).

Definition missed (args_answers : Answers) (qs : list Question) (t : string) : nat :=
  List.length
    (filter (fun q => String.eqb (topic_of q) t && negb (is_correct args_answers q)) qs).

(** The topics that get an own property in [topicStats]. *)
Definition own_topics (qs : list Question) : list string :=
  filter (fun t => negb (inherited t)) (first_seen (map topic_of qs)).

Definition stat_of (args_answers : Answers) (qs : list Question) (t : string) : Stat :=
  {| st_total := attempted qs t; st_wrong := missed args_answers qs t |}.

(** The order in which [Object.entries] lists two property names: array
    indices by value and before the others, the others by first
    occurrence. *)
Definition listed_before (seen : list string) (t1 t2 : string) : Prop :=
  match array_index t1, array_index t2 with
  | Some a, Some b => (a <= b)%Z
  | Some _, None => True
  | None, Some _ => False
  | None, None => first_pos t1 seen < first_pos t2 seen
  end.

(** More misses first; among equal misses, the order of [Object.entries]. *)
Definition ranked_before (args_answers : Answers) (qs : list Question) (t1 t2 : string)
  : Prop :=
  missed args_answers qs t2 < missed args_answers qs t1
  \/ (missed args_answers qs t1 = missed args_answers qs t2
      /\ listed_before (map topic_of qs) t1 t2).

(** Two numbers that are the same value (NaN the same as NaN). *)
Definition same_value (a b : num) : bool :=
  match a, b with
  | NaN, NaN => true
  | _, _ => strict_eq a b
  end.

Definition occurrences (i : num) (ids : list num) : nat :=
  List.length (filter (same_value i) ids).

(** *** The grading loop in closed form *)

Lemma fold_grade_score (args_answers : Answers) (qs : list Question) (g : Grading) :
  g_score (fold_left (grade_step args_answers) qs g)
  = g_score g + List.length (filter (is_correct args_answers) qs).
Proof.
  revert g. induction qs as [|q qs IH]; intros g; simpl.
  - lia.
  - rewrite IH. unfold grade_step.
    destruct (is_correct args_answers q); simpl; lia.
Qed.

Lemma fold_grade_mistakes (args_answers : Answers) (qs : list Question) (g : Grading) :
  g_mistakes (fold_left (grade_step args_answers) qs g)
  = g_mistakes g
    ++ map (mistake_of args_answers)
         (filter (fun q => negb (is_correct args_answers q)) qs).
Proof.
  revert g. induction qs as [|q qs IH]; intros g; simpl.
  - now rewrite app_nil_r.
  - rewrite IH. unfold grade_step.
    destruct (is_correct args_answers q); simpl.
    + reflexivity.
    + now rewrite <- app_assoc.
Qed.

Lemma grade_score (args_answers : Answers) (qs : list Question) :
  g_score (grade args_answers qs) = List.length (filter (is_correct args_answers) qs).
Proof. unfold grade. now rewrite fold_grade_score. Qed.

Lemma grade_mistakes (args_answers : Answers) (qs : list Question) :
  g_mistakes (grade args_answers qs)
  = map (mistake_of args_answers)
      (filter (fun q => negb (is_correct args_answers q)) qs).
Proof. unfold grade. now rewrite fold_grade_mistakes. Qed.

Lemma filter_split_length {A : Type} (f : A -> bool) (l : list A) :
  List.length (filter f l) + List.length (filter (fun x => negb (f x)) l)
  = List.length l.
Proof.
  induction l as [|x l IH]; simpl; [reflexivity|].
  destruct (f x); simpl; lia.
Qed.

Lemma filter_length_le' {A : Type} (f : A -> bool) (l : list A) :
  List.length (filter f l) <= List.length l.
Proof.
  induction l as [|x l IH]; simpl; [lia|]. destruct (f x); simpl; lia.
Qed.

(** *** The statistics object in closed form *)

Lemma In_first_seen (l : list string) (y : string) :
  In y (first_seen l) <-> In y l.
Proof.
  induction l as [|x l IH]; simpl; [tauto|].
  rewrite filter_In, IH. split.
  - intros [H|[H _]]; auto.
  - intros [H|H]; [now left|].
    destruct (String.eqb y x) eqn:E.
    + left. symmetry. now apply String.eqb_eq.
    + right. split; [assumption | reflexivity].
Qed.

Lemma NoDup_first_seen (l : list string) : NoDup (first_seen l).
Proof.
  induction l as [|x l IH]; simpl; constructor.
  - rewrite filter_In. intros [_ H]. now rewrite String.eqb_refl in H.
  - now apply NoDup_filter.
Qed.

Lemma existsb_eqb_In (t : string) (l : list string) :
  existsb (String.eqb t) l = true <-> In t l.
Proof.
  rewrite existsb_exists. split.
  - intros [x [Hx E]]. apply String.eqb_eq in E. now subst.
  - intros H. exists t. split; [assumption | apply String.eqb_refl].
Qed.

Lemma first_seen_snoc (l : list string) (x : string) :
  first_seen (l ++ [x])
  = if existsb (String.eqb x) l then first_seen l else first_seen l ++ [x].
Proof.
  induction l as [|y l IH]; simpl; [reflexivity|].
  rewrite IH.
  destruct (String.eqb x y) eqn:Exy; simpl;
    destruct (existsb (String.eqb x) l); simpl; try reflexivity;
    rewrite filter_app; simpl; rewrite Exy; simpl;
    now rewrite ?app_nil_r.
Qed.

Lemma own_topics_snoc (p : list Question) (q : Question) :
  own_topics (p ++ [q])
  = if existsb (String.eqb (topic_of q)) (own_topics p) || inherited (topic_of q)
    then own_topics p
    else own_topics p ++ [topic_of q].
Proof.
  unfold own_topics. rewrite map_app. simpl. rewrite first_seen_snoc.
  set (t := topic_of q). set (ts := map topic_of p).
  destruct (existsb (String.eqb t) ts) eqn:Eseen.
  - destruct (inherited t) eqn:Einh; [now rewrite orb_true_r|].
    rewrite orb_false_r.
    assert (H : existsb (String.eqb t)
                  (filter (fun t0 => negb (inherited t0)) (first_seen ts)) = true).
    { apply existsb_eqb_In. apply filter_In. split.
      - apply In_first_seen. now apply existsb_eqb_In.
      - now rewrite Einh. }
    now rewrite H.
  - assert (H : existsb (String.eqb t)
                  (filter (fun t0 => negb (inherited t0)) (first_seen ts)) = false).
    { apply not_true_is_false. intros H. apply existsb_eqb_In in H.
      apply filter_In in H. destruct H as [H _].
      apply (proj1 (In_first_seen _ _)) in H.
      apply (proj2 (existsb_eqb_In _ _)) in H. congruence. }
    rewrite H, filter_app. simpl.
    destruct (inherited t); simpl; [now rewrite app_nil_r | reflexivity].
Qed.

Lemma NoDup_own_topics (qs : list Question) : NoDup (own_topics qs).
Proof. unfold own_topics. apply NoDup_filter, NoDup_first_seen. Qed.

Lemma In_own_topics (qs : list Question) (t : string) :
  In t (own_topics qs) <-> In t (map topic_of qs) /\ inherited t = false.
Proof.
  unfold own_topics. rewrite filter_In, In_first_seen, negb_true_iff. tauto.
Qed.

Lemma has_own_map (h : string -> Stat) (t : string) (ks : list string) :
  has_own t (map (fun k => (k, h k)) ks) = existsb (String.eqb t) ks.
Proof.
  unfold has_own. induction ks as [|k ks IH]; simpl; [reflexivity|].
  now rewrite IH.
Qed.

Lemma update_map (h : string -> Stat) (t : string) (f : Stat -> Stat) (ks : list string) :
  NoDup ks ->
  update t f (map (fun k => (k, h k)) ks)
  = map (fun k => (k, if String.eqb t k then f (h k) else h k)) ks.
Proof.
  induction ks as [|k ks IH]; intros ND; simpl; [reflexivity|].
  inversion ND as [|? ? Hnotin ND']; subst.
  destruct (String.eqb t k) eqn:E.
  - f_equal. apply map_ext_in. intros k' Hk'.
    destruct (String.eqb t k') eqn:E'; [|reflexivity].
    apply String.eqb_eq in E, E'. subst. contradiction.
  - f_equal. now apply IH.
Qed.

Lemma no_topic_no_stat (args_answers : Answers) (p : list Question) (t : string) :
  ~ In t (map topic_of p) ->
  stat_of args_answers p t = {| st_total := 0; st_wrong := 0 |}.
Proof.
  intros H. unfold stat_of, attempted, missed.
  induction p as [|q p IH]; simpl; [reflexivity|].
  simpl in H.
  destruct (String.eqb (topic_of q) t) eqn:E.
  - apply String.eqb_eq in E. tauto.
  - simpl. apply IH. tauto.
Qed.

Lemma stat_of_snoc (args_answers : Answers) (p : list Question) (q : Question) (k : string) :
  stat_of args_answers (p ++ [q]) k
  = if String.eqb (topic_of q) k
    then (if is_correct args_answers q
          then add_total (stat_of args_answers p k)
          else add_wrong (add_total (stat_of args_answers p k)))
    else stat_of args_answers p k.
Proof.
  unfold stat_of, attempted, missed, add_total, add_wrong.
  rewrite !filter_app, !length_app. simpl.
  destruct (String.eqb (topic_of q) k); simpl;
    destruct (is_correct args_answers q); simpl; f_equal; lia.
Qed.

Lemma fold_left_snoc {A B : Type} (f : A -> B -> A) (l : list B) (x : B) (a : A) :
  fold_left f (l ++ [x]) a = f (fold_left f l a) x.
Proof. now rewrite fold_left_app. Qed.

Lemma grade_stats (args_answers : Answers) (qs : list Question) :
  g_topicStats (grade args_answers qs)
  = map (fun t => (t, stat_of args_answers qs t)) (own_topics qs).
Proof.
  induction qs as [|q p IH] using rev_ind; [reflexivity|].
  unfold grade in *. rewrite fold_left_snoc.
  set (g := fold_left (grade_step args_answers) p _) in *.
  set (t := topic_of q).
  assert (Hens : ensure t (g_topicStats g)
                 = map (fun k => (k, stat_of args_answers p k)) (own_topics (p ++ [q]))).
  { rewrite IH, own_topics_snoc. unfold ensure. fold t.
    rewrite has_own_map.
    destruct (existsb (String.eqb t) (own_topics p) || inherited t) eqn:E;
      [reflexivity|].
    rewrite map_app. simpl. apply orb_false_iff in E. destruct E as [E1 E2].
    rewrite (no_topic_no_stat args_answers p t); [reflexivity|].
    intros Hin. apply not_true_iff_false in E1. apply E1.
    apply existsb_eqb_In. apply In_own_topics. now split. }
  assert (ND := NoDup_own_topics (p ++ [q])).
  unfold grade_step. fold t. rewrite Hens.
  destruct (is_correct args_answers q) eqn:Ec; simpl.
  - rewrite update_map by assumption. apply map_ext. intros k.
    rewrite stat_of_snoc. fold t. now rewrite Ec.
  - rewrite update_map by assumption.
    rewrite (update_map
               (fun k => if String.eqb t k
                         then add_total (stat_of args_answers p k)
                         else stat_of args_answers p k)) by assumption.
    apply map_ext. intros k. rewrite stat_of_snoc. fold t. rewrite Ec.
    now destruct (String.eqb t k).
Qed.

(** *** The ranking of weak topics *)

Lemma first_seen_sorted (l : list string) :
  StronglySorted (fun a b => first_pos a l < first_pos b l) (first_seen l).
Proof.
  induction l as [|x l IH]; simpl; [constructor|].
  constructor.
  - apply StronglySorted_filter with (f := fun y => negb (String.eqb y x)) in IH.
    revert IH. apply StronglySorted_weaken.
    intros a b Ha Hb Hab.
    apply filter_In in Ha, Hb. destruct Ha as [_ Ha], Hb as [_ Hb].
    apply negb_true_iff in Ha, Hb. rewrite Ha, Hb. lia.
  - apply Forall_forall. intros y Hy. apply filter_In in Hy.
    destruct Hy as [_ Hy]. apply negb_true_iff in Hy.
    rewrite String.eqb_refl, Hy. lia.
Qed.

Lemma Object_entries_perm (stats : TopicStats) :
  Permutation (Object_entries stats) stats.
Proof.
  unfold Object_entries.
  eapply Permutation_trans; [|apply (filter_partition_perm is_index)].
  apply Permutation_app_tail. apply Permutation_sym, sort_by_perm.
Qed.

Lemma StronglySorted_True {A : Type} (l : list A) :
  StronglySorted (fun _ _ => True) l.
Proof.
  induction l; constructor; [assumption|]. now apply Forall_forall.
Qed.

Lemma Object_entries_sorted (seen : list string) (stats : TopicStats) :
  StronglySorted (fun a b => first_pos (fst a) seen < first_pos (fst b) seen) stats ->
  StronglySorted (fun a b => listed_before seen (fst a) (fst b)) (Object_entries stats).
Proof.
  intros Hs. unfold Object_entries. apply StronglySorted_app.
  - assert (H := sort_by_sorted
                   (fun e x => (index_of e <=? index_of x)%Z)
                   (fun a b Hab => proj2 (Z.leb_le _ _)
                                     (Z.lt_le_incl _ _ (proj1 (Z.leb_gt _ _) Hab)))
                   (fun a b c Hab Hbc => proj2 (Z.leb_le _ _)
                                     (Z.le_trans _ _ _ (proj1 (Z.leb_le _ _) Hab)
                                                       (proj1 (Z.leb_le _ _) Hbc)))
                   (fun _ _ => True)
                   (filter is_index stats)
                   (StronglySorted_True _)).
    revert H. apply StronglySorted_weaken.
    intros a b Ha Hb [Hab _].
    apply sort_by_In, filter_In in Ha. apply sort_by_In, filter_In in Hb.
    destruct Ha as [_ Ha], Hb as [_ Hb]. apply Z.leb_le in Hab.
    unfold listed_before, is_index, index_of in *.
    destruct (array_index (fst a)); [|discriminate].
    destruct (array_index (fst b)); [assumption | discriminate].
  - apply StronglySorted_filter with (f := fun e => negb (is_index e)) in Hs.
    revert Hs. apply StronglySorted_weaken.
    intros a b Ha Hb Hab.
    apply filter_In in Ha, Hb. destruct Ha as [_ Ha], Hb as [_ Hb].
    unfold listed_before, is_index in *.
    destruct (array_index (fst a)); [discriminate|].
    destruct (array_index (fst b)); [discriminate | assumption].
  - intros a b Ha Hb.
    apply sort_by_In, filter_In in Ha. apply filter_In in Hb.
    destruct Ha as [_ Ha], Hb as [_ Hb].
    unfold listed_before, is_index in *.
    destruct (array_index (fst a)); [|discriminate].
    destruct (array_index (fst b)); [discriminate | exact I].
Qed.

(** The ranking computed over the statistics of a graded list. *)
Definition graded_ranking (args_answers : Answers) (qs : list Question) : list string :=
  ranking (g_topicStats (grade args_answers qs)).

Lemma graded_entry (args_answers : Answers) (qs : list Question) (e : string * Stat) :
  In e (g_topicStats (grade args_answers qs)) ->
  snd e = stat_of args_answers qs (fst e) /\ In (fst e) (own_topics qs).
Proof.
  rewrite grade_stats. intros H. apply in_map_iff in H.
  destruct H as [t [<- Ht]]. now split.
Qed.

Lemma ranking_perm (args_answers : Answers) (qs : list Question) :
  Permutation
    (graded_ranking args_answers qs)
    (filter (fun t => 0 <? missed args_answers qs t) (own_topics qs)).
Proof.
  unfold graded_ranking, ranking, sort_by_wrong.
  eapply Permutation_trans.
  { apply Permutation_map, Permutation_sym, sort_by_perm. }
  assert (Hperm := Object_entries_perm (g_topicStats (grade args_answers qs))).
  revert Hperm. generalize (Object_entries (g_topicStats (grade args_answers qs))).
  rewrite grade_stats. intros l Hperm.
  eapply Permutation_trans.
  { apply Permutation_map.
    apply (Permutation_filter (fun e : string * Stat => 0 <? st_wrong (snd e))).
    exact Hperm. }
  clear. induction (own_topics qs) as [|t ts IH]; simpl; [constructor|].
  destruct (0 <? missed args_answers qs t); simpl; [now apply perm_skip | assumption].
Qed.

Lemma missed_topic (args_answers : Answers) (qs : list Question) (t : string) :
  0 < missed args_answers qs t -> In t (map topic_of qs).
Proof.
  unfold missed. induction qs as [|q qs IH]; simpl; [lia|].
  destruct (String.eqb (topic_of q) t) eqn:E; simpl.
  - intros _. left. now apply String.eqb_eq.
  - intros H. right. now apply IH.
Qed.

Lemma ranking_In (args_answers : Answers) (qs : list Question) (t : string) :
  In t (graded_ranking args_answers qs)
  <-> 0 < missed args_answers qs t /\ inherited t = false.
Proof.
  split.
  - intros H. apply (Permutation_in _ (ranking_perm args_answers qs)) in H.
    apply filter_In in H. destruct H as [H1 H2].
    apply In_own_topics in H1. apply Nat.ltb_lt in H2. tauto.
  - intros [H1 H2].
    apply (Permutation_in _ (Permutation_sym (ranking_perm args_answers qs))).
    apply filter_In. split; [|now apply Nat.ltb_lt].
    apply In_own_topics. split; [now apply (missed_topic args_answers) | assumption].
Qed.

Lemma ranking_NoDup (args_answers : Answers) (qs : list Question) :
  NoDup (graded_ranking args_answers qs).
Proof.
  apply (Permutation_NoDup (Permutation_sym (ranking_perm args_answers qs))).
  apply NoDup_filter, NoDup_own_topics.
Qed.

Lemma ranking_sorted (args_answers : Answers) (qs : list Question) :
  StronglySorted (ranked_before args_answers qs) (graded_ranking args_answers qs).
Proof.
  unfold graded_ranking, ranking, sort_by_wrong.
  apply StronglySorted_map.
  set (stats := g_topicStats (grade args_answers qs)).
  assert (Hent : StronglySorted
                   (fun a b => listed_before (map topic_of qs) (fst a) (fst b))
                   (filter (fun e => 0 <? st_wrong (snd e)) (Object_entries stats))).
  { apply StronglySorted_filter, Object_entries_sorted.
    unfold stats. rewrite grade_stats.
    apply StronglySorted_map with (f := fun t => (t, stat_of args_answers qs t))
                                  (R := fun a b => first_pos (fst a) (map topic_of qs)
                                                  < first_pos (fst b) (map topic_of qs)).
    simpl. unfold own_topics. apply StronglySorted_filter, first_seen_sorted. }
  assert (H := sort_by_sorted
                 (fun e x : string * Stat => st_wrong (snd x) <=? st_wrong (snd e))
                 (fun a b Hab => proj2 (Nat.leb_le _ _)
                                   (Nat.lt_le_incl _ _ (proj1 (Nat.leb_gt _ _) Hab)))
                 (fun a b c Hab Hbc => proj2 (Nat.leb_le _ _)
                                   (Nat.le_trans _ _ _ (proj1 (Nat.leb_le _ _) Hbc)
                                                       (proj1 (Nat.leb_le _ _) Hab)))
                 _ _ Hent).
  revert H. apply StronglySorted_weaken.
  intros a b Ha Hb [Hab Htie].
  apply sort_by_In, filter_In in Ha. apply sort_by_In, filter_In in Hb.
  destruct Ha as [Ha _], Hb as [Hb _].
  apply (Permutation_in _ (Object_entries_perm stats)) in Ha, Hb.
  apply graded_entry in Ha, Hb. destruct Ha as [Ea _], Hb as [Eb _].
  rewrite Ea, Eb in Hab, Htie. simpl in Hab, Htie.
  apply Nat.leb_le in Hab. unfold ranked_before.
  destruct (Nat.eq_dec (missed args_answers qs (fst a)) (missed args_answers qs (fst b)))
    as [E|NE]; [right | left; lia].
  split; [assumption|]. apply Htie. apply Nat.leb_le. lia.
Qed.

(** *** The table *)

Lemma db_get_patch_same (t : Table) (i : nat) (f : Attempt -> Attempt) :
  db_get (db_patch t i f) i = option_map f (db_get t i).
Proof.
  unfold db_get. revert i. induction t as [|a t IH]; intros [|i]; simpl; auto.
Qed.

Lemma db_get_insert_new (t : Table) (a : Attempt) :
  db_get (snd (db_insert t a)) (fst (db_insert t a)) = Some a.
Proof.
  unfold db_get, db_insert. simpl.
  rewrite nth_error_app2 by lia. now rewrite Nat.sub_diag.
Qed.

Lemma db_get_insert_old (t : Table) (a : Attempt) (j : nat) :
  j < List.length t -> db_get (snd (db_insert t a)) j = db_get t j.
Proof.
  intros H. unfold db_get, db_insert. simpl. now apply nth_error_app1.
Qed.

(** *** A submission that passes the guards *)

(** The value [submitAttempt] returns for an open attempt of the caller. *)
Definition submitted (args_answers : Answers) (attempt : Attempt) : Submitted :=
  let g := grade args_answers (questions attempt) in
  let weak := weakTopics_of (g_topicStats g) in
  {| r_score := g_score g;
     r_total := List.length (questions attempt);
     r_weakTopics := weak;
     r_suggestions := suggestions_of weak;
     r_mistakes := g_mistakes g |}.

Lemma submit_open (ctx : Ctx) (attemptId : nat) (args_answers : Answers)
  (args_durationSec : num) (user : UserId) (attempt : Attempt) :
  currentUser ctx = Some user ->
  db_get (examAttempts ctx) attemptId = Some attempt ->
  userId attempt = user ->
  completed attempt = false ->
  fst (submitAttempt ctx attemptId args_answers args_durationSec)
  = Ok (submitted args_answers attempt)
  /\ db_get (snd (submitAttempt ctx attemptId args_answers args_durationSec)) attemptId
     = Some {| userId := userId attempt;
               questions := questions attempt;
               answers := args_answers;
               score := r_score (submitted args_answers attempt);
               total := total attempt;
               durationSec := Math_max (of_Z 0) (Math_floor args_durationSec);
               guidance :=
                 {| weakTopics := r_weakTopics (submitted args_answers attempt);
                    suggestions := r_suggestions (submitted args_answers attempt) |};
               completed := true;
               startedAt := startedAt attempt;
               submittedAt := Some (now ctx) |}.
Proof.
  intros Hu Hget Hown Hopen. subst user. unfold submitAttempt.
  rewrite Hu, Hget, Nat.eqb_refl, Hopen. cbn [negb fst snd].
  split; [reflexivity|].
  rewrite db_get_patch_same, Hget. reflexivity.
Qed.

Lemma submit_ok_inv (ctx : Ctx) (attemptId : nat) (args_answers : Answers)
  (args_durationSec : num) (r : Submitted) :
  fst (submitAttempt ctx attemptId args_answers args_durationSec) = Ok r ->
  exists attempt,
    db_get (examAttempts ctx) attemptId = Some attempt
    /\ currentUser ctx = Some (userId attempt)
    /\ completed attempt = false
    /\ r = submitted args_answers attempt.
Proof.
  unfold submitAttempt.
  destruct (currentUser ctx) as [user|]; [|discriminate].
  destruct (db_get (examAttempts ctx) attemptId) as [attempt|]; [|discriminate].
  destruct (userId attempt =? user) eqn:Eu; [|discriminate].
  destruct (completed attempt) eqn:Ec; [discriminate|].
  simpl. intros H. injection H as <-. apply Nat.eqb_eq in Eu. subst.
  exists attempt. repeat split; try reflexivity; assumption.
Qed.

Lemma submit_error_keeps_table (ctx : Ctx) (attemptId : nat) (args_answers : Answers)
  (args_durationSec : num) (e : Exn) :
  fst (submitAttempt ctx attemptId args_answers args_durationSec) = Throw e ->
  snd (submitAttempt ctx attemptId args_answers args_durationSec) = examAttempts ctx.
Proof.
  unfold submitAttempt.
  destruct (currentUser ctx) as [user|]; [|reflexivity].
  destruct (db_get (examAttempts ctx) attemptId) as [attempt|]; [|reflexivity].
  destruct (userId attempt =? user); [|reflexivity].
  destruct (completed attempt); [reflexivity | discriminate].
Qed.

Lemma occurrences_filter (i : num) (f : Question -> bool) (qs : list Question) :
  occurrences i (map id (filter f qs)) <= occurrences i (map id qs).
Proof.
  unfold occurrences. induction qs as [|q qs IH]; simpl; [lia|].
  destruct (f q); simpl; destruct (same_value i (id q)); simpl; lia.
Qed.

Lemma mistake_ids (args_answers : Answers) (qs : list Question) :
  map m_id (map (mistake_of args_answers) qs) = map id qs.
Proof. rewrite map_map. reflexivity. Qed.

Lemma StronglySorted_firstn {A : Type} (R : A -> A -> Prop) (n : nat) (l : list A) :
  StronglySorted R l -> StronglySorted R (firstn n l).
Proof.
  intros Hs. revert n. induction Hs as [|x l Hs IH Hx]; intros [|n]; simpl;
    try constructor; [apply IH|].
  rewrite Forall_forall in *. intros y Hy. apply Hx.
  rewrite <- (firstn_skipn n l). apply in_or_app. now left.
Qed.

(* ===================================================================== *)
(** ** Properties of the exam module *)
(* ===================================================================== *)

(** C9, as the code has it: for a signed-in caller [createAttempt] accepts
    every sequence of questions, the empty one included, and stores a new
    attempt that is open (not completed), owned by the caller, with
    [total] the length of the sequence, score 0 and no answers; the
    attempts already stored are left as they were. *)
Theorem createAttempt_opens (ctx : Ctx) (qs : list Question) (user : UserId) :
  currentUser ctx = Some user ->
  exists attemptId attempt,
    fst (createAttempt ctx qs) = Ok attemptId
    /\ db_get (snd (createAttempt ctx qs)) attemptId = Some attempt
    /\ completed attempt = false
    /\ total attempt = List.length qs
    /\ score attempt = 0
    /\ answers attempt = []
    /\ questions attempt = qs
    /\ userId attempt = user
    /\ submittedAt attempt = None
    /\ (forall j, j < List.length (examAttempts ctx) ->
          db_get (snd (createAttempt ctx qs)) j = db_get (examAttempts ctx) j).
Proof.
  intros Hu. unfold createAttempt. rewrite Hu.
  match goal with
  | |- context [db_insert ?t ?a] =>
      exists (fst (db_insert t a)), a;
      assert (Hnew := db_get_insert_new t a);
      assert (Hold := db_get_insert_old t a);
      destruct (db_insert t a) as [attemptId table]
  end.
  cbn [fst snd] in *. repeat split; try reflexivity; assumption.
Qed.

(** C5: for a signed-in caller [submitAttempt] checks existence, then
    ownership, then state, each with an error of its own: an unknown
    identifier is not found; an attempt of another owner is refused whether
    or not it is completed; a completed attempt of the caller is a conflict.
    Every error leaves the table as it was. After a submission that
    succeeded, a second one of the same attempt by the same caller fails
    with the conflict and leaves the table, hence the stored state, score,
    answers and guidance, as the first one left it. *)
Theorem submit_guards (ctx : Ctx) (attemptId : nat) (args_answers : Answers)
  (args_durationSec : num) (user : UserId) :
  currentUser ctx = Some user ->
  (db_get (examAttempts ctx) attemptId = None ->
     submitAttempt ctx attemptId args_answers args_durationSec
     = (Throw (Error "Attempt not found"), examAttempts ctx))
  /\ (forall attempt,
        db_get (examAttempts ctx) attemptId = Some attempt ->
        userId attempt <> user ->
        submitAttempt ctx attemptId args_answers args_durationSec
        = (Throw (Error "Not authorized to submit this attempt"), examAttempts ctx))
  /\ (forall attempt,
        db_get (examAttempts ctx) attemptId = Some attempt ->
        userId attempt = user ->
        completed attempt = true ->
        submitAttempt ctx attemptId args_answers args_durationSec
        = (Throw (Error "Attempt already submitted"), examAttempts ctx))
  /\ (forall e,
        fst (submitAttempt ctx attemptId args_answers args_durationSec) = Throw e ->
        snd (submitAttempt ctx attemptId args_answers args_durationSec)
        = examAttempts ctx)
  /\ (forall r,
        fst (submitAttempt ctx attemptId args_answers args_durationSec) = Ok r ->
        forall (answers' : Answers) (duration' : num) (now' : Z),
          submitAttempt
            {| currentUser := Some user;
               examAttempts :=
                 snd (submitAttempt ctx attemptId args_answers args_durationSec);
               now := now' |}
            attemptId answers' duration'
          = (Throw (Error "Attempt already submitted"),
             snd (submitAttempt ctx attemptId args_answers args_durationSec)))
  /\ Error "Attempt not found" <> Error "Not authorized to submit this attempt"
  /\ Error "Attempt not found" <> Error "Attempt already submitted"
  /\ Error "Not authorized to submit this attempt" <> Error "Attempt already submitted".
Proof.
  intros Hu. repeat split.
  - intros Hget. unfold submitAttempt. now rewrite Hu, Hget.
  - intros attempt Hget Hown. unfold submitAttempt. rewrite Hu, Hget.
    apply Nat.eqb_neq in Hown. now rewrite Hown.
  - intros attempt Hget Hown Hdone. unfold submitAttempt. rewrite Hu, Hget.
    apply Nat.eqb_eq in Hown. now rewrite Hown, Hdone.
  - apply submit_error_keeps_table.
  - intros r Hr answers' duration' now'.
    destruct (submit_ok_inv _ _ _ _ _ Hr) as [attempt [Hget [Hcur [Hopen _]]]].
    assert (Hown : userId attempt = user) by congruence.
    destruct (submit_open ctx attemptId args_answers args_durationSec user attempt
                Hu Hget Hown Hopen) as [_ Hstored].
    unfold submitAttempt at 1. cbn [currentUser examAttempts].
    rewrite Hstored. cbn [userId completed]. rewrite Hown, Nat.eqb_refl.
    reflexivity.
  - discriminate.
  - discriminate.
  - discriminate.
Qed.

(** C4, as the code has it: a submission that passes the guards never fails
    in scoring; its score is the number of questions scored correct and
    never exceeds the number of questions. A multiple-choice question that
    stores a number as its answer is scored correct iff the submitted value
    is a number strictly equal to that stored index; in general the
    submission is compared with the index the code reads, which is -1 when
    the stored answer is not a number. A numeric-answer question is scored
    correct iff
    the stored answer and the submitted value both convert to numbers other
    than NaN and the absolute value of their difference, rounded to a
    double as the subtraction does, is below the literal 0.01, the double
    nearest to one hundredth. This is the exact test (difference below one
    hundredth) up to rounding: two finite numbers at most one hundredth
    less [2^-59] apart are scored correct, two at least one hundredth plus
    [2^-59] apart are scored incorrect. An absent submission,
    a submission that converts to NaN on a numeric-answer question and a
    text submitted to a multiple-choice question are scored incorrect, and
    every unanswered question is in the returned mistakes with [yours] the
    text blank. *)
Theorem scoring_rules (ctx : Ctx) (attemptId : nat) (args_answers : Answers)
  (args_durationSec : num) (user : UserId) (attempt : Attempt) :
  currentUser ctx = Some user ->
  db_get (examAttempts ctx) attemptId = Some attempt ->
  userId attempt = user ->
  completed attempt = false ->
  exists r,
    fst (submitAttempt ctx attemptId args_answers args_durationSec) = Ok r
    /\ r_score r = List.length (filter (is_correct args_answers) (questions attempt))
    /\ r_score r <= List.length (questions attempt)
    /\ r_mistakes r
       = map (mistake_of args_answers)
           (filter (fun q => negb (is_correct args_answers q)) (questions attempt))
    /\ (forall q c, type q = mcq -> answer q = Some (ANum c) ->
          (is_correct args_answers q = true
           <-> exists u, userAns args_answers q = Some (ANum u)
                         /\ strict_eq u c = true))
    /\ (forall q, type q = mcq ->
          (is_correct args_answers q = true
           <-> exists u, userAns args_answers q = Some (ANum u)
                         /\ strict_eq u (correctIndex q) = true))
    /\ (forall q, type q = nat_ ->
          (is_correct args_answers q = true
           <-> isNaN (to_number (answer q)) = false
               /\ isNaN (to_number (userAns args_answers q)) = false
               /\ lt (Math_abs (minus (to_number (userAns args_answers q))
                                      (to_number (answer q)))) tolerance = true))
    /\ (forall q u c, type q = nat_ ->
          to_number (userAns args_answers q) = Fin u ->
          to_number (answer q) = Fin c ->
          (Qle (Qabs (Qminus u c)) (Qminus Double.hundredth Double.margin) ->
           is_correct args_answers q = true)
          /\ (Qle (Qplus Double.hundredth Double.margin) (Qabs (Qminus u c)) ->
              is_correct args_answers q = false))
    /\ (forall q, userAns args_answers q = None -> is_correct args_answers q = false)
    /\ (forall q, type q = nat_ ->
          isNaN (to_number (userAns args_answers q)) = true ->
          is_correct args_answers q = false)
    /\ (forall q s, type q = mcq ->
          userAns args_answers q = Some (AStr s) ->
          is_correct args_answers q = false)
    /\ (forall q, In q (questions attempt) ->
          userAns args_answers q = None ->
          In (mistake_of args_answers q) (r_mistakes r)
          /\ m_id (mistake_of args_answers q) = id q
          /\ m_yours (mistake_of args_answers q) = "blank").
Proof.
  intros Hu Hget Hown Hopen.
  destruct (submit_open ctx attemptId args_answers args_durationSec user attempt
              Hu Hget Hown Hopen) as [Hok _].
  exists (submitted args_answers attempt).
  split; [exact Hok|]. unfold submitted. cbn [r_score r_mistakes].
  rewrite grade_score, grade_mistakes.
  assert (Habsent : forall q, userAns args_answers q = None ->
                              is_correct args_answers q = false).
  { intros q Hq. unfold is_correct. rewrite Hq. simpl.
    destruct (type q); [reflexivity|]. now rewrite andb_false_r. }
  split; [reflexivity|].
  split; [apply filter_length_le'|].
  split; [reflexivity|].
  assert (Hmcq : forall q, type q = mcq ->
            (is_correct args_answers q = true
             <-> exists u, userAns args_answers q = Some (ANum u)
                           /\ strict_eq u (correctIndex q) = true)).
  { intros q Hq. unfold is_correct. rewrite Hq. split.
    - destruct (userAns args_answers q) as [[u|s]|]; try discriminate.
      intros H. now exists u.
    - intros [u [-> H]]. exact H. }
  split.
  { intros q c Hq Hc. rewrite (Hmcq q Hq). unfold correctIndex. now rewrite Hc. }
  split; [exact Hmcq|].
  split.
  { intros q Hq. unfold is_correct. rewrite Hq.
    cbv zeta. rewrite !andb_true_iff, !negb_true_iff. tauto. }
  split.
  { intros q u c Hq Hqu Hqc. unfold is_correct.
    rewrite Hq, Hqu, Hqc. cbn [isNaN negb andb minus sub]. split; intros H.
    - now apply Double.double_close.
    - now apply Double.double_far. }
  split; [exact Habsent|].
  split.
  { intros q Hq Hnan. unfold is_correct. rewrite Hq, Hnan. simpl.
    now rewrite andb_false_r. }
  split.
  { intros q s0 Hq Hs. unfold is_correct. now rewrite Hq, Hs. }
  intros q Hq Hnone. split; [|split].
  - apply in_map, filter_In. split; [assumption|].
    now rewrite (Habsent q Hnone).
  - reflexivity.
  - unfold mistake_of. cbn [m_yours]. now rewrite Hnone.
Qed.

(** C10, as the code has it: in a submission that succeeded every question
    is counted once, as correct or as a mistake: the score plus the length
    of the mistakes is the number of questions, which is also the total
    returned. The identifiers in the mistakes are those of the questions not
    scored correct, in the order of the questions, so an identifier occurs
    there at most as often as among the questions: at most once when the
    identifiers of the questions are distinct. *)
Theorem each_question_counted (ctx : Ctx) (attemptId : nat) (args_answers : Answers)
  (args_durationSec : num) (r : Submitted) :
  fst (submitAttempt ctx attemptId args_answers args_durationSec) = Ok r ->
  exists attempt,
    db_get (examAttempts ctx) attemptId = Some attempt
    /\ r_score r + List.length (r_mistakes r) = List.length (questions attempt)
    /\ r_total r = List.length (questions attempt)
    /\ map m_id (r_mistakes r)
       = map id (filter (fun q => negb (is_correct args_answers q)) (questions attempt))
    /\ (forall i, occurrences i (map m_id (r_mistakes r))
                  <= occurrences i (map id (questions attempt)))
    /\ (forall i, occurrences i (map id (questions attempt)) <= 1 ->
                  occurrences i (map m_id (r_mistakes r)) <= 1).
Proof.
  intros Hr. destruct (submit_ok_inv _ _ _ _ _ Hr) as [attempt [Hget [_ [_ ->]]]].
  exists attempt. split; [assumption|].
  unfold submitted. cbn [r_score r_mistakes r_total].
  rewrite grade_score, grade_mistakes, length_map, mistake_ids.
  assert (Hocc : forall i,
             occurrences i
               (map id (filter (fun q => negb (is_correct args_answers q))
                          (questions attempt)))
             <= occurrences i (map id (questions attempt)))
    by (intros i; apply occurrences_filter).
  repeat split.
  - apply filter_split_length.
  - exact Hocc.
  - intros i Hi. specialize (Hocc i). lia.
Qed.

(** C7, as the code has it: the weak topics of a submission are the first
    four of a ranking without repetition that holds exactly the topics with
    at least one question not scored correct, save the topics named like a
    member of Object.prototype, which are never listed. The ranking is by
    descending number of misses; topics with equal misses stand in the order
    in which the statistics object lists its properties: topics that are
    array indices first, in ascending numeric order, then the others in the
    order of their first occurrence among the questions. The suggestions
    are the three generic lines, preceded by the line of the weak topics
    iff the list of weak topics is not empty, that is iff some topic not
    named like a member of Object.prototype has a miss. *)
Theorem weak_topics_ranked (ctx : Ctx) (attemptId : nat) (args_answers : Answers)
  (args_durationSec : num) (r : Submitted) :
  fst (submitAttempt ctx attemptId args_answers args_durationSec) = Ok r ->
  exists attempt,
    db_get (examAttempts ctx) attemptId = Some attempt
    /\ r_weakTopics r = firstn 4 (graded_ranking args_answers (questions attempt))
    /\ List.length (r_weakTopics r) <= 4
    /\ NoDup (graded_ranking args_answers (questions attempt))
    /\ (forall t, In t (graded_ranking args_answers (questions attempt))
                  <-> 0 < missed args_answers (questions attempt) t
                      /\ inherited t = false)
    /\ StronglySorted (ranked_before args_answers (questions attempt))
         (graded_ranking args_answers (questions attempt))
    /\ StronglySorted (ranked_before args_answers (questions attempt)) (r_weakTopics r)
    /\ r_suggestions r
       = match r_weakTopics r with
         | [] => generic_suggestions
         | _ :: _ => focus_line (r_weakTopics r) :: generic_suggestions
         end
    /\ List.length generic_suggestions = 3
    /\ 3 <= List.length (r_suggestions r)
    /\ (r_weakTopics r <> []
        <-> exists t, 0 < missed args_answers (questions attempt) t
                      /\ inherited t = false).
Proof.
  intros Hr. destruct (submit_ok_inv _ _ _ _ _ Hr) as [attempt [Hget [_ [_ ->]]]].
  exists attempt. split; [assumption|].
  unfold submitted. cbn [r_weakTopics r_suggestions].
  unfold weakTopics_of. fold (graded_ranking args_answers (questions attempt)).
  set (full := graded_ranking args_answers (questions attempt)).
  assert (Hin := ranking_In args_answers (questions attempt)). fold full in Hin.
  assert (Hsorted := ranking_sorted args_answers (questions attempt)). fold full in Hsorted.
  repeat split.
  - apply firstn_le_length.
  - apply ranking_NoDup.
  - now apply Hin.
  - now apply Hin.
  - now apply Hin.
  - exact Hsorted.
  - now apply StronglySorted_firstn.
  - unfold suggestions_of. destruct (firstn 4 full); simpl; lia.
  - intros Hne. destruct full as [|t rest] eqn:E; [now destruct Hne|].
    exists t. apply Hin. now left.
  - intros [t Ht] Hnil. apply Hin in Ht.
    destruct full as [|t' rest]; [contradiction | discriminate].
Qed.

End Host.

(** *** The scenarios of the specification, run *)

Definition question_1 : Question :=
  {| id := of_Z 1; type := mcq; question := "Q1";
     options := Some ["a"; "b"; "c"; "d"];
     answer := Some (ANum (of_Z 2)); marks := Some (of_Z 1);
     topic := Some "operating_systems"; explanation := None |}.

Definition question_2 : Question :=
  {| id := of_Z 2; type := nat_; question := "Q2";
     options := None;
     answer := Some (ANum (of_Z 12)); marks := Some (of_Z 2);
     topic := Some "linear_algebra"; explanation := None |}.

Definition signed_in (table : Table) : Ctx :=
  {| currentUser := Some 1; examAttempts := table; now := 1000%Z |}.

(** The table after the caller created an attempt with [qs]. *)
Definition created (qs : list Question) : Table :=
  snd (createAttempt (signed_in []) qs).

Definition submit_example (qs : list Question) (args_answers : Answers)
  : Mutation Submitted :=
  submitAttempt integer_text decimal_value (signed_in (created qs)) 0
    args_answers (of_Z 30).

(** Section 8, first end-to-end scenario: index 2 and the value 11.995
    against 12 are both correct. *)
Example end_to_end_all_correct :
  exists r,
    fst (submit_example [question_1; question_2]
           [("1", ANum (of_Z 2)); ("2", ANum (Fin (Qmake 11995 1000)))]) = Ok r
    /\ r_score r = 2 /\ r_mistakes r = [] /\ r_weakTopics r = [].
Proof. eexists. vm_compute. repeat split. Qed.

(** Section 8, second scenario: a wrong index and an unanswered question. *)
Example end_to_end_none_correct :
  exists r,
    fst (submit_example [question_1; question_2] [("1", ANum (of_Z 0))]) = Ok r
    /\ r_score r = 0
    /\ map m_id (r_mistakes r) = [of_Z 1; of_Z 2]
    /\ map m_yours (r_mistakes r) = ["0"; "blank"]
    /\ r_weakTopics r = ["operating_systems"; "linear_algebra"].
Proof. eexists. vm_compute. repeat split. Qed.

(** The tolerance in double precision. The literal 12.01 is the double a
    little below that decimal: against the stored 12 its difference is
    below the literal 0.01 and it is scored correct, where the decimals are
    one hundredth apart. Against a stored [2^-61] the submitted literal 0.01
    is less than one hundredth away, but the difference rounds to the
    literal 0.01 itself, which is not below it: a mistake. *)
Definition tiny_answer : Question :=
  {| id := of_Z 2; type := nat_; question := "Q2"; options := None;
     answer := Some (ANum (Fin (Qmake 1 (2 ^ 61)))); marks := Some (of_Z 1);
     topic := None; explanation := None |}.

Example tolerance_in_double_precision :
  double (Qmake 1201 100) = Fin (Qmake 6761028940589957 (2 ^ 49))
  /\ is_correct integer_text decimal_value
       [("2", ANum (double (Qmake 1201 100)))] question_2 = true
  /\ Qle_bool Double.hundredth (Qabs (Qminus (Qmake 1201 100) (inject_Z 12)))
     = true
  /\ tolerance = Fin (Qmake 5764607523034235 (2 ^ 59))
  /\ is_correct integer_text decimal_value [("2", ANum tolerance)] tiny_answer
     = false
  /\ Qle_bool Double.hundredth
       (Qabs (Qminus (Qmake 5764607523034235 (2 ^ 59)) (Qmake 1 (2 ^ 61))))
     = false.
Proof. repeat split; vm_compute; reflexivity. Qed.

(** *** Witnesses *)

Lemma createAttempt_opens_witness :
  currentUser (signed_in []) = Some 1
  /\ exists attemptId attempt,
       fst (createAttempt (signed_in []) [question_1; question_2]) = Ok attemptId
       /\ db_get (created [question_1; question_2]) attemptId = Some attempt
       /\ completed attempt = false
       /\ total attempt = 2.
Proof.
  split; [reflexivity|].
  destruct (createAttempt_opens (signed_in []) [question_1; question_2] 1 eq_refl)
    as [attemptId [attempt [H1 [H2 [H3 [H4 _]]]]]].
  exists attemptId, attempt. repeat split; assumption.
Defined.

Lemma submit_guards_witness :
  currentUser (signed_in (created [question_1])) = Some 1
  /\ submitAttempt integer_text decimal_value (signed_in (created [question_1])) 5
       [] (of_Z 30)
     = (Throw (Error "Attempt not found"), created [question_1]).
Proof.
  split; [reflexivity|].
  exact (proj1 (submit_guards integer_text decimal_value
                  (signed_in (created [question_1])) 5 [] (of_Z 30) 1 eq_refl)
           eq_refl).
Defined.

Lemma scoring_rules_witness :
  (currentUser (signed_in (created [question_1; question_2])) = Some 1
   /\ db_get (created [question_1; question_2]) 0
      = Some {| userId := 1; questions := [question_1; question_2]; answers := [];
                score := 0; total := 2; durationSec := of_Z 0;
                guidance := {| weakTopics := []; suggestions := [] |};
                completed := false; startedAt := 1000%Z; submittedAt := None |})
  /\ exists r,
       fst (submit_example [question_1; question_2] [("1", ANum (of_Z 2))]) = Ok r
       /\ r_score r <= 2.
Proof.
  split; [split; reflexivity|].
  destruct (scoring_rules integer_text decimal_value
              (signed_in (created [question_1; question_2])) 0
              [("1", ANum (of_Z 2))] (of_Z 30) 1 _ eq_refl eq_refl eq_refl eq_refl)
    as [r [H1 [_ [H3 _]]]].
  exists r. split; assumption.
Defined.

Lemma each_question_counted_witness :
  fst (submit_example [question_1; question_2] [("1", ANum (of_Z 0))])
  = Ok (submitted integer_text decimal_value [("1", ANum (of_Z 0))]
          {| userId := 1; questions := [question_1; question_2]; answers := [];
             score := 0; total := 2; durationSec := of_Z 0;
             guidance := {| weakTopics := []; suggestions := [] |};
             completed := false; startedAt := 1000%Z; submittedAt := None |})
  /\ exists attempt,
       db_get (created [question_1; question_2]) 0 = Some attempt
       /\ 0 + 2 = List.length (questions attempt).
Proof.
  split; [reflexivity|].
  destruct (each_question_counted integer_text decimal_value
              (signed_in (created [question_1; question_2])) 0
              [("1", ANum (of_Z 0))] (of_Z 30) _ eq_refl)
    as [attempt [H1 [H2 _]]].
  exists attempt. split; [exact H1 | exact H2].
Defined.

Lemma weak_topics_ranked_witness :
  fst (submit_example [question_1; question_2] [("1", ANum (of_Z 0))])
  = Ok (submitted integer_text decimal_value [("1", ANum (of_Z 0))]
          {| userId := 1; questions := [question_1; question_2]; answers := [];
             score := 0; total := 2; durationSec := of_Z 0;
             guidance := {| weakTopics := []; suggestions := [] |};
             completed := false; startedAt := 1000%Z; submittedAt := None |})
  /\ exists attempt,
       db_get (created [question_1; question_2]) 0 = Some attempt
       /\ StronglySorted
            (ranked_before integer_text decimal_value [("1", ANum (of_Z 0))]
               (questions attempt))
            ["operating_systems"; "linear_algebra"].
Proof.
  split; [reflexivity|].
  destruct (weak_topics_ranked integer_text decimal_value
              (signed_in (created [question_1; question_2])) 0
              [("1", ANum (of_Z 0))] (of_Z 30) _ eq_refl)
    as [attempt [H1 [_ [_ [_ [_ [_ [H7 _]]]]]]]].
  exists attempt. split; [exact H1 | exact H7].
Defined.

(** *** Where the claims as stated fail *)

(** C9 as stated fails: the empty sequence of questions is accepted, and
    an attempt without questions is stored. *)
Lemma createAttempt_accepts_empty :
  createAttempt (signed_in []) []
  = (Ok 0,
     [ {| userId := 1; questions := []; answers := []; score := 0; total := 0;
          durationSec := of_Z 0;
          guidance := {| weakTopics := []; suggestions := [] |};
          completed := false; startedAt := 1000%Z; submittedAt := None |} ]).
Proof. reflexivity. Qed.

Definition question_without_answer : Question :=
  {| id := of_Z 1; type := mcq; question := "Q";
     options := Some ["a"; "b"; "c"; "d"];
     answer := None; marks := None; topic := None; explanation := None |}.

(** C4 as stated fails: a multiple-choice question that stores no correct
    index is scored correct when -1 is submitted. *)
Lemma mcq_sentinel_scored_correct :
  answer question_without_answer = None
  /\ exists r,
       fst (submit_example [question_without_answer] [("1", ANum (of_Z (-1)))]) = Ok r
       /\ r_score r = 1
       /\ r_mistakes r = [].
Proof. split; [reflexivity|]. eexists. vm_compute. repeat split. Qed.

Definition on_topic (i : Z) (t : string) : Question :=
  {| id := of_Z i; type := mcq; question := "Q";
     options := Some ["a"; "b"; "c"; "d"];
     answer := Some (ANum (of_Z 0)); marks := None; topic := Some t;
     explanation := None |}.

(** C7 as stated fails: with one unanswered question on each of the topics
    b, 1 and toString, the three topics have one miss each; toString is not
    listed, and 1 is listed before b although b occurs first. *)
Lemma weak_topics_not_by_first_occurrence :
  exists r,
    fst (submit_example [on_topic 1 "b"; on_topic 2 "1"; on_topic 3 "toString"] [])
    = Ok r
    /\ r_weakTopics r = ["1"; "b"]
    /\ map m_topic (r_mistakes r) = ["b"; "1"; "toString"]
    /\ first_pos "b" ["b"; "1"; "toString"] < first_pos "1" ["b"; "1"; "toString"].
Proof. eexists. vm_compute. repeat split; repeat constructor. Qed.

(** C10 as stated fails: two questions may carry the same identifier, which
    then occurs twice in the mistakes. *)
Lemma repeated_id_in_mistakes :
  exists r,
    fst (submit_example [on_topic 1 "b"; on_topic 1 "c"] []) = Ok r
    /\ map m_id (r_mistakes r) = [of_Z 1; of_Z 1]
    /\ occurrences (of_Z 1) (map m_id (r_mistakes r)) = 2.
Proof. eexists. vm_compute. repeat split. Qed.

End Exams.

(* ===================================================================== *)
(** ** The exam module: listing, and the life of an attempt *)
(* ===================================================================== *)

Module Attempts.
Import JS Exams.

(** The documents of a table with their identifiers, from [i] on. *)
Fixpoint indexed {A : Type} (i : nat) (t : list A) : list (nat * A) :=
  match t with
  | [] => []
  | a :: rest => (i, a) :: indexed (S i) rest
  end.

(** [.withIndex("by_user", (q) => q.eq("userId", user)))]: the documents of
    the user in the order of the index, which after the user is the order
    of creation. *)
Definition by_user (user : UserId) (t : Table) : list (nat * Attempt) :=
  filter (fun e => userId (snd e) =? user) (indexed 0 t).

(** [listAttempts]: [.order("desc").take(10)] over the index, the empty
    list when nobody is signed in. *)
Definition listAttempts (ctx : Ctx) : list (nat * Attempt) :=
  match currentUser ctx with
  | None => []
  | Some user => firstn 10 (rev (by_user user (examAttempts ctx)))
  end.

(** Two questions the grading loop cannot tell apart: it reads the
    identifier, the type, the answer and the topic of a question. *)
Definition graded_alike (q q' : Question) : Prop :=
  id q = id q' /\ type q = type q' /\ answer q = answer q' /\ topic q = topic q'.

(** The answer of a question can be met: a number that is not [NaN] for a
    multiple-choice question, a finite number after conversion for a
    numerical one. *)
Definition answerable (StringToNumber : string -> num) (q : Question) : bool :=
  match type q with
  | mcq => match answer q with
           | Some (ANum c) => negb (isNaN c)
           | _ => false
           end
  | nat_ => match to_number StringToNumber (answer q) with
            | Fin _ => true
            | _ => false
            end
  end.

(** *** Facts on the index *)

Lemma indexed_In {A : Type} (t : list A) (k i : nat) (a : A) :
  In (i, a) (indexed k t) <-> k <= i /\ nth_error t (i - k) = Some a.
Proof.
  revert k. induction t as [|x t IH]; intros k; simpl.
  - split; [contradiction|]. intros [_ H]. now destruct (i - k).
  - rewrite IH. split.
    + intros [H|[Hle Hn]].
      * injection H as <- <-. rewrite Nat.sub_diag. now split.
      * split; [lia|]. replace (i - k) with (S (i - S k)) by lia. exact Hn.
    + intros [Hle Hn]. destruct (Nat.eq_dec k i) as [->|Hne].
      * left. rewrite Nat.sub_diag in Hn. simpl in Hn. now injection Hn as ->.
      * right. split; [lia|].
        replace (i - k) with (S (i - S k)) in Hn by lia. exact Hn.
Qed.

Lemma indexed_sorted {A : Type} (t : list A) (k : nat) :
  StronglySorted (fun x y => fst x < fst y) (indexed k t).
Proof.
  revert k. induction t as [|x t IH]; intros k; simpl; constructor; [apply IH|].
  apply Forall_forall. intros [i a] H. apply indexed_In in H. simpl. lia.
Qed.

Lemma indexed_snoc {A : Type} (t : list A) (k : nat) (a : A) :
  indexed k (t ++ [a]) = indexed k t ++ [(k + List.length t, a)].
Proof.
  revert k. induction t as [|x t IH]; intros k; simpl.
  - now rewrite Nat.add_0_r.
  - rewrite IH. now rewrite Nat.add_succ_comm.
Qed.

Lemma by_user_In (user : UserId) (t : Table) (i : nat) (a : Attempt) :
  In (i, a) (by_user user t) <-> db_get t i = Some a /\ userId a = user.
Proof.
  unfold by_user, db_get. rewrite filter_In, indexed_In, Nat.sub_0_r. simpl.
  rewrite Nat.eqb_eq. split; [tauto|]. intros [H1 H2]. repeat split; auto. lia.
Qed.

Lemma StronglySorted_rev {A : Type} (R : A -> A -> Prop) (l : list A) :
  StronglySorted R l -> StronglySorted (fun x y => R y x) (rev l).
Proof.
  induction 1 as [|x l Hs IH Hx]; simpl; [constructor|].
  apply StronglySorted_app; [assumption | repeat constructor|].
  intros a b Ha [<-|[]]. rewrite Forall_forall in Hx. apply Hx.
  now apply in_rev.
Qed.

Lemma StronglySorted_app_inv {A : Type} (R : A -> A -> Prop) (l1 l2 : list A)
  (x y : A) :
  StronglySorted R (l1 ++ l2) -> In x l1 -> In y l2 -> R x y.
Proof.
  induction l1 as [|a l1 IH]; simpl; [contradiction|].
  intros Hs [<-|Hx] Hy; inversion Hs as [|? ? Hs' Ha]; subst.
  - rewrite Forall_forall in Ha. apply Ha. apply in_or_app. now right.
  - now apply IH.
Qed.

Lemma listed_newest_first (user : UserId) (t : Table) :
  StronglySorted (fun x y => fst y < fst x) (rev (by_user user t)).
Proof.
  apply StronglySorted_rev with (R := fun x y : nat * Attempt => fst x < fst y).
  apply StronglySorted_filter, indexed_sorted.
Qed.

Lemma db_patch_length (t : Table) (i : nat) (f : Attempt -> Attempt) :
  List.length (db_patch t i f) = List.length t.
Proof.
  revert i. induction t as [|a t IH]; intros [|i]; simpl; auto.
Qed.

Lemma db_patch_other (t : Table) (i j : nat) (f : Attempt -> Attempt) :
  i <> j -> db_get (db_patch t i f) j = db_get t j.
Proof.
  unfold db_get. revert i j.
  induction t as [|a t IH]; intros [|i] [|j] H; simpl; auto.
  contradiction.
Qed.

Lemma indexed_patch (t : Table) (i k : nat) (f : Attempt -> Attempt) :
  indexed k (db_patch t i f)
  = map (fun e => if fst e =? k + i then (fst e, f (snd e)) else e) (indexed k t).
Proof.
  revert i k. induction t as [|a t IH]; intros i k; simpl; [reflexivity|].
  destruct i as [|i]; simpl.
  - rewrite Nat.add_0_r, Nat.eqb_refl. f_equal.
    rewrite <- (map_id (indexed (S k) t)) at 1. apply map_ext_in.
    intros [j b] H. apply indexed_In in H. simpl.
    destruct (Nat.eqb_spec j k); [lia | reflexivity].
  - destruct (Nat.eqb_spec k (k + S i)); [lia|]. f_equal.
    rewrite IH. apply map_ext. intros e.
    now replace (S k + i) with (k + S i) by lia.
Qed.

Lemma filter_map_commute {A : Type} (p : A -> bool) (g : A -> A) (l : list A) :
  (forall x, In x l -> p (g x) = p x) -> filter p (map g l) = map g (filter p l).
Proof.
  intros H. induction l as [|x l IH]; simpl; [reflexivity|].
  rewrite H by now left.
  destruct (p x); simpl; rewrite IH; auto; intros y Hy; apply H; now right.
Qed.

Lemma In_firstn {A : Type} (n : nat) (l : list A) (x : A) :
  In x (firstn n l) -> In x l.
Proof.
  intros H. rewrite <- (firstn_skipn n l). apply in_or_app. now left.
Qed.

Lemma firstn_full {A : Type} (n : nat) (l : list A) (x : A) :
  In x l -> In x (firstn n l) \/ List.length (firstn n l) = n.
Proof.
  intros H. destruct (Nat.le_gt_cases (List.length l) n) as [Hle|Hgt].
  - left. now rewrite firstn_all2.
  - right. apply firstn_length_le. lia.
Qed.

Lemma firstn_nil_iff {A : Type} (n : nat) (l : list A) :
  firstn (S n) l = [] <-> l = [].
Proof. destruct l; simpl; split; intros H; congruence. Qed.

Section Host.

Variable NumberToString : num -> string.
Variable StringToNumber : string -> num.

(** *** Listing *)

(** X1: [listAttempts] returns at most ten attempts, all of the caller, newest
    first and without a gap: an attempt of the caller newer than a listed
    one is listed, and one is left out only when ten are listed. Nobody
    signed in gets the empty list. *)
Theorem listAttempts_newest_ten (ctx : Ctx) :
  List.length (listAttempts ctx) <= 10
  /\ StronglySorted (fun x y => fst y < fst x) (listAttempts ctx)
  /\ (forall i a, In (i, a) (listAttempts ctx) ->
        db_get (examAttempts ctx) i = Some a
        /\ currentUser ctx = Some (userId a))
  /\ (forall i a j b, In (i, a) (listAttempts ctx) -> i < j ->
        db_get (examAttempts ctx) j = Some b -> userId b = userId a ->
        In (j, b) (listAttempts ctx))
  /\ (forall i a, db_get (examAttempts ctx) i = Some a ->
        currentUser ctx = Some (userId a) ->
        In (i, a) (listAttempts ctx) \/ List.length (listAttempts ctx) = 10)
  /\ (currentUser ctx = None -> listAttempts ctx = []).
Proof.
  unfold listAttempts. destruct (currentUser ctx) as [user|].
  2:{ simpl. repeat split; try constructor; try contradiction; try discriminate.
      lia. }
  pose proof (listed_newest_first user (examAttempts ctx)) as Hs.
  set (l := rev (by_user user (examAttempts ctx))) in *.
  assert (Hin : forall i a, In (i, a) l <->
            db_get (examAttempts ctx) i = Some a /\ userId a = user).
  { intros i a. unfold l. rewrite <- in_rev. apply by_user_In. }
  split; [apply firstn_le_length|].
  split; [now apply StronglySorted_firstn|].
  split.
  { intros i a H. apply In_firstn, Hin in H. destruct H as [H <-]. now split. }
  split.
  { intros i a j b Hi Hlt Hj Hu.
    assert (Hl : In (j, b) l).
    { apply Hin. split; [assumption|].
      apply In_firstn, Hin in Hi. destruct Hi as [_ Hi]. congruence. }
    rewrite <- (firstn_skipn 10 l) in Hl, Hs.
    apply in_app_or in Hl. destruct Hl as [Hl|Hl]; [assumption|].
    pose proof (StronglySorted_app_inv _ _ _ _ _ Hs Hi Hl) as H. simpl in H. lia. }
  split; [|discriminate].
  intros i a Hg Hu. injection Hu as Hu. apply firstn_full. apply Hin. now split.
Qed.

(** X2: An attempt is listed first right after its creation, open and with the
    questions it was created with. *)
Theorem created_attempt_listed_first (ctx : Ctx) (qs : list Question)
  (attemptId : nat) (later : Z) :
  fst (createAttempt ctx qs) = Ok attemptId ->
  exists a,
    hd_error (listAttempts {| currentUser := currentUser ctx;
                              examAttempts := snd (createAttempt ctx qs);
                              now := later |}) = Some (attemptId, a)
    /\ questions a = qs /\ completed a = false /\ answers a = [].
Proof.
  unfold createAttempt, listAttempts, db_insert. simpl.
  destruct (currentUser ctx) as [user|]; simpl; [|discriminate].
  intros H. injection H as <-. eexists. split.
  - unfold by_user. rewrite indexed_snoc, filter_app. simpl.
    rewrite Nat.eqb_refl, rev_app_distr. simpl. reflexivity.
  - repeat split.
Qed.

(** *** One submission *)

Lemma submit_ok_table (ctx : Ctx) (attemptId : nat) (args_answers : Answers)
  (args_durationSec : num) (r : Submitted) :
  fst (submitAttempt NumberToString StringToNumber ctx attemptId args_answers
         args_durationSec) = Ok r ->
  exists old new,
    db_get (examAttempts ctx) attemptId = Some old
    /\ currentUser ctx = Some (userId old)
    /\ completed old = false
    /\ r = submitted NumberToString StringToNumber args_answers old
    /\ new = {| userId := userId old; questions := questions old;
                answers := args_answers; score := r_score r;
                total := total old;
                durationSec := Math_max (of_Z 0) (Math_floor args_durationSec);
                guidance := {| weakTopics := r_weakTopics r;
                               suggestions := r_suggestions r |};
                completed := true; startedAt := startedAt old;
                submittedAt := Some (now ctx) |}
    /\ snd (submitAttempt NumberToString StringToNumber ctx attemptId args_answers args_durationSec)
       = db_patch (examAttempts ctx) attemptId (fun _ => new).
Proof.
  unfold submitAttempt.
  destruct (currentUser ctx) as [user|]; [|discriminate].
  destruct (db_get (examAttempts ctx) attemptId) as [old|] eqn:Hget;
    [|discriminate].
  destruct (userId old =? user) eqn:Hu; simpl; [|discriminate].
  destruct (completed old) eqn:Hc; [discriminate|]. simpl.
  intros H. injection H as <-. apply Nat.eqb_eq in Hu. subst user.
  exists old. eexists. do 5 (split; [first [reflexivity | assumption]|]).
  unfold db_get in Hget. clear Hc. revert Hget.
  generalize attemptId as i. induction (examAttempts ctx) as [|a t IH];
    intros [|i] Hget; simpl in *; try discriminate.
  - now injection Hget as ->.
  - f_equal. now apply IH.
Qed.

(** X3: A successful submission changes one document: every other attempt is
    as before, and in the submitted one the owner, the questions, the total
    and the start time are kept, while the answers, the score and the
    guidance stored are those given and returned, and it is marked
    completed at the time of the call. *)
Theorem submit_changes_one_attempt (ctx : Ctx) (attemptId : nat)
  (args_answers : Answers) (args_durationSec : num) (r : Submitted) :
  fst (submitAttempt NumberToString StringToNumber ctx attemptId args_answers
         args_durationSec) = Ok r ->
  let table :=
    snd (submitAttempt NumberToString StringToNumber ctx attemptId args_answers
           args_durationSec) in
  List.length table = List.length (examAttempts ctx)
  /\ (forall j, j <> attemptId -> db_get table j = db_get (examAttempts ctx) j)
  /\ exists old new,
       db_get (examAttempts ctx) attemptId = Some old
       /\ db_get table attemptId = Some new
       /\ userId new = userId old /\ questions new = questions old
       /\ total new = total old /\ startedAt new = startedAt old
       /\ answers new = args_answers /\ score new = r_score r
       /\ weakTopics (guidance new) = r_weakTopics r
       /\ suggestions (guidance new) = r_suggestions r
       /\ completed new = true /\ submittedAt new = Some (now ctx).
Proof.
  intros H table. destruct (submit_ok_table _ _ _ _ _ H)
    as [old [new [Hget [_ [_ [_ [Hnew Ht]]]]]]].
  unfold table. rewrite Ht. split; [apply db_patch_length|].
  split; [intros j Hj; apply db_patch_other; congruence|].
  exists old, new. split; [assumption|].
  split; [rewrite db_get_patch_same, Hget; reflexivity|].
  subst new. simpl. repeat split.
Qed.

(** X4: A submission does not reorder a listing: whoever looks, the same
    attempts are listed in the same order before and after, and only the
    submitted one reads differently. *)
Theorem submit_keeps_listing (ctx : Ctx) (attemptId : nat)
  (args_answers : Answers) (args_durationSec : num) (r : Submitted)
  (viewer : option UserId) (later : Z) :
  fst (submitAttempt NumberToString StringToNumber ctx attemptId args_answers
         args_durationSec) = Ok r ->
  Forall2 (fun x y => fst x = fst y /\ (fst x <> attemptId -> snd x = snd y))
    (listAttempts {| currentUser := viewer;
                     examAttempts :=
                       snd (submitAttempt NumberToString StringToNumber ctx attemptId args_answers
                              args_durationSec);
                     now := later |})
    (listAttempts {| currentUser := viewer;
                     examAttempts := examAttempts ctx;
                     now := now ctx |}).
Proof.
  intros H. destruct (submit_ok_table _ _ _ _ _ H)
    as [old [new [Hget [_ [_ [_ [Hnew Ht]]]]]]].
  rewrite Ht. unfold listAttempts. cbn [currentUser examAttempts].
  destruct viewer as [user|]; [|constructor].
  assert (Hown : userId new = userId old) by (subst new; reflexivity).
  unfold by_user. rewrite indexed_patch. cbn [Nat.add snd].
  rewrite filter_map_commute.
  2:{ intros [j b] Hb. simpl. destruct (Nat.eqb_spec j attemptId); [|reflexivity].
      simpl. subst j. apply indexed_In in Hb. destruct Hb as [_ Hb].
      rewrite Nat.sub_0_r in Hb. unfold db_get in Hget. congruence. }
  rewrite <- map_rev, firstn_map.
  induction (firstn 10 (rev (filter (fun e : nat * Attempt => userId (snd e) =? user)
                               (indexed 0 (examAttempts ctx))))) as [|x l IH];
    simpl; constructor; [|exact IH].
  destruct (Nat.eqb_spec (fst x) attemptId); simpl; split; congruence.
Qed.

(** X5: An attempt is submitted once: after a successful submission every
    further submission of it fails and writes nothing, for its owner with
    [Attempt already submitted]. *)
Theorem submit_only_once (ctx ctx' : Ctx) (attemptId : nat)
  (args_answers args_answers' : Answers) (args_durationSec args_durationSec' : num)
  (r : Submitted) :
  fst (submitAttempt NumberToString StringToNumber ctx attemptId args_answers
         args_durationSec) = Ok r ->
  examAttempts ctx'
  = snd (submitAttempt NumberToString StringToNumber ctx attemptId args_answers
           args_durationSec) ->
  exists e,
    submitAttempt NumberToString StringToNumber ctx' attemptId args_answers'
      args_durationSec' = (Throw e, examAttempts ctx')
    /\ (currentUser ctx' = currentUser ctx ->
        e = Error "Attempt already submitted").
Proof.
  intros H Ht. destruct (submit_ok_table _ _ _ _ _ H)
    as [old [new [Hget [Hu [_ [_ [Hnew Hp]]]]]]].
  assert (Hget' : db_get (examAttempts ctx') attemptId = Some new).
  { rewrite Ht, Hp, db_get_patch_same, Hget. reflexivity. }
  unfold submitAttempt. rewrite Hget'.
  destruct (currentUser ctx') as [user|] eqn:Hc.
  - replace (userId new) with (userId old) by (subst new; reflexivity).
    replace (completed new) with true by (subst new; reflexivity).
    destruct (Nat.eqb_spec (userId old) user) as [Heq|Hne]; simpl.
    + eexists. split; reflexivity.
    + eexists. split; [reflexivity|]. intros E. rewrite Hu in E. congruence.
  - eexists. split; [reflexivity|]. intros E. rewrite Hu in E. discriminate.
Qed.

(** X6: Creation and submission compose: the attempt just created can be
    submitted by its creator, whatever the answers, and the total returned
    is the number of questions given at creation; anybody else signed in is
    refused, and nothing is written. *)
Theorem create_then_submit (ctx ctx' : Ctx) (qs : list Question)
  (attemptId : nat) (args_answers : Answers) (args_durationSec : num) :
  fst (createAttempt ctx qs) = Ok attemptId ->
  examAttempts ctx' = snd (createAttempt ctx qs) ->
  (currentUser ctx' = currentUser ctx ->
   exists r,
     fst (submitAttempt NumberToString StringToNumber ctx' attemptId
            args_answers args_durationSec) = Ok r
     /\ r_total r = List.length qs
     /\ r_score r + List.length (r_mistakes r) = List.length qs)
  /\ (forall other, currentUser ctx' = Some other ->
      currentUser ctx <> Some other ->
      submitAttempt NumberToString StringToNumber ctx' attemptId
        args_answers args_durationSec
      = (Throw (Error "Not authorized to submit this attempt"),
         examAttempts ctx')).
Proof.
  unfold createAttempt. destruct (currentUser ctx) as [user|]; [|discriminate].
  set (a := {| userId := user; questions := qs |}).
  pose proof (db_get_insert_new (examAttempts ctx) a) as Hnew.
  destruct (db_insert (examAttempts ctx) a) as [i table] eqn:Hi.
  simpl in *. intros H Ht. injection H as ->. rewrite <- Ht in Hnew. split.
  - intros Hu.
    destruct (submit_open NumberToString StringToNumber ctx' attemptId
                args_answers args_durationSec user a Hu Hnew eq_refl eq_refl)
      as [Hr _].
    eexists. split; [exact Hr|]. split; [reflexivity|].
    unfold submitted. cbn [r_score r_mistakes questions a].
    rewrite grade_score, grade_mistakes, length_map. apply filter_split_length.
  - intros other Hu Hne. unfold submitAttempt. rewrite Hu, Hnew.
    destruct (Nat.eqb_spec (userId a) other) as [E|E]; [|reflexivity].
    simpl in E. congruence.
Qed.

(** *** Scores *)

Lemma answerable_correct (args_answers : Answers) (q : Question) :
  answerable StringToNumber q = true ->
  userAns NumberToString args_answers q = answer q ->
  is_correct NumberToString StringToNumber args_answers q = true.
Proof.
  unfold answerable, is_correct, correctIndex. intros Ha ->.
  destruct (type q).
  - destruct (answer q) as [[c|]|]; try discriminate.
    destruct c as [| | |x]; try discriminate; try reflexivity.
    simpl. apply Qeq_bool_refl.
  - destruct (to_number StringToNumber (answer q)) as [| | |x];
      try discriminate.
    cbn [isNaN negb andb minus sub].
    now rewrite (Double.double_zero (Qminus x x) (Qplus_opp_r x)).
Qed.

Lemma all_correct (args_answers : Answers) (qs : list Question) :
  (forall q, In q qs ->
     is_correct NumberToString StringToNumber args_answers q = true) ->
  filter (is_correct NumberToString StringToNumber args_answers) qs = qs
  /\ filter (fun q => negb (is_correct NumberToString StringToNumber
                              args_answers q)) qs = [].
Proof.
  induction qs as [|q qs IH]; intros H; simpl; [now split|].
  rewrite (H q) by now left. simpl.
  destruct IH as [-> ->]; [intros; apply H; now right|]. now split.
Qed.

Lemma none_correct (args_answers : Answers) (qs : list Question) :
  (forall q, In q qs ->
     is_correct NumberToString StringToNumber args_answers q = false) ->
  filter (is_correct NumberToString StringToNumber args_answers) qs = []
  /\ filter (fun q => negb (is_correct NumberToString StringToNumber
                              args_answers q)) qs = qs.
Proof.
  induction qs as [|q qs IH]; intros H; simpl; [now split|].
  rewrite (H q) by now left. simpl.
  destruct IH as [-> ->]; [intros; apply H; now right|]. now split.
Qed.

Lemma mistakes_on_topic (args_answers : Answers) (qs : list Question)
  (t : string) :
  List.length
    (filter (fun m => String.eqb (m_topic m) t)
       (g_mistakes (grade NumberToString StringToNumber args_answers qs)))
  = missed NumberToString StringToNumber args_answers qs t.
Proof.
  rewrite grade_mistakes. unfold missed.
  induction qs as [|q qs IH]; simpl; [reflexivity|].
  destruct (is_correct NumberToString StringToNumber args_answers q); simpl.
  - rewrite andb_false_r. exact IH.
  - rewrite andb_true_r. destruct (String.eqb (topic_of q) t); simpl;
      now rewrite IH.
Qed.

(** X7: Submitting the answer key gives the full score: when every question
    has an answer that can be met and that answer is the one submitted for
    it, the score is the number of questions, there is no mistake and no
    weak topic, and the suggestions are the three general ones. *)
Theorem answer_key_scores_full (ctx : Ctx) (attemptId : nat)
  (args_answers : Answers) (args_durationSec : num) (r : Submitted)
  (attempt : Attempt) :
  db_get (examAttempts ctx) attemptId = Some attempt ->
  (forall q, In q (questions attempt) ->
     answerable StringToNumber q = true
     /\ userAns NumberToString args_answers q = answer q) ->
  fst (submitAttempt NumberToString StringToNumber ctx attemptId args_answers
         args_durationSec) = Ok r ->
  r_score r = r_total r /\ r_total r = List.length (questions attempt)
  /\ r_mistakes r = [] /\ r_weakTopics r = []
  /\ r_suggestions r = generic_suggestions.
Proof.
  intros Hget Hall H. apply submit_ok_inv in H.
  destruct H as [a [Hget' [_ [_ ->]]]].
  assert (a = attempt) by congruence. subst a.
  assert (Hc : forall q, In q (questions attempt) ->
            is_correct NumberToString StringToNumber args_answers q = true).
  { intros q Hq. destruct (Hall q Hq). now apply answerable_correct. }
  destruct (all_correct _ _ Hc) as [H1 H2].
  assert (Hweak : weakTopics_of
            (g_topicStats (grade NumberToString StringToNumber args_answers
                             (questions attempt))) = []).
  { unfold weakTopics_of. apply firstn_nil_iff.
    destruct (graded_ranking NumberToString StringToNumber args_answers
                (questions attempt)) as [|t l] eqn:E; [exact E|].
    assert (Ht : In t (graded_ranking NumberToString StringToNumber
                         args_answers (questions attempt)))
      by (rewrite E; now left).
    apply ranking_In in Ht. destruct Ht as [Ht _].
    rewrite <- mistakes_on_topic, grade_mistakes, H2 in Ht. simpl in Ht. lia. }
  unfold submitted. cbn [r_score r_total r_mistakes r_weakTopics r_suggestions].
  rewrite Hweak, grade_score, grade_mistakes, H1, H2. repeat split.
Qed.

(** X8: A submission that answers none of the questions scores zero, and every
    question is a mistake, in the order of the questions, with [blank] as
    the answer given. *)
Theorem unanswered_scores_zero (ctx : Ctx) (attemptId : nat)
  (args_answers : Answers) (args_durationSec : num) (r : Submitted)
  (attempt : Attempt) :
  db_get (examAttempts ctx) attemptId = Some attempt ->
  (forall q, In q (questions attempt) ->
     userAns NumberToString args_answers q = None) ->
  fst (submitAttempt NumberToString StringToNumber ctx attemptId args_answers
         args_durationSec) = Ok r ->
  r_score r = 0
  /\ map m_id (r_mistakes r) = map id (questions attempt)
  /\ Forall (fun m => m_yours m = "blank") (r_mistakes r).
Proof.
  intros Hget Hall H. apply submit_ok_inv in H.
  destruct H as [a [Hget' [_ [_ ->]]]].
  assert (a = attempt) by congruence. subst a.
  assert (Hc : forall q, In q (questions attempt) ->
            is_correct NumberToString StringToNumber args_answers q = false).
  { intros q Hq. unfold is_correct. rewrite (Hall q Hq). simpl.
    destruct (type q); [reflexivity|]. now rewrite andb_false_r. }
  destruct (none_correct _ _ Hc) as [H1 H2].
  unfold submitted. cbn [r_score r_mistakes].
  rewrite grade_score, grade_mistakes, H1, H2.
  split; [reflexivity|]. split; [apply mistake_ids|].
  apply Forall_forall. intros m Hm. apply in_map_iff in Hm.
  destruct Hm as [q [<- Hq]]. unfold mistake_of. cbn [m_yours].
  now rewrite (Hall q Hq).
Qed.

(** X9: There is no negative marking: a submission that keeps every answer of
    another one and answers more never scores less. *)
Theorem more_answers_never_score_less (ctx ctx' : Ctx) (attemptId attemptId' : nat)
  (fewer more : Answers) (d d' : num) (r r' : Submitted) (attempt : Attempt) :
  db_get (examAttempts ctx) attemptId = Some attempt ->
  db_get (examAttempts ctx') attemptId' = Some attempt ->
  (forall k v, lookup k fewer = Some v -> lookup k more = Some v) ->
  fst (submitAttempt NumberToString StringToNumber ctx attemptId fewer d)
  = Ok r ->
  fst (submitAttempt NumberToString StringToNumber ctx' attemptId' more d')
  = Ok r' ->
  r_score r <= r_score r'.
Proof.
  intros Hget Hget' Hext H H'. apply submit_ok_inv in H, H'.
  destruct H as [a [Ha [_ [_ ->]]]]. destruct H' as [a' [Ha' [_ [_ ->]]]].
  assert (a = attempt) by congruence. assert (a' = attempt) by congruence.
  subst a a'. unfold submitted. cbn [r_score]. rewrite !grade_score.
  induction (questions attempt) as [|q qs IH]; simpl; [lia|].
  destruct (is_correct NumberToString StringToNumber fewer q) eqn:E.
  - replace (is_correct NumberToString StringToNumber more q) with true;
      [simpl; lia|].
    symmetry. revert E. unfold is_correct, userAns.
    destruct (lookup (NumberToString (id q)) fewer) as [v|] eqn:El.
    + now rewrite (Hext _ _ El).
    + simpl. destruct (type q); [discriminate|]. now rewrite andb_false_r.
  - destruct (is_correct NumberToString StringToNumber more q); simpl; lia.
Qed.

Lemma grade_alike (args_answers : Answers) (qs qs' : list Question) :
  Forall2 graded_alike qs qs' ->
  grade NumberToString StringToNumber args_answers qs
  = grade NumberToString StringToNumber args_answers qs'.
Proof.
  unfold grade. generalize {| g_score := 0; g_mistakes := []; g_topicStats := [] |}.
  intros g H. revert g. induction H as [|q q' qs qs' Hq _ IH]; intros g;
    simpl; [reflexivity|].
  rewrite IH. f_equal. destruct Hq as [H1 [H2 [H3 H4]]].
  destruct q, q'. simpl in *. subst.
  unfold grade_step, is_correct, topic_of, mistake_of, userAns, correctIndex.
  reflexivity.
Qed.

(** X10: The score is unweighted: two attempts whose questions agree on
    identifier, type, answer and topic, whatever their marks, texts,
    options and explanations, get the same result for the same answers. *)
Theorem marks_do_not_weigh (ctx ctx' : Ctx) (attemptId attemptId' : nat)
  (args_answers : Answers) (d d' : num) (r r' : Submitted)
  (attempt attempt' : Attempt) :
  db_get (examAttempts ctx) attemptId = Some attempt ->
  db_get (examAttempts ctx') attemptId' = Some attempt' ->
  Forall2 graded_alike (questions attempt) (questions attempt') ->
  fst (submitAttempt NumberToString StringToNumber ctx attemptId args_answers d)
  = Ok r ->
  fst (submitAttempt NumberToString StringToNumber ctx' attemptId' args_answers d')
  = Ok r' ->
  r = r'.
Proof.
  intros Hget Hget' Hq H H'. apply submit_ok_inv in H, H'.
  destruct H as [a [Ha [_ [_ ->]]]]. destruct H' as [a' [Ha' [_ [_ ->]]]].
  assert (a = attempt) by congruence. assert (a' = attempt') by congruence.
  subst a a'. unfold submitted. rewrite (grade_alike _ _ _ Hq).
  now rewrite (Forall2_length Hq).
Qed.

(** X11: Every weak topic is the topic of a returned mistake. There is no
    weak topic exactly when every mistake is on a topic named like an
    inherited member of objects; the suggestions then are the three general
    ones, and else the focus line followed by them. *)
Theorem weak_topics_come_from_mistakes (ctx : Ctx) (attemptId : nat)
  (args_answers : Answers) (args_durationSec : num) (r : Submitted) :
  fst (submitAttempt NumberToString StringToNumber ctx attemptId args_answers
         args_durationSec) = Ok r ->
  (forall t, In t (r_weakTopics r) ->
     exists m, In m (r_mistakes r) /\ m_topic m = t)
  /\ (r_weakTopics r = [] <->
      forall m, In m (r_mistakes r) -> inherited (m_topic m) = true)
  /\ (r_weakTopics r = [] -> r_suggestions r = generic_suggestions)
  /\ (r_weakTopics r <> [] ->
      r_suggestions r = focus_line (r_weakTopics r) :: generic_suggestions).
Proof.
  intros H. apply submit_ok_inv in H. destruct H as [a [_ [_ [_ ->]]]].
  unfold submitted.
  cbn [r_score r_total r_mistakes r_weakTopics r_suggestions].
  set (qs := questions a).
  assert (Hpos : forall t,
            0 < missed NumberToString StringToNumber args_answers qs t <->
            exists m, In m (g_mistakes (grade NumberToString StringToNumber
                                          args_answers qs))
                      /\ m_topic m = t).
  { intros t. rewrite <- mistakes_on_topic. split.
    - destruct (filter _ _) as [|m l] eqn:E; simpl; [lia|]. intros _.
      assert (Hm : In m (m :: l)) by now left.
      rewrite <- E in Hm. apply filter_In in Hm. destruct Hm as [Hm Ht].
      exists m. split; [assumption|]. now apply String.eqb_eq.
    - intros [m [Hm Ht]].
      assert (Hin : In m (filter (fun m => String.eqb (m_topic m) t)
                            (g_mistakes (grade NumberToString StringToNumber
                                           args_answers qs)))).
      { apply filter_In. split; [assumption|]. now apply String.eqb_eq. }
      destruct (filter _ _); [contradiction|]. simpl. lia. }
  unfold weakTopics_of.
  change (ranking (g_topicStats (grade NumberToString StringToNumber
                                   args_answers qs)))
    with (graded_ranking NumberToString StringToNumber args_answers qs).
  split.
  { intros t Ht. apply In_firstn, ranking_In in Ht. now apply Hpos. }
  split.
  { rewrite firstn_nil_iff. split.
    - intros E m Hm. destruct (inherited (m_topic m)) eqn:Ei; [reflexivity|].
      assert (Hin : In (m_topic m)
                      (graded_ranking NumberToString StringToNumber
                         args_answers qs)).
      { apply ranking_In. split; [|assumption]. apply Hpos. now exists m. }
      rewrite E in Hin. contradiction.
    - intros Hall.
      destruct (graded_ranking NumberToString StringToNumber args_answers qs)
        as [|t l] eqn:E; [reflexivity|].
      assert (Hin : In t (graded_ranking NumberToString StringToNumber
                            args_answers qs)) by (rewrite E; now left).
      apply ranking_In in Hin. destruct Hin as [Hm Hi].
      apply Hpos in Hm. destruct Hm as [m [Hm <-]].
      rewrite (Hall m Hm) in Hi. discriminate. }
  split.
  { intros ->. reflexivity. }
  intros Hne. unfold suggestions_of.
  destruct (firstn 4 _); [contradiction|reflexivity].
Qed.

(** X12: The duration stored is never negative: for a finite duration it is the
    whole number of seconds below it, and zero when that is negative; an
    infinite duration is stored as it is when positive and as zero when
    negative, and [NaN] is stored as [NaN]. *)
Theorem stored_duration (ctx : Ctx) (attemptId : nat)
  (args_answers : Answers) (args_durationSec : num) (r : Submitted) :
  fst (submitAttempt NumberToString StringToNumber ctx attemptId args_answers
         args_durationSec) = Ok r ->
  exists new,
    db_get (snd (submitAttempt NumberToString StringToNumber ctx attemptId
                   args_answers args_durationSec)) attemptId = Some new
    /\ lt (durationSec new) (of_Z 0) = false
    /\ durationSec new
       = match args_durationSec with
         | Fin q => of_Z (Z.max 0 (Qfloor q))
         | NegInf => of_Z 0
         | other => other
         end.
Proof.
  intros H. destruct (submit_ok_table _ _ _ _ _ H)
    as [old [new [Hget [_ [_ [_ [Hnew Ht]]]]]]].
  exists new. rewrite Ht, db_get_patch_same, Hget. split; [reflexivity|].
  subst new. cbn [durationSec].
  destruct args_durationSec as [| | |q]; try (split; reflexivity).
  unfold Math_floor, Math_max, of_Z, lt.
  destruct (Qle_bool (inject_Z (Qfloor q)) (inject_Z 0)) eqn:E; simpl.
  - apply Qle_bool_iff in E. rewrite <- Zle_Qle in E.
    rewrite Z.max_l by assumption. split; reflexivity.
  - assert (Hlt : (0 < Qfloor q)%Z).
    { destruct (Z.le_gt_cases (Qfloor q) 0) as [Hle|Hgt]; [|lia].
      rewrite Zle_Qle in Hle. apply Qle_bool_iff in Hle. congruence. }
    rewrite Z.max_r by lia. split; [|reflexivity].
    apply negb_false_iff, Qle_bool_iff. rewrite <- Zle_Qle. lia.
Qed.

Lemma spaced_no_underscore (t : string) : Ai.has 95 (spaced t) = false.
Proof.
  induction t as [|c t IH]; simpl; [reflexivity|]. rewrite IH, orb_false_r.
  destruct (code c =? 95) eqn:E; [reflexivity | exact E].
Qed.

Lemma has_append (n : nat) (s t : string) :
  Ai.has n (s ++ t) = Ai.has n s || Ai.has n t.
Proof.
  induction s as [|c s IH]; simpl; [reflexivity|]. now rewrite IH, orb_assoc.
Qed.

Lemma join_no_underscore (xs : list string) :
  Forall (fun x => Ai.has 95 x = false) xs -> Ai.has 95 (join xs) = false.
Proof.
  induction 1 as [|x xs Hx Hxs IH]; [reflexivity|].
  destruct xs as [|y ys]; [assumption|].
  change (join (x :: y :: ys)) with (x ++ ", " ++ join (y :: ys))%string.
  rewrite !has_append, Hx, IH. reflexivity.
Qed.

(** X13: No suggestion returned has an underscore: the topics of the focus line
    are written with spaces, whatever the topics of the questions. *)
Theorem suggestions_without_underscore (ctx : Ctx) (attemptId : nat)
  (args_answers : Answers) (args_durationSec : num) (r : Submitted) :
  fst (submitAttempt NumberToString StringToNumber ctx attemptId args_answers
         args_durationSec) = Ok r ->
  Forall (fun s => Ai.has 95 s = false) (r_suggestions r)
  /\ 3 <= List.length (r_suggestions r) <= 4.
Proof.
  intros H. apply submit_ok_inv in H. destruct H as [a [_ [_ [_ ->]]]].
  unfold submitted. cbn [r_suggestions].
  assert (Hg : Forall (fun s => Ai.has 95 s = false) generic_suggestions)
    by (repeat constructor).
  unfold suggestions_of. destruct (weakTopics_of _) as [|t l] eqn:E.
  - split; [assumption | simpl; lia].
  - split; [|simpl; lia]. constructor; [|assumption].
    unfold focus_line. rewrite has_append.
    change (Ai.has 95 "Focus next: ") with false. rewrite orb_false_l.
    apply join_no_underscore. apply Forall_forall. intros x Hx.
    apply in_map_iff in Hx. destruct Hx as [y [<- _]]. apply spaced_no_underscore.
Qed.

End Host.

(** *** Examples *)

(** The document [createAttempt] stores for [user] at time 1000. *)
Definition opened (user : UserId) (qs : list Question) : Attempt :=
  {| userId := user; questions := qs; answers := []; score := 0;
     total := List.length qs; durationSec := of_Z 0;
     guidance := {| weakTopics := []; suggestions := [] |};
     completed := false; startedAt := 1000%Z; submittedAt := None |}.

(** An attempt of user 1 and a later one of user 2. *)
Definition two_users : Table :=
  [opened 1 [question_1; question_2]; opened 2 [question_2]].

(** A wrong index for the first question, the right value for the second. *)
Definition one_wrong : Answers :=
  [("1", ANum (of_Z 0)); ("2", ANum (of_Z 12))].

Definition answer_key : Answers :=
  [("1", ANum (of_Z 2)); ("2", ANum (of_Z 12))].

(** User 1 submits the first attempt after thirty seconds and a half. *)
Definition submit_first (args_answers : Answers) : Mutation Submitted :=
  submitAttempt integer_text decimal_value (signed_in two_users) 0
    args_answers (Fin (Qmake 61 2)).

Definition returned (args_answers : Answers) : Submitted :=
  submitted integer_text decimal_value args_answers
    (opened 1 [question_1; question_2]).

(** The first question with other marks, text and options. *)
Definition question_1_reworded : Question :=
  {| id := of_Z 1; type := mcq; question := "Q1, reworded";
     options := Some ["d"; "c"; "b"; "a"];
     answer := Some (ANum (of_Z 2)); marks := Some (of_Z 2);
     topic := Some "operating_systems"; explanation := Some "because" |}.

Lemma created_attempt_listed_first_witness :
  fst (createAttempt (signed_in two_users) [question_1]) = Ok 2
  /\ exists a,
       hd_error (listAttempts
                   {| currentUser := Some 1;
                      examAttempts :=
                        snd (createAttempt (signed_in two_users) [question_1]);
                      now := 2000%Z |}) = Some (2, a)
       /\ questions a = [question_1].
Proof.
  split; [reflexivity|].
  destruct (created_attempt_listed_first (signed_in two_users) [question_1] 2
              2000%Z eq_refl) as [a [H1 [H2 _]]].
  exists a. split; [exact H1 | exact H2].
Defined.

Lemma submit_changes_one_attempt_witness :
  fst (submit_first one_wrong) = Ok (returned one_wrong)
  /\ List.length (snd (submit_first one_wrong)) = 2
  /\ db_get (snd (submit_first one_wrong)) 1 = Some (opened 2 [question_2]).
Proof.
  split; [reflexivity|].
  destruct (submit_changes_one_attempt integer_text decimal_value
              (signed_in two_users) 0 one_wrong (Fin (Qmake 61 2))
              (returned one_wrong) eq_refl) as [H1 [H2 _]].
  split; [exact H1 | exact (H2 1 (Nat.neq_succ_0 0))].
Defined.

Lemma submit_keeps_listing_witness :
  fst (submit_first one_wrong) = Ok (returned one_wrong)
  /\ Forall2 (fun x y => fst x = fst y /\ (fst x <> 0 -> snd x = snd y))
       (listAttempts {| currentUser := Some 1;
                        examAttempts := snd (submit_first one_wrong);
                        now := 2000%Z |})
       (listAttempts (signed_in two_users)).
Proof.
  split; [reflexivity|].
  exact (submit_keeps_listing integer_text decimal_value (signed_in two_users) 0
           one_wrong (Fin (Qmake 61 2)) (returned one_wrong) (Some 1) 2000%Z
           eq_refl).
Defined.

Lemma submit_only_once_witness :
  fst (submit_first one_wrong) = Ok (returned one_wrong)
  /\ exists e,
       submitAttempt integer_text decimal_value
         (signed_in (snd (submit_first one_wrong))) 0 answer_key (of_Z 5)
       = (Throw e, snd (submit_first one_wrong))
       /\ e = Error "Attempt already submitted".
Proof.
  split; [reflexivity|].
  destruct (submit_only_once integer_text decimal_value (signed_in two_users)
              (signed_in (snd (submit_first one_wrong))) 0 one_wrong answer_key
              (Fin (Qmake 61 2)) (of_Z 5) (returned one_wrong) eq_refl eq_refl)
    as [e [H1 H2]].
  exists e. split; [exact H1 | exact (H2 eq_refl)].
Defined.

Lemma create_then_submit_witness :
  fst (createAttempt (signed_in []) [question_1; question_2]) = Ok 0
  /\ exists r,
       fst (submit_example [question_1; question_2] one_wrong) = Ok r
       /\ r_total r = 2.
Proof.
  split; [reflexivity|].
  destruct (create_then_submit integer_text decimal_value (signed_in [])
              (signed_in (created [question_1; question_2]))
              [question_1; question_2] 0 one_wrong (of_Z 30) eq_refl eq_refl)
    as [H _].
  destruct (H eq_refl) as [r [H1 [H2 _]]].
  exists r. split; [exact H1 | exact H2].
Defined.

Lemma answer_key_scores_full_witness :
  ((answerable decimal_value question_1 = true
    /\ userAns integer_text answer_key question_1 = answer question_1)
   /\ answerable decimal_value question_2 = true
   /\ userAns integer_text answer_key question_2 = answer question_2)
  /\ fst (submit_first answer_key) = Ok (returned answer_key)
  /\ r_score (returned answer_key) = 2
  /\ r_suggestions (returned answer_key) = generic_suggestions.
Proof.
  split; [repeat split|]. split; [reflexivity|].
  destruct (answer_key_scores_full integer_text decimal_value
              (signed_in two_users) 0 answer_key (Fin (Qmake 61 2))
              (returned answer_key) (opened 1 [question_1; question_2]) eq_refl)
    as [H1 [H2 [_ [_ H5]]]].
  - intros q [<-|[<-|[]]]; split; reflexivity.
  - reflexivity.
  - split; [|exact H5]. rewrite H1. exact H2.
Defined.

Lemma unanswered_scores_zero_witness :
  fst (submit_first []) = Ok (returned [])
  /\ r_score (returned []) = 0
  /\ map m_id (r_mistakes (returned [])) = [of_Z 1; of_Z 2].
Proof.
  split; [reflexivity|].
  destruct (unanswered_scores_zero integer_text decimal_value
              (signed_in two_users) 0 [] (Fin (Qmake 61 2)) (returned [])
              (opened 1 [question_1; question_2]) eq_refl
              (fun q _ => eq_refl) eq_refl) as [H1 [H2 _]].
  split; [exact H1 | exact H2].
Defined.

Lemma more_answers_never_score_less_witness :
  fst (submit_first [("2", ANum (of_Z 12))])
  = Ok (returned [("2", ANum (of_Z 12))])
  /\ fst (submit_first (("1", ANum (of_Z 2)) :: [("2", ANum (of_Z 12))]))
     = Ok (returned (("1", ANum (of_Z 2)) :: [("2", ANum (of_Z 12))]))
  /\ r_score (returned [("2", ANum (of_Z 12))])
     <= r_score (returned (("1", ANum (of_Z 2)) :: [("2", ANum (of_Z 12))])).
Proof.
  split; [reflexivity|]. split; [reflexivity|].
  apply (more_answers_never_score_less integer_text decimal_value
           (signed_in two_users) (signed_in two_users) 0 0
           [("2", ANum (of_Z 12))]
           (("1", ANum (of_Z 2)) :: [("2", ANum (of_Z 12))])
           (Fin (Qmake 61 2)) (Fin (Qmake 61 2)) _ _
           (opened 1 [question_1; question_2]) eq_refl eq_refl).
  - intros k v. simpl. destruct (String.eqb_spec k "1") as [->|_].
    + discriminate.
    + intros H. exact H.
  - reflexivity.
  - reflexivity.
Defined.

Lemma marks_do_not_weigh_witness :
  Forall2 graded_alike [question_1; question_2] [question_1_reworded; question_2]
  /\ fst (submit_first one_wrong) = Ok (returned one_wrong)
  /\ fst (submit_example [question_1_reworded; question_2] one_wrong)
     = Ok (submitted integer_text decimal_value one_wrong
             (opened 1 [question_1_reworded; question_2]))
  /\ returned one_wrong
     = submitted integer_text decimal_value one_wrong
         (opened 1 [question_1_reworded; question_2]).
Proof.
  assert (H : Forall2 graded_alike [question_1; question_2]
                [question_1_reworded; question_2])
    by (repeat constructor).
  split; [exact H|]. split; [reflexivity|]. split; [reflexivity|].
  exact (marks_do_not_weigh integer_text decimal_value (signed_in two_users)
           (signed_in (created [question_1_reworded; question_2])) 0 0 one_wrong
           (Fin (Qmake 61 2)) (of_Z 30) _ _
           (opened 1 [question_1; question_2])
           (opened 1 [question_1_reworded; question_2])
           eq_refl eq_refl H eq_refl eq_refl).
Defined.

Lemma weak_topics_come_from_mistakes_witness :
  fst (submit_first one_wrong) = Ok (returned one_wrong)
  /\ In "operating_systems" (r_weakTopics (returned one_wrong))
  /\ exists m,
       In m (r_mistakes (returned one_wrong))
       /\ m_topic m = "operating_systems".
Proof.
  split; [reflexivity|]. split; [left; reflexivity|].
  destruct (weak_topics_come_from_mistakes integer_text decimal_value
              (signed_in two_users) 0 one_wrong (Fin (Qmake 61 2))
              (returned one_wrong) eq_refl) as [H _].
  exact (H "operating_systems" (or_introl eq_refl)).
Defined.

Lemma stored_duration_witness :
  fst (submit_first one_wrong) = Ok (returned one_wrong)
  /\ exists new,
       db_get (snd (submit_first one_wrong)) 0 = Some new
       /\ durationSec new = of_Z 30.
Proof.
  split; [reflexivity|].
  destruct (stored_duration integer_text decimal_value (signed_in two_users) 0
              one_wrong (Fin (Qmake 61 2)) (returned one_wrong) eq_refl)
    as [new [H1 [_ H3]]].
  exists new. split; [exact H1 | exact H3].
Defined.

Lemma suggestions_without_underscore_witness :
  fst (submit_first one_wrong) = Ok (returned one_wrong)
  /\ r_suggestions (returned one_wrong)
     = "Focus next: operating systems" :: generic_suggestions
  /\ Forall (fun s => Ai.has 95 s = false) (r_suggestions (returned one_wrong)).
Proof.
  split; [reflexivity|]. split; [reflexivity|].
  exact (proj1 (suggestions_without_underscore integer_text decimal_value
                  (signed_in two_users) 0 one_wrong (Fin (Qmake 61 2))
                  (returned one_wrong) eq_refl)).
Defined.

End Attempts.

(* ===================================================================== *)
(** ** The exam generator: the local exam, the keys and the requests *)
(* ===================================================================== *)

Module Generation.
Import JS Ai.

(** A question as the handler returns it: of the shape the code keeps for
    its type ([canonical]: four options and a number from 0 to 3, whole or
    not, on multiple choice; no options on a numerical answer), numbered,
    with marks 1 or 2, an answer and a topic. *)
Definition well_formed (q : RawQuestion) : bool :=
  canonical q
  && match id q with Some _ => true | None => false end
  && match marks q with Some m => (m =? 1)%Z || (m =? 2)%Z | None => false end
  && match answer q with Some _ => true | None => false end
  && match topic q with Some _ => true | None => false end.

(** Two questions that differ at most in their number. *)
Definition same_content (q q' : RawQuestion) : Prop :=
  type q = type q' /\ question q = question q' /\ options q = options q'
  /\ answer q = answer q' /\ marks q = marks q' /\ topic q = topic q'
  /\ explanation q = explanation q'.

(** The number of requests among [calls] that went to the providers [p]
    holds of. *)
Definition requests_to (p : Candidate -> bool) (calls : list Candidate) : nat :=
  List.length (filter p calls).

Definition is_anthropic (c : Candidate) : bool :=
  match c with Anthropic => true | OpenRouter _ => false end.

Definition is_openrouter (c : Candidate) : bool :=
  match c with Anthropic => false | OpenRouter _ => true end.

(** *** The local generator *)

Lemma mapi_from_ext {A B : Type} (f g : nat -> A -> Result B) (i : nat)
  (xs : list A) :
  (forall j x, f j x = g j x) -> mapi_from f i xs = mapi_from g i xs.
Proof.
  intros H. revert i. induction xs as [|x xs IH]; intros i; simpl;
    [reflexivity|].
  now rewrite H, IH.
Qed.

Lemma mapi_from_nth {A B : Type} (f : nat -> A -> Result B) (i : nat)
  (xs : list A) (ys : list B) (k : nat) (y : B) :
  mapi_from f i xs = Ok ys -> nth_error ys k = Some y ->
  exists x, nth_error xs k = Some x /\ f (i + k) x = Ok y.
Proof.
  revert i ys k. induction xs as [|x xs IH]; intros i ys k; simpl.
  - intros H. injection H as <-. now destruct k.
  - destruct (f i x) as [y0|e] eqn:Ey; simpl; [|discriminate].
    destruct (mapi_from f (S i) xs) as [ys'|e] eqn:E; simpl; [|discriminate].
    intros H. injection H as <-. destruct k as [|k]; simpl.
    + intros H. injection H as <-. exists x. now rewrite Nat.add_0_r.
    + intros H. destruct (IH _ _ _ E H) as [x' [H1 H2]]. exists x'.
      split; [assumption|]. now rewrite <- Nat.add_succ_comm.
Qed.

Lemma templates_have_topics :
  Forall (fun t => nonempty (mcq_topic t) = true) baseMCQs
  /\ Forall (fun t => nonempty (nat_topic t) = true) baseNATs.
Proof. split; repeat constructor. Qed.

Lemma localQuestion_topics (t1 t2 : list string) (w : bool) (i : nat) :
  localQuestion t1 w i = localQuestion t2 w i.
Proof.
  destruct templates_have_topics as [Hm Hn]. rewrite Forall_forall in Hm, Hn.
  unfold localQuestion. destruct (i mod 2 =? 0).
  - destruct (nth_error baseMCQs _) as [pick|] eqn:E; [|reflexivity].
    apply nth_error_In in E. unfold or_else. now rewrite (Hm _ E).
  - destruct (nth_error baseNATs _) as [pick|] eqn:E; [|reflexivity].
    apply nth_error_In in E. unfold or_else. now rewrite (Hn _ E).
Qed.

Lemma localQuestion_period (t : list string) (w : bool) (i : nat)
  (q q' : RawQuestion) :
  localQuestion t w i = Ok q -> localQuestion t w (i + 48) = Ok q' ->
  same_content q q'.
Proof.
  rewrite (localQuestion_topics t [] w i), (localQuestion_topics t [] w (i + 48)).
  unfold localQuestion.
  change (List.length baseMCQs) with 8. change (List.length baseNATs) with 3.
  replace ((i + 48) mod 2) with (i mod 2)
    by (symmetry; apply (Nat.Div0.mod_add i 24 2)).
  replace ((i + 48) mod 3) with (i mod 3)
    by (symmetry; apply (Nat.Div0.mod_add i 16 3)).
  replace ((i + 48) / 2) with (i / 2 + 24)
    by (symmetry; apply (Nat.div_add i 24 2); discriminate).
  replace ((i / 2 + 24) mod 8) with ((i / 2) mod 8)
    by (symmetry; apply (Nat.Div0.mod_add (i / 2) 3 8)).
  replace ((i / 2 + 24) mod 3) with ((i / 2) mod 3)
    by (symmetry; apply (Nat.Div0.mod_add (i / 2) 8 3)).
  destruct (i mod 2 =? 0).
  - destruct (nth_error baseMCQs _); [|discriminate].
    intros H H'. injection H as <-. injection H' as <-. repeat split.
    cbn. now rewrite !nth_error_nil.
  - destruct (nth_error baseNATs _); [|discriminate].
    intros H H'. injection H as <-. injection H' as <-. repeat split.
    cbn. now rewrite !nth_error_nil.
Qed.

Lemma localQuestion_shape (t : list string) (w : bool) (i : nat)
  (q : RawQuestion) :
  localQuestion t w i = Ok q ->
  type q = (if i mod 2 =? 0 then mcq else nat_)
  /\ marks q = Some (if i mod 3 =? 0 then 2%Z else 1%Z)
  /\ id q = Some (Z.of_nat i + 1)%Z
  /\ (explanation q = None <-> w = false)
  /\ well_formed q = true.
Proof.
  intros H. destruct (localQuestion_ok t w i) as [q0 [H0 [Hc _]]].
  assert (q0 = q) by congruence. subst q0. clear H0.
  unfold well_formed. rewrite Hc. clear Hc. revert H. unfold localQuestion.
  generalize (i mod 3 =? 0), (i mod 2 =? 0). intros three two.
  destruct two.
  - destruct (nth_error baseMCQs _); [|discriminate].
    intros H. injection H as <-.
    destruct w, three; repeat split;
      first [reflexivity | discriminate | intros; reflexivity].
  - destruct (nth_error baseNATs _); [|discriminate].
    intros H. injection H as <-.
    destruct w, three; repeat split;
      first [reflexivity | discriminate | intros; reflexivity].
Qed.

Lemma local_at (n : num) (t : list string) (w : bool) (qs : list RawQuestion)
  (k : nat) (q : RawQuestion) :
  buildLocalQuestions n t w = Ok qs -> nth_error qs k = Some q ->
  localQuestion t w k = Ok q.
Proof.
  unfold buildLocalQuestions. intros H Hk.
  destruct (mapi_from_nth _ _ _ _ _ _ H Hk) as [x [_ Hx]]. exact Hx.
Qed.

(** X14: The local generator does not look at the topics it is given: every
    template has a topic of its own, so the exam is the same whatever the
    subject mix asked for. *)
Theorem local_questions_ignore_topics (n : num) (topics topics' : list string)
  (withExplanations : bool) :
  buildLocalQuestions n topics withExplanations
  = buildLocalQuestions n topics' withExplanations.
Proof.
  unfold buildLocalQuestions. apply mapi_from_ext. intros j _.
  apply localQuestion_topics.
Qed.

(** X15: The local exam alternates the types, starting with a multiple-choice
    question; every third question, from the first on, has two marks and
    the others one; the questions are numbered from one; and each has an
    explanation exactly when explanations are asked for. *)
Theorem local_question_shape (n : num) (topics : list string)
  (withExplanations : bool) (qs : list RawQuestion) (k : nat) (q : RawQuestion) :
  buildLocalQuestions n topics withExplanations = Ok qs ->
  nth_error qs k = Some q ->
  type q = (if k mod 2 =? 0 then mcq else nat_)
  /\ marks q = Some (if k mod 3 =? 0 then 2%Z else 1%Z)
  /\ id q = Some (Z.of_nat k + 1)%Z
  /\ (explanation q = None <-> withExplanations = false).
Proof.
  intros H Hk. pose proof (local_at _ _ _ _ _ _ H Hk) as Hq.
  destruct (localQuestion_shape _ _ _ _ Hq) as [H1 [H2 [H3 [H4 _]]]].
  repeat split; try assumption; apply H4.
Qed.

(** X16: The local exam repeats itself: the question 48 places after another
    one is the same question but for its number. *)
Theorem local_questions_repeat (n : num) (topics : list string)
  (withExplanations : bool) (qs : list RawQuestion) (k : nat)
  (q q' : RawQuestion) :
  buildLocalQuestions n topics withExplanations = Ok qs ->
  nth_error qs k = Some q ->
  nth_error qs (k + 48) = Some q' ->
  same_content q q'.
Proof.
  intros H Hk Hk'. apply (localQuestion_period topics withExplanations k).
  - exact (local_at _ _ _ _ _ _ H Hk).
  - exact (local_at _ _ _ _ _ _ H Hk').
Qed.

(** *** Keys and requests *)


Lemma plan_length (a o : string) :
  List.length (plan a o)
  = (if nonempty a then 1 else 0) + (if nonempty o then 4 else 0).
Proof.
  unfold plan, priority, last_retry. destruct (nonempty a), (nonempty o);
    reflexivity.
Qed.

Lemma plan_requests (a o : string) :
  requests_to is_anthropic (plan a o) = (if nonempty a then 1 else 0)
  /\ requests_to is_openrouter (plan a o) = (if nonempty o then 4 else 0).
Proof.
  unfold plan, priority, last_retry. destruct (nonempty a), (nonempty o);
    split; reflexivity.
Qed.

Lemma requests_firstn (p : Candidate -> bool) (k : nat) (l : list Candidate) :
  requests_to p (firstn k l) <= requests_to p l.
Proof.
  unfold requests_to. revert k. induction l as [|c l IH]; intros [|k]; simpl;
    try lia.
  specialize (IH k). destruct (p c); simpl; lia.
Qed.

Section Host.

Variable NumberToString : num -> string.

Lemma calls_prefix (provider : nat -> Reply) (env : ProcessEnv) (args : Args) :
  exists k,
    snd (generateExam NumberToString provider env args [])
    = firstn k (plan (anthropicKey env) (openrouterKey env)).
Proof.
  destruct (generateExam_outcome NumberToString provider env args)
    as [[k [c [_ [H _]]]]|[H _]].
  - now exists (S k).
  - exists (List.length (plan (anthropicKey env) (openrouterKey env))).
    now rewrite firstn_all.
Qed.

(** X17: A call makes at most five requests: at most one to Anthropic and at
    most four to OpenRouter, none to a provider whose key is empty after
    trimming. *)
Theorem at_most_five_requests (provider : nat -> Reply) (env : ProcessEnv)
  (args : Args) :
  List.length (snd (generateExam NumberToString provider env args [])) <= 5
  /\ requests_to is_anthropic
       (snd (generateExam NumberToString provider env args []))
     <= (if nonempty (anthropicKey env) then 1 else 0)
  /\ requests_to is_openrouter
       (snd (generateExam NumberToString provider env args []))
     <= (if nonempty (openrouterKey env) then 4 else 0).
Proof.
  destruct (calls_prefix provider env args) as [k Hk]. rewrite Hk.
  destruct (plan_requests (anthropicKey env) (openrouterKey env)) as [Ha Ho].
  split.
  - rewrite length_firstn, plan_length.
    destruct (nonempty (anthropicKey env)), (nonempty (openrouterKey env));
      simpl; lia.
  - split; [rewrite <- Ha | rewrite <- Ho]; apply requests_firstn.
Qed.


(** *** Questions returned *)

Lemma normalizeQuestion_well_formed (topics : list string) (idx : nat)
  (q : JSON) (rq : RawQuestion) :
  normalizeQuestion NumberToString topics idx q = Ok rq -> well_formed rq = true.
Proof.
  intros H. destruct (normalizeQuestion_ok _ _ _ _ _ H) as [Hc [Hi _]].
  unfold well_formed. rewrite Hc, Hi. revert H.
  unfold normalizeQuestion.
  assert (Hf : normalizeFields NumberToString topics idx q = Ok rq ->
               match marks rq with
               | Some m => (m =? 1)%Z || (m =? 2)%Z
               | None => false
               end = true
               /\ match answer rq with Some _ => true | None => false end = true
               /\ match topic rq with Some _ => true | None => false end = true).
  { unfold normalizeFields.
    destruct (text_of NumberToString (property q "question") "Untitled");
      [|destruct (if is_string (property q "type") "mcq" then mcq
                  else if is_string (property q "type") "nat" then nat_ else mcq);
        discriminate].
    destruct (text_of NumberToString (property q "topic") _);
      [|destruct (if is_string (property q "type") "mcq" then mcq
                  else if is_string (property q "type") "nat" then nat_ else mcq);
        discriminate].
    destruct (explanation_of NumberToString q);
      [|destruct (if is_string (property q "type") "mcq" then mcq
                  else if is_string (property q "type") "nat" then nat_ else mcq);
        discriminate].
    destruct (if is_string (property q "type") "mcq" then mcq
              else if is_string (property q "type") "nat" then nat_ else mcq);
      simpl; intros E; injection E as <-; simpl;
      (split; [|split; reflexivity]);
      destruct (property q "marks") as [[| |m| | |]|]; try reflexivity;
      destruct (strict_eq m (of_Z 2)); reflexivity. }
  intros H. assert (Hn : normalizeFields NumberToString topics idx q = Ok rq)
    by (destruct q; [discriminate|assumption..]).
  destruct (Hf Hn) as [-> [-> ->]]. reflexivity.
Qed.

(** X19: Whatever the providers reply, every question returned is well
    formed as far as the code checks: it has a number, an answer, a topic
    and marks 1 or 2; a multiple-choice question has an array of four
    options and a number from 0 to 3 as answer; a numerical one has no
    options. The options of a provider's question can be any four values
    and its answer need not be whole ([fractional_index_is_kept]). *)
Theorem returned_questions_well_formed (provider : nat -> Reply)
  (env : ProcessEnv) (args : Args) :
  exists qs,
    fst (generateExam NumberToString provider env args []) = Ok qs
    /\ Forall (fun q => well_formed q = true) qs.
Proof.
  destruct (generateExam_outcome NumberToString provider env args)
    as [[k [c [_ [_ [_ [H Hok]]]]]]|[_ [_ H]]].
  - destruct (fst (generateExam NumberToString provider env args []))
      as [qs|e]; [|discriminate].
    exists qs. split; [reflexivity|]. symmetry in H.
    destruct (outcome_ok _ _ _ _ _ _ H) as [content [failure [_ Hn]]].
    unfold normalize in Hn.
    destruct (JSON_parse (jsonStr content)) as [[| | | |parsed|]|];
      try discriminate.
    revert Hn. apply mapi_from_Forall. intros j x y.
    apply normalizeQuestion_well_formed.
  - destruct (buildLocalQuestions_ok (clamped args) (topics_of args)
                (nullish (includeExplanations args) true)) as [qs [Hqs _]].
    exists qs. split; [congruence|]. revert Hqs. unfold buildLocalQuestions.
    apply mapi_from_Forall. intros j x y Hy.
    now destruct (localQuestion_shape _ _ _ _ Hy) as [_ [_ [_ [_ Hw]]]].
Qed.

End Host.

(** *** The array in the reply *)

Lemma from_first_open_skip (pre rest : string) :
  has 91 pre = false ->
  from_first_open (pre ++ String (ascii_of_nat 91) rest)%string
  = Some (String (ascii_of_nat 91) rest).
Proof.
  induction pre as [|c pre IH]; simpl; [reflexivity|].
  intros H. apply orb_false_iff in H. destruct H as [-> H]. now apply IH.
Qed.

Lemma no_close_no_match (s : string) :
  has 93 s = false -> upto_last_close s = None.
Proof.
  induction s as [|c s IH]; simpl; [reflexivity|].
  intros H. apply orb_false_iff in H. destruct H as [-> H]. now rewrite IH.
Qed.

Lemma upto_last_close_keep (body post : string) :
  has 93 post = false ->
  upto_last_close (body ++ String (ascii_of_nat 93) post)%string
  = Some (body ++ String (ascii_of_nat 93) "")%string.
Proof.
  intros H. induction body as [|c body IH]; simpl.
  - now rewrite (no_close_no_match _ H).
  - now rewrite IH.
Qed.

(** X20: Text around the array is dropped: of a reply with an opening bracket
    and a later closing bracket, what is parsed runs from the first opening
    bracket to the last closing bracket. *)
Theorem array_between_prose (pre body post : string) :
  has 91 pre = false -> has 93 post = false ->
  jsonStr (pre ++ "[" ++ body ++ "]" ++ post)%string
  = ("[" ++ body ++ "]")%string.
Proof.
  intros Hpre Hpost. unfold jsonStr, regex_match.
  change (pre ++ "[" ++ body ++ "]" ++ post)%string
    with (pre ++ String (ascii_of_nat 91) (body ++ String (ascii_of_nat 93) post))%string.
  rewrite (from_first_open_skip _ _ Hpre).
  change (String (ascii_of_nat 91) (body ++ String (ascii_of_nat 93) post)%string)
    with (String (ascii_of_nat 91) body ++ String (ascii_of_nat 93) post)%string.
  rewrite (upto_last_close_keep _ _ Hpost). reflexivity.
Qed.

(** *** Examples *)


(** A key of no-break spaces, which [trim] strips as it strips the
    spaces of ASCII. *)
Definition no_break_spaces : ProcessEnv :=
  {| OPENROUTER_API_KEY :=
       Some (String (ascii_of_nat 194) (String (ascii_of_nat 160)
               (String (ascii_of_nat 194) (String (ascii_of_nat 160) ""))));
     VITE_OPENROUTER_API_KEY := None;
     OPENAI_API_KEY := Some "sk-key";
     ANTHROPIC_API_KEY := None;
     VITE_ANTHROPIC_API_KEY := None |}.

Example no_break_space_key_is_empty :
  openrouterKey no_break_spaces = ""
  /\ snd (generateExam integer_text (fun _ => Rejected "fetch failed")
            no_break_spaces no_args []) = [].
Proof. split; reflexivity. Qed.

Lemma local_question_shape_witness :
  exists qs q,
    buildLocalQuestions (of_Z 5) [] false = Ok qs
    /\ nth_error qs 3 = Some q
    /\ type q = nat_ /\ marks q = Some 2%Z /\ explanation q = None.
Proof.
  eexists. eexists. split; [reflexivity|]. split; [reflexivity|].
  destruct (local_question_shape (of_Z 5) [] false _ 3 _ eq_refl eq_refl)
    as [H1 [H2 [_ H4]]].
  split; [exact H1|]. split; [exact H2|]. apply H4. reflexivity.
Defined.

Lemma local_questions_repeat_witness :
  exists qs q q',
    buildLocalQuestions (of_Z 65) [] true = Ok qs
    /\ nth_error qs 0 = Some q /\ nth_error qs 48 = Some q'
    /\ id q = Some 1%Z /\ id q' = Some 49%Z
    /\ question q = question q'.
Proof.
  eexists. eexists. eexists. split; [reflexivity|].
  split; [reflexivity|]. split; [reflexivity|].
  split; [reflexivity|]. split; [reflexivity|].
  destruct (local_questions_repeat (of_Z 65) [] true _ 0 _ _ eq_refl eq_refl
              eq_refl) as [_ [H _]].
  exact H.
Defined.


Lemma array_between_prose_witness :
  has 91 "Here you go: " = false /\ has 93 " Enjoy." = false
  /\ jsonStr "Here you go: [1,2] Enjoy." = "[1,2]".
Proof.
  split; [reflexivity|]. split; [reflexivity|].
  exact (array_between_prose "Here you go: " "1,2" " Enjoy." eq_refl eq_refl).
Defined.

End Generation.

(* ===================================================================== *)
(** ** Arithmetic of numbers *)
(* ===================================================================== *)

(** The sum, the product and the quotient as they are on whole numbers below
    [2^53], where no rounding takes place, for the clock of the sessions;
    and the sum and the quotient of any two doubles, rounded. *)

Module JSNumber.
Import JS.

(** The exact sum; it is [a + b] where that is a double. *)
Definition add (a b : num) : num :=
  match a, b with
  | NaN, _ | _, NaN => NaN
  | PosInf, NegInf | NegInf, PosInf => NaN
  | PosInf, _ | _, PosInf => PosInf
  | NegInf, _ | _, NegInf => NegInf
  | Fin x, Fin y => Fin (Qplus x y)
  end.

(** The exact product by a constant [k] above zero; it is [a * k] where
    that is a double. *)
Definition times (a : num) (k : positive) : num :=
  match a with
  | Fin x => Fin (Qmult x (inject_Z (Zpos k)))
  | other => other
  end.

(** The exact quotient by a constant [k] above zero; [Math.floor(a / k)] is
    its floor on whole numbers below [2^53]. *)
Definition over (a : num) (k : positive) : num :=
  match a with
  | Fin x => Fin (Qdiv x (inject_Z (Zpos k)))
  | other => other
  end.

(** [a + b] on doubles: the exact sum, rounded. *)
Definition plus (a b : num) : num :=
  match add a b with
  | Fin q => double q
  | other => other
  end.

(** [a / k] on a double, for a constant [k] above zero: the exact quotient,
    rounded. *)
Definition divided (a : num) (k : positive) : num :=
  match over a k with
  | Fin q => double q
  | other => other
  end.

(** [a || 0] for a number that may be absent: zero and [NaN] are falsy. *)
Definition or_zero (a : option num) : num :=
  match a with
  | None | Some NaN => of_Z 0
  | Some (Fin x) => if Qeq_bool x (inject_Z 0) then of_Z 0 else Fin x
  | Some other => other
  end.

Definition Number_isFinite (n : num) : bool :=
  match n with Fin _ => true | _ => false end.

Definition Number_isInteger (n : num) : bool :=
  match n with
  | Fin x => Qeq_bool (inject_Z (Qfloor x)) x
  | _ => false
  end.

End JSNumber.

(* ===================================================================== *)
(** ** Study sessions and preferences *)
(* ===================================================================== *)

(** The handlers of the sessions file that share the file of the exam
    attempts, and those of [users.ts] they call. The clock, the start
    times, the minutes and the hours are whole numbers, on which the
    arithmetic of the handlers is exact. *)

Module Study.
Import JS JSNumber.

Inductive Role : Set := admin | user | member.

Inductive Subject : Set :=
  | programming | data_structures_algorithms | database_management
  | operating_systems | computer_networks | computer_organization
  | theory_of_computation | compiler_design | discrete_mathematics
  | linear_algebra | probability_statistics | general_aptitude.

Inductive SessionType : Set := pomodoro | free | exam_simulation.

Record Preferences : Set := {
  theme : string;
  soundscape : string;
  pomodoroLength : num;
  shortBreak : num;
  longBreak : num;
  focusMonitoring : bool
}.

(** A document of the table [users]. *)
Record User : Set := {
  name : option string;
  image : option string;
  email : option string;
  emailVerificationTime : option num;
  isAnonymous : option bool;
  role : option Role;
  studyStreak : option num;
  totalStudyHours : option num;
  level : option num;
  experience : option num;
  avatarType : option string;
  preferences : option Preferences
}.

Definition UserId := nat.
Definition SessionId := nat.

(** A document of the table [studySessions]. *)
Record Session : Set := {
  userId : UserId;
  subject : Subject;
  topic : string;
  startTime : num;
  endTime : option num;
  duration : option num;
  focusScore : option num;
  isCompleted : bool;
  sessionType : SessionType;
  notes : option string
}.

(** The two tables the handlers use; the identifier of a document is its
    position in its table. *)
Record Db : Set := {
  users : list User;
  studySessions : list Session
}.

(** What a handler sees: the identity [getAuthUserId] gives, the tables
    and the clock [Date.now()]. *)
Record Ctx : Set := {
  authUserId : option UserId;
  db : Db;
  now : Z
}.

Definition Mutation (A : Type) : Type := Result A * Db.

(** [ctx.db.patch(id, fields)] on a document that exists. *)
Fixpoint patch {A : Type} (t : list A) (i : nat) (f : A -> A) : list A :=
  match t, i with
  | [], _ => []
  | a :: rest, O => f a :: rest
  | a :: rest, S j => a :: patch rest j f
  end.

(** [getCurrentUser]: nobody when [getAuthUserId] gives null, else what
    [ctx.db.get] finds under that identifier. *)
Definition getCurrentUser (ctx : Ctx) : option (UserId * User) :=
  match authUserId ctx with
  | None => None
  | Some userId =>
      match nth_error (users (db ctx)) userId with
      | Some doc => Some (userId, doc)
      | None => None
      end
  end.

(** The query [currentUser]. *)
Definition currentUser (ctx : Ctx) : option (UserId * User) :=
  match getCurrentUser ctx with
  | None => None
  | Some u => Some u
  end.

Definition startSession (ctx : Ctx) (args_subject : Subject)
  (args_topic : string) (args_sessionType : SessionType) : Mutation SessionId :=
  match getCurrentUser ctx with
  | None => (Throw (Error "Not authenticated"), db ctx)
  | Some (user_id, _) =>
      (Ok (List.length (studySessions (db ctx))),
       {| users := users (db ctx);
          studySessions :=
            studySessions (db ctx)
            ++ [ {| userId := user_id;
                    subject := args_subject;
                    topic := args_topic;
                    startTime := of_Z (now ctx);
                    endTime := None;
                    duration := None;
                    focusScore := None;
                    isCompleted := false;
                    sessionType := args_sessionType;
                    notes := None |} ] |})
  end.

Definition endSession (ctx : Ctx) (args_sessionId : SessionId)
  (args_focusScore : option num) (args_notes : option string)
  : Mutation Session :=
  match getCurrentUser ctx with
  | None => (Throw (Error "Not authenticated"), db ctx)
  | Some (user_id, user_doc) =>
      match nth_error (studySessions (db ctx)) args_sessionId with
      | None => (Throw (Error "Session not found"), db ctx)
      | Some session =>
          if negb (userId session =? user_id)
          then (Throw (Error "Session not found"), db ctx)
          else
            let endTime' := of_Z (now ctx) in
            let duration' :=
              Math_floor (over (sub endTime' (startTime session)) 60000) in
            let sessions' :=
              patch (studySessions (db ctx)) args_sessionId
                (fun s =>
                   {| userId := userId s;
                      subject := subject s;
                      topic := topic s;
                      startTime := startTime s;
                      endTime := Some endTime';
                      duration := Some duration';
                      focusScore := args_focusScore;
                      isCompleted := true;
                      sessionType := sessionType s;
                      notes := args_notes |}) in
            let totalMinutes :=
              add (times (or_zero (totalStudyHours user_doc)) 60) duration' in
            let users' :=
              patch (users (db ctx)) user_id
                (fun u =>
                   {| name := name u;
                      image := image u;
                      email := email u;
                      emailVerificationTime := emailVerificationTime u;
                      isAnonymous := isAnonymous u;
                      role := role u;
                      studyStreak := studyStreak u;
                      totalStudyHours := Some (Math_floor (over totalMinutes 60));
                      level := level u;
                      experience := experience u;
                      avatarType := avatarType u;
                      preferences := preferences u |}) in
            (Ok session, {| users := users'; studySessions := sessions' |})
      end
  end.

Definition allowedThemes : list string := ["light"; "dark"].
Definition allowedSoundscapes : list string := ["none"; "rain"; "lofi"; "forest"].

(** [Set.prototype.has] on a set of strings. *)
Definition Set_has (s : list string) (x : string) : bool :=
  existsb (String.eqb x) s.

Definition isFinitePositiveInt (n : num) : bool :=
  Number_isFinite n && Number_isInteger n && lt (of_Z 0) n.

Definition updatePreferences (ctx : Ctx) (args : Preferences) : Mutation unit :=
  match getCurrentUser ctx with
  | None => (Throw (Error "Not authenticated"), db ctx)
  | Some (user_id, _) =>
      if negb (Set_has allowedThemes (theme args))
      then (Throw (Error "Invalid theme. Allowed: light, dark."), db ctx)
      else if negb (Set_has allowedSoundscapes (soundscape args))
      then (Throw (Error "Invalid soundscape. Allowed: none, rain, lofi, forest."),
            db ctx)
      else if negb (isFinitePositiveInt (pomodoroLength args))
              || lt (of_Z 180) (pomodoroLength args)
      then (Throw (Error "Invalid Pomodoro length. Use an integer between 1 and 180 minutes."),
            db ctx)
      else if negb (isFinitePositiveInt (shortBreak args))
              || lt (of_Z 60) (shortBreak args)
      then (Throw (Error "Invalid short break. Use an integer between 1 and 60 minutes."),
            db ctx)
      else if negb (isFinitePositiveInt (longBreak args))
              || lt (of_Z 60) (longBreak args)
      then (Throw (Error "Invalid long break. Use an integer between 1 and 60 minutes."),
            db ctx)
      else
        (Ok tt,
         {| users :=
              patch (users (db ctx)) user_id
                (fun u =>
                   {| name := name u;
                      image := image u;
                      email := email u;
                      emailVerificationTime := emailVerificationTime u;
                      isAnonymous := isAnonymous u;
                      role := role u;
                      studyStreak := studyStreak u;
                      totalStudyHours := totalStudyHours u;
                      level := level u;
                      experience := experience u;
                      avatarType := avatarType u;
                      preferences :=
                        Some {| theme := theme args;
                                soundscape := soundscape args;
                                pomodoroLength := pomodoroLength args;
                                shortBreak := shortBreak args;
                                longBreak := longBreak args;
                                focusMonitoring := focusMonitoring args |} |});
            studySessions := studySessions (db ctx) |})
  end.

(** The preferences [updatePreferences] accepts: a known theme and
    soundscape, a whole number of minutes from 1 to 180 for the Pomodoro
    length and from 1 to 60 for each break. *)
Definition acceptable (p : Preferences) : Prop :=
  (theme p = "light" \/ theme p = "dark")
  /\ (soundscape p = "none" \/ soundscape p = "rain"
      \/ soundscape p = "lofi" \/ soundscape p = "forest")
  /\ (exists q z, pomodoroLength p = Fin q /\ Qeq q (inject_Z z)
                  /\ (1 <= z <= 180)%Z)
  /\ (exists q z, shortBreak p = Fin q /\ Qeq q (inject_Z z) /\ (1 <= z <= 60)%Z)
  /\ (exists q z, longBreak p = Fin q /\ Qeq q (inject_Z z) /\ (1 <= z <= 60)%Z).

(** *** Tables *)

Lemma patch_length {A : Type} (t : list A) (i : nat) (f : A -> A) :
  List.length (patch t i f) = List.length t.
Proof.
  revert i. induction t as [|a t IH]; intros [|i]; simpl; auto.
Qed.

Lemma patch_same {A : Type} (t : list A) (i : nat) (f : A -> A) :
  nth_error (patch t i f) i = option_map f (nth_error t i).
Proof.
  revert i. induction t as [|a t IH]; intros [|i]; simpl; auto.
Qed.

Lemma patch_other {A : Type} (t : list A) (i j : nat) (f : A -> A) :
  i <> j -> nth_error (patch t i f) j = nth_error t j.
Proof.
  revert i j. induction t as [|a t IH]; intros [|i] [|j] H; simpl; auto.
  contradiction.
Qed.

(** *** Whole numbers of minutes and hours *)

Lemma floor_over (q : Q) (z : Z) (k : positive) :
  Qeq q (inject_Z z) ->
  Math_floor (over (Fin q) k) = of_Z (z / Zpos k).
Proof.
  intros E. unfold Math_floor, over, of_Z. do 2 f_equal.
  rewrite (Qfloor_comp (Qdiv q (inject_Z (Zpos k)))
             (Qdiv (inject_Z z) (inject_Z (Zpos k)))).
  - unfold Qdiv, Qmult, Qinv, inject_Z, Qfloor. simpl.
    now rewrite Z.mul_1_r.
  - now rewrite E.
Qed.

Lemma minutes_between (t1 t0 : Z) :
  Math_floor (over (sub (of_Z t1) (of_Z t0)) 60000)
  = of_Z ((t1 - t0) / 60000).
Proof.
  unfold sub, of_Z. apply floor_over.
  unfold Qminus, Z.sub. now rewrite inject_Z_plus, inject_Z_opp.
Qed.


(** *** Sessions *)

Lemma endSession_run (ctx : Ctx) (args_sessionId : SessionId)
  (args_focusScore : option num) (args_notes : option string)
  (user_id : UserId) (user_doc : User) (session : Session) :
  getCurrentUser ctx = Some (user_id, user_doc) ->
  nth_error (studySessions (db ctx)) args_sessionId = Some session ->
  userId session = user_id ->
  fst (endSession ctx args_sessionId args_focusScore args_notes) = Ok session
  /\ nth_error
       (studySessions (snd (endSession ctx args_sessionId args_focusScore
                              args_notes))) args_sessionId
     = Some {| userId := userId session;
               subject := subject session;
               topic := topic session;
               startTime := startTime session;
               endTime := Some (of_Z (now ctx));
               duration :=
                 Some (Math_floor (over (sub (of_Z (now ctx))
                                           (startTime session)) 60000));
               focusScore := args_focusScore;
               isCompleted := true;
               sessionType := sessionType session;
               notes := args_notes |}
  /\ nth_error
       (users (snd (endSession ctx args_sessionId args_focusScore args_notes)))
       user_id
     = Some {| name := name user_doc;
               image := image user_doc;
               email := email user_doc;
               emailVerificationTime := emailVerificationTime user_doc;
               isAnonymous := isAnonymous user_doc;
               role := role user_doc;
               studyStreak := studyStreak user_doc;
               totalStudyHours :=
                 Some (Math_floor
                         (over (add (times (or_zero (totalStudyHours user_doc)) 60)
                                  (Math_floor
                                     (over (sub (of_Z (now ctx))
                                              (startTime session)) 60000)))
                            60));
               level := level user_doc;
               experience := experience user_doc;
               avatarType := avatarType user_doc;
               preferences := preferences user_doc |}
  /\ (forall j, j <> args_sessionId ->
        nth_error
          (studySessions (snd (endSession ctx args_sessionId args_focusScore
                                 args_notes))) j
        = nth_error (studySessions (db ctx)) j)
  /\ (forall j, j <> user_id ->
        nth_error
          (users (snd (endSession ctx args_sessionId args_focusScore
                         args_notes))) j
        = nth_error (users (db ctx)) j).
Proof.
  intros Hu Hs Ho. subst user_id. unfold endSession.
  rewrite Hu, Hs, Nat.eqb_refl.
  cbn [negb fst snd users studySessions].
  assert (Hdoc : nth_error (users (db ctx)) (userId session) = Some user_doc).
  { unfold getCurrentUser in Hu. destruct (authUserId ctx) as [i|]; [|discriminate].
    destruct (nth_error (users (db ctx)) i) eqn:E; [|discriminate].
    injection Hu as <- <-. exact E. }
  split; [reflexivity|].
  split; [now rewrite patch_same, Hs|].
  split; [now rewrite patch_same, Hdoc|].
  split; intros j Hj; apply patch_other; congruence.
Qed.

(** X21: [endSession] fails for one of two reasons and then writes nothing:
    nobody is signed in, or the session is not one of the caller, whether
    it is missing or belongs to somebody else. *)
Theorem endSession_failure (ctx : Ctx) (args_sessionId : SessionId)
  (args_focusScore : option num) (args_notes : option string) (e : Exn) :
  fst (endSession ctx args_sessionId args_focusScore args_notes) = Throw e ->
  snd (endSession ctx args_sessionId args_focusScore args_notes) = db ctx
  /\ ((e = Error "Not authenticated" /\ getCurrentUser ctx = None)
      \/ (e = Error "Session not found"
          /\ forall s, nth_error (studySessions (db ctx)) args_sessionId = Some s ->
                       authUserId ctx <> Some (userId s))).
Proof.
  unfold endSession.
  destruct (getCurrentUser ctx) as [[user_id user_doc]|] eqn:Hu.
  2:{ intros H. injection H as <-. split; [reflexivity|]. left. now split. }
  assert (Ha : authUserId ctx = Some user_id).
  { unfold getCurrentUser in Hu. destruct (authUserId ctx) as [i|]; [|discriminate].
    destruct (nth_error (users (db ctx)) i); [|discriminate]. congruence. }
  destruct (nth_error (studySessions (db ctx)) args_sessionId) as [session|].
  2:{ intros H. injection H as <-. split; [reflexivity|]. right.
      split; [reflexivity|]. discriminate. }
  destruct (Nat.eqb_spec (userId session) user_id) as [E|E]; simpl;
    [discriminate|].
  intros H. injection H as <-. split; [reflexivity|]. right.
  split; [reflexivity|]. intros s Hs. injection Hs as <-. congruence.
Qed.


(** X23: There is no guard on completion: a session that was ended can be
    ended again by its owner; the call succeeds, returns the session as the
    first call left it, and [endSession_accounting] applies once more. *)
Theorem endSession_twice (ctx ctx' : Ctx) (args_sessionId : SessionId)
  (args_focusScore args_focusScore' : option num)
  (args_notes args_notes' : option string) (session : Session) :
  fst (endSession ctx args_sessionId args_focusScore args_notes) = Ok session ->
  db ctx' = snd (endSession ctx args_sessionId args_focusScore args_notes) ->
  authUserId ctx' = authUserId ctx ->
  exists again,
    fst (endSession ctx' args_sessionId args_focusScore' args_notes') = Ok again
    /\ isCompleted again = true
    /\ endTime again = Some (of_Z (now ctx))
    /\ focusScore again = args_focusScore
    /\ startTime again = startTime session.
Proof.
  intros H Hdb Ha.
  assert (Hrun : exists user_id user_doc,
            getCurrentUser ctx = Some (user_id, user_doc)
            /\ nth_error (studySessions (db ctx)) args_sessionId = Some session
            /\ userId session = user_id).
  { revert H. unfold endSession.
    destruct (getCurrentUser ctx) as [[user_id user_doc]|]; [|discriminate].
    destruct (nth_error (studySessions (db ctx)) args_sessionId) as [s|];
      [|discriminate].
    destruct (Nat.eqb_spec (userId s) user_id) as [E|E]; simpl; [|discriminate].
    intros H. injection H as <-. now exists user_id, user_doc. }
  destruct Hrun as [user_id [user_doc [Hu [Hs Ho]]]].
  destruct (endSession_run ctx args_sessionId args_focusScore args_notes
              _ _ _ Hu Hs Ho) as [_ [H1 [H2 _]]].
  rewrite <- Hdb in H1, H2.
  assert (Hu' : exists user', getCurrentUser ctx' = Some (user_id, user')).
  { unfold getCurrentUser in *. rewrite Ha.
    destruct (authUserId ctx) as [i|]; [|discriminate].
    destruct (nth_error (users (db ctx)) i); [|discriminate].
    injection Hu as -> _. rewrite H2. eexists. reflexivity. }
  destruct Hu' as [user' Hu'].
  destruct (endSession_run ctx' args_sessionId args_focusScore' args_notes'
              _ _ _ Hu' H1 Ho) as [Hr _].
  eexists. split; [exact Hr|]. repeat split.
Qed.

(** X24: A session that was started can be ended by the one who started it: the
    call returns the session as it was started, open and without an end
    time, and leaves it completed, with the clock as end time and the full
    minutes since the start as duration. The sessions stored before are as
    they were. *)
Theorem start_then_end (ctx ctx' : Ctx) (args_subject : Subject)
  (args_topic : string) (args_sessionType : SessionType)
  (sessionId : SessionId) (args_focusScore : option num)
  (args_notes : option string) :
  fst (startSession ctx args_subject args_topic args_sessionType) = Ok sessionId ->
  db ctx' = snd (startSession ctx args_subject args_topic args_sessionType) ->
  authUserId ctx' = authUserId ctx ->
  (forall j, j < sessionId ->
     nth_error (studySessions (db ctx')) j = nth_error (studySessions (db ctx)) j)
  /\ users (db ctx') = users (db ctx)
  /\ exists started ended,
       fst (endSession ctx' sessionId args_focusScore args_notes) = Ok started
       /\ isCompleted started = false /\ endTime started = None
       /\ subject started = args_subject /\ topic started = args_topic
       /\ startTime started = of_Z (now ctx)
       /\ nth_error
            (studySessions (snd (endSession ctx' sessionId args_focusScore
                                   args_notes))) sessionId = Some ended
       /\ isCompleted ended = true
       /\ endTime ended = Some (of_Z (now ctx'))
       /\ duration ended = Some (of_Z ((now ctx' - now ctx) / 60000))
       /\ focusScore ended = args_focusScore /\ notes ended = args_notes.
Proof.
  unfold startSession.
  destruct (getCurrentUser ctx) as [[user_id user_doc]|] eqn:Hu; [|discriminate].
  cbn [fst snd]. intros H Hdb Ha. injection H as <-.
  assert (Hu' : getCurrentUser ctx' = Some (user_id, user_doc)).
  { unfold getCurrentUser in *. rewrite Ha, Hdb. exact Hu. }
  split.
  { intros j Hj. rewrite Hdb. cbn [studySessions].
    now rewrite nth_error_app1. }
  split; [now rewrite Hdb|].
  set (started := {| userId := user_id; subject := args_subject;
                     topic := args_topic; startTime := of_Z (now ctx);
                     endTime := None; duration := None; focusScore := None;
                     isCompleted := false; sessionType := args_sessionType;
                     notes := None |}) in *.
  assert (Hs : nth_error (studySessions (db ctx'))
                 (List.length (studySessions (db ctx))) = Some started).
  { rewrite Hdb. cbn [studySessions].
    now rewrite nth_error_app2, Nat.sub_diag by lia. }
  destruct (endSession_run ctx' _ args_focusScore args_notes _ _ _ Hu' Hs eq_refl)
    as [Hr [H1 _]].
  exists started. eexists. split; [exact Hr|].
  do 5 (split; [reflexivity|]). split; [exact H1|].
  cbn [isCompleted endTime duration focusScore notes startTime started].
  rewrite minutes_between. repeat split.
Qed.


(** *** Preferences *)

Lemma Set_has_themes (x : string) :
  Set_has allowedThemes x = true <-> x = "light" \/ x = "dark".
Proof.
  unfold Set_has, allowedThemes. simpl. rewrite !orb_true_iff, !String.eqb_eq.
  intuition discriminate.
Qed.

Lemma Set_has_soundscapes (x : string) :
  Set_has allowedSoundscapes x = true
  <-> x = "none" \/ x = "rain" \/ x = "lofi" \/ x = "forest".
Proof.
  unfold Set_has, allowedSoundscapes. simpl.
  rewrite !orb_true_iff, !String.eqb_eq. intuition discriminate.
Qed.

Lemma minutes_in_range (n : num) (hi : Z) :
  negb (isFinitePositiveInt n) || lt (of_Z hi) n = false
  <-> exists q z, n = Fin q /\ Qeq q (inject_Z z) /\ (1 <= z <= hi)%Z.
Proof.
  unfold isFinitePositiveInt, Number_isFinite, Number_isInteger, lt, of_Z.
  destruct n as [| | |q]; simpl;
    try (split; [discriminate | intros [q' [z [H _]]]; discriminate]).
  rewrite orb_false_iff, negb_false_iff, andb_true_iff, !negb_true_iff,
    negb_false_iff.
  split.
  - intros [[Hi Hp] Hh]. apply Qeq_bool_iff in Hi.
    exists q, (Qfloor q). split; [reflexivity|]. split; [now symmetry|].
    apply Qle_bool_iff in Hh. rewrite <- Hi in Hh. rewrite <- Zle_Qle in Hh.
    split; [|assumption].
    destruct (Z.le_gt_cases (Qfloor q) 0) as [Hle|Hgt]; [|lia].
    rewrite Zle_Qle, Hi in Hle. apply Qle_bool_iff in Hle. congruence.
  - intros [q' [z [E [Hq [Hlo Hhi]]]]]. injection E as <-.
    assert (Hf : Qfloor q = z).
    { rewrite (Qfloor_comp _ _ Hq). apply Qfloor_Z. }
    split; [split|].
    + apply Qeq_bool_iff. rewrite Hf. now symmetry.
    + destruct (Qle_bool q (inject_Z 0)) eqn:E; [|reflexivity].
      apply Qle_bool_iff in E. rewrite Hq in E. rewrite <- Zle_Qle in E. lia.
    + apply Qle_bool_iff. rewrite Hq. rewrite <- Zle_Qle. assumption.
Qed.

(** X26: [updatePreferences] succeeds exactly for a signed-in caller with
    acceptable preferences: a theme and a soundscape of the lists, and
    whole numbers of minutes in range, so that [NaN], infinities,
    fractions, zero and negative lengths are all refused. A refusal writes
    nothing. *)
Theorem updatePreferences_accepts (ctx : Ctx) (args : Preferences) :
  (is_Ok (fst (updatePreferences ctx args)) = true
   <-> (exists u, getCurrentUser ctx = Some u) /\ acceptable args)
  /\ (is_Ok (fst (updatePreferences ctx args)) = false ->
      snd (updatePreferences ctx args) = db ctx).
Proof.
  unfold updatePreferences, acceptable.
  rewrite <- Set_has_themes, <- Set_has_soundscapes, <- !minutes_in_range.
  destruct (getCurrentUser ctx) as [[user_id user_doc]|].
  2:{ cbn [fst snd is_Ok]. split; [|reflexivity]. split; [discriminate|].
      intros [[u Hu] _]. discriminate. }
  destruct (Set_has allowedThemes (theme args)); cbn [negb fst snd is_Ok].
  2:{ split; [|reflexivity]. split; [discriminate|]. intros [_ [H _]].
      discriminate. }
  destruct (Set_has allowedSoundscapes (soundscape args));
    cbn [negb fst snd is_Ok].
  2:{ split; [|reflexivity]. split; [discriminate|]. intros [_ [_ [H _]]].
      discriminate. }
  destruct (negb (isFinitePositiveInt (pomodoroLength args))
            || lt (of_Z 180) (pomodoroLength args)); cbn [fst snd is_Ok].
  1:{ split; [|reflexivity]. split; [discriminate|]. intros [_ [_ [_ [H _]]]].
      discriminate. }
  destruct (negb (isFinitePositiveInt (shortBreak args))
            || lt (of_Z 60) (shortBreak args)); cbn [fst snd is_Ok].
  1:{ split; [|reflexivity]. split; [discriminate|].
      intros [_ [_ [_ [_ [H _]]]]]. discriminate. }
  destruct (negb (isFinitePositiveInt (longBreak args))
            || lt (of_Z 60) (longBreak args)); cbn [fst snd is_Ok].
  1:{ split; [|reflexivity]. split; [discriminate|].
      intros [_ [_ [_ [_ [_ H]]]]]. discriminate. }
  split; [|discriminate]. split; [|reflexivity].
  intros _. split; [now eexists|]. repeat split.
Qed.

(** X27: What is stored is what was given: after a successful update the
    caller reads the preferences given back from [currentUser], with the
    total of hours and the other fields untouched; the other users and all
    sessions are as before. *)
Theorem updatePreferences_stores (ctx ctx' : Ctx) (args : Preferences) :
  fst (updatePreferences ctx args) = Ok tt ->
  db ctx' = snd (updatePreferences ctx args) ->
  authUserId ctx' = authUserId ctx ->
  studySessions (db ctx') = studySessions (db ctx)
  /\ (forall j, authUserId ctx <> Some j ->
        nth_error (users (db ctx')) j = nth_error (users (db ctx)) j)
  /\ exists user_id before after,
       currentUser ctx = Some (user_id, before)
       /\ currentUser ctx' = Some (user_id, after)
       /\ preferences after = Some args
       /\ totalStudyHours after = totalStudyHours before
       /\ name after = name before /\ email after = email before.
Proof.
  unfold updatePreferences, currentUser.
  destruct (getCurrentUser ctx) as [[user_id user_doc]|] eqn:Hu; [|discriminate].
  destruct (negb (Set_has allowedThemes (theme args))); [discriminate|].
  destruct (negb (Set_has allowedSoundscapes (soundscape args)));
    [discriminate|].
  destruct (negb (isFinitePositiveInt (pomodoroLength args))
            || lt (of_Z 180) (pomodoroLength args)); [discriminate|].
  destruct (negb (isFinitePositiveInt (shortBreak args))
            || lt (of_Z 60) (shortBreak args)); [discriminate|].
  destruct (negb (isFinitePositiveInt (longBreak args))
            || lt (of_Z 60) (longBreak args)); [discriminate|].
  cbn [fst snd]. intros _ Hdb Ha.
  assert (Hauth : authUserId ctx = Some user_id
                  /\ nth_error (users (db ctx)) user_id = Some user_doc).
  { unfold getCurrentUser in Hu. destruct (authUserId ctx) as [i|]; [|discriminate].
    destruct (nth_error (users (db ctx)) i) eqn:E; [|discriminate].
    injection Hu as <- <-. now split. }
  destruct Hauth as [Hauth Hdoc].
  split; [now rewrite Hdb|].
  split.
  { intros j Hj. rewrite Hdb. cbn [users]. apply patch_other. congruence. }
  exists user_id, user_doc. eexists. split; [reflexivity|]. split.
  - unfold getCurrentUser. rewrite Ha, Hauth, Hdb. cbn [users].
    rewrite patch_same, Hdoc. reflexivity.
  - cbn [preferences totalStudyHours name email]. destruct args.
    repeat split.
Qed.

(** *** Examples *)

(** A user with [hours] as total of study hours and nothing else. *)
Definition learner (hours : option num) : User :=
  {| name := None; image := None; email := None;
     emailVerificationTime := None; isAnonymous := None; role := None;
     studyStreak := None; totalStudyHours := hours; level := None;
     experience := None; avatarType := None; preferences := None |}.

(** Two users, the first with seven hours, and an open session of the
    first, started at time 0. *)
Definition two_learners : Db :=
  {| users := [learner (Some (of_Z 7)); learner None];
     studySessions :=
       [ {| userId := 0; subject := operating_systems; topic := "paging";
            startTime := of_Z 0; endTime := None; duration := None;
            focusScore := None; isCompleted := false;
            sessionType := pomodoro; notes := None |} ] |}.

Definition at_time (who : UserId) (d : Db) (t : Z) : Ctx :=
  {| authUserId := Some who; db := d; now := t |}.

(** The first user ends the session after ninety minutes. *)
Definition ended_once : Db :=
  snd (endSession (at_time 0 two_learners 5400000) 0 (Some (of_Z 80)) None).

Definition evening : Preferences :=
  {| theme := "dark"; soundscape := "rain"; pomodoroLength := of_Z 25;
     shortBreak := of_Z 5; longBreak := of_Z 15; focusMonitoring := true |}.

Lemma endSession_failure_witness :
  fst (endSession (at_time 1 two_learners 5400000) 0 None None)
  = Throw (Error "Session not found")
  /\ snd (endSession (at_time 1 two_learners 5400000) 0 None None)
     = two_learners.
Proof.
  split; [reflexivity|].
  exact (proj1 (endSession_failure (at_time 1 two_learners 5400000) 0 None None
                  (Error "Session not found") eq_refl)).
Defined.


Lemma endSession_twice_witness :
  exists first again,
    fst (endSession (at_time 0 two_learners 5400000) 0 (Some (of_Z 80)) None)
    = Ok first
    /\ fst (endSession (at_time 0 ended_once 9000000) 0 None None) = Ok again
    /\ isCompleted first = false /\ isCompleted again = true.
Proof.
  eexists.
  destruct (endSession_twice (at_time 0 two_learners 5400000)
              (at_time 0 ended_once 9000000) 0 (Some (of_Z 80)) None None None
              _ eq_refl eq_refl eq_refl) as [again [H1 [H2 _]]].
  exists again. split; [reflexivity|]. split; [exact H1|].
  split; [reflexivity | exact H2].
Defined.

Lemma start_then_end_witness :
  fst (startSession (at_time 1 two_learners 1000) linear_algebra "rank" free)
  = Ok 1
  /\ exists ended,
       nth_error
         (studySessions
            (snd (endSession
                    (at_time 1
                       (snd (startSession (at_time 1 two_learners 1000)
                               linear_algebra "rank" free)) 121000)
                    1 None (Some "done")))) 1 = Some ended
       /\ isCompleted ended = true
       /\ duration ended = Some (of_Z 2).
Proof.
  split; [reflexivity|].
  destruct (start_then_end (at_time 1 two_learners 1000)
              (at_time 1
                 (snd (startSession (at_time 1 two_learners 1000)
                         linear_algebra "rank" free)) 121000)
              linear_algebra "rank" free 1 None (Some "done")
              eq_refl eq_refl eq_refl)
    as [_ [_ [started [ended [_ [_ [_ [_ [_ [_ [H1 [H2 [_ [H3 _]]]]]]]]]]]]]].
  exists ended. split; [exact H1|]. split; [exact H2 | exact H3].
Defined.


Lemma updatePreferences_stores_witness :
  fst (updatePreferences (at_time 0 ended_once 9000000) evening) = Ok tt
  /\ exists user_id after,
       currentUser
         (at_time 0 (snd (updatePreferences (at_time 0 ended_once 9000000)
                            evening)) 9000001) = Some (user_id, after)
       /\ preferences after = Some evening
       /\ totalStudyHours after = Some (of_Z 8).
Proof.
  split; [reflexivity|].
  destruct (updatePreferences_stores (at_time 0 ended_once 9000000)
              (at_time 0 (snd (updatePreferences (at_time 0 ended_once 9000000)
                                 evening)) 9000001)
              evening eq_refl eq_refl eq_refl)
    as [_ [_ [user_id [before [after [Hb [Ha [Hp [Ht _]]]]]]]]].
  exists user_id, after. split; [exact Ha|]. split; [exact Hp|].
  rewrite Ht. vm_compute in Hb. injection Hb as _ <-. reflexivity.
Defined.

End Study.

(* ===================================================================== *)
(** ** Progress by subject *)
(* ===================================================================== *)

Module Progress.
Import JS JSNumber.

(** A document of the table [subjectProgress]. *)
Record Doc : Set := {
  userId : nat;
  subject : Study.Subject;
  topicsCompleted : list string;
  totalTopics : num;
  hoursSpent : num;
  averageFocusScore : num;
  lastStudied : num;
  weakTopics : list string
}.

Definition Table := list Doc.

Record Ctx : Set := {
  currentUser : option nat;
  subjectProgress : Table;
  now : Z
}.

Definition Mutation (A : Type) : Type := Result A * Table.

(** The literal of a subject. *)
Definition literal (s : Study.Subject) : string :=
  match s with
  | Study.programming => "programming"
  | Study.data_structures_algorithms => "data_structures_algorithms"
  | Study.database_management => "database_management"
  | Study.operating_systems => "operating_systems"
  | Study.computer_networks => "computer_networks"
  | Study.computer_organization => "computer_organization"
  | Study.theory_of_computation => "theory_of_computation"
  | Study.compiler_design => "compiler_design"
  | Study.discrete_mathematics => "discrete_mathematics"
  | Study.linear_algebra => "linear_algebra"
  | Study.probability_statistics => "probability_statistics"
  | Study.general_aptitude => "general_aptitude"
  end.

Definition same_subject (a b : Study.Subject) : bool :=
  String.eqb (literal a) (literal b).

(** [.withIndex("by_user_and_subject", ...)] with both fields fixed. *)
Definition by_user_and_subject (user : nat) (s : Study.Subject) (t : Table)
  : list (nat * Doc) :=
  filter (fun e => (userId (snd e) =? user) && same_subject (subject (snd e)) s)
    (Attempts.indexed 0 t).

(** [Array.prototype.includes] on strings. *)
Definition includes (xs : list string) (x : string) : bool :=
  existsb (String.eqb x) xs.

Section Host.

(** What [unique()] of the data base throws when it finds several
    documents. *)
Variable several : Exn.

Definition unique (found : list (nat * Doc)) : Result (option (nat * Doc)) :=
  match found with
  | [] => Ok None
  | [e] => Ok (Some e)
  | _ => Throw several
  end.

Definition updateSubjectProgress (ctx : Ctx) (args_subject : Study.Subject)
  (args_topicCompleted : string) (args_hoursSpent args_focusScore : num)
  : Mutation unit :=
  match currentUser ctx with
  | None => (Throw (Error "Not authenticated"), subjectProgress ctx)
  | Some user =>
      match unique (by_user_and_subject user args_subject (subjectProgress ctx)) with
      | Throw e => (Throw e, subjectProgress ctx)
      | Ok (Some (existing_id, existing)) =>
          let updatedTopics :=
            if includes (topicsCompleted existing) args_topicCompleted
            then topicsCompleted existing
            else topicsCompleted existing ++ [args_topicCompleted] in
          (Ok tt,
           Study.patch (subjectProgress ctx) existing_id
             (fun d =>
                {| userId := userId d;
                   subject := subject d;
                   topicsCompleted := updatedTopics;
                   totalTopics := totalTopics d;
                   hoursSpent := plus (hoursSpent existing) args_hoursSpent;
                   averageFocusScore :=
                     divided (plus (averageFocusScore existing) args_focusScore) 2;
                   lastStudied := of_Z (now ctx);
                   weakTopics := weakTopics d |}))
      | Ok None =>
          (Ok tt,
           subjectProgress ctx
           ++ [ {| userId := user;
                   subject := args_subject;
                   topicsCompleted := [args_topicCompleted];
                   totalTopics := of_Z 50;
                   hoursSpent := args_hoursSpent;
                   averageFocusScore := args_focusScore;
                   lastStudied := of_Z (now ctx);
                   weakTopics := [] |} ])
      end
  end.

(** [getUserProgress]: the documents of the caller, in the order of the
    index. *)
Definition getUserProgress (ctx : Ctx) : list (nat * Doc) :=
  match currentUser ctx with
  | None => []
  | Some user =>
      filter (fun e => userId (snd e) =? user)
        (Attempts.indexed 0 (subjectProgress ctx))
  end.

(** The table has at most one document for a user and a subject. *)
Definition one_per_subject (t : Table) : Prop :=
  forall user s, List.length (by_user_and_subject user s t) <= 1.

Definition topics_once (t : Table) : Prop :=
  Forall (fun d => NoDup (topicsCompleted d)) t.

Lemma includes_In (xs : list string) (x : string) :
  includes xs x = true <-> In x xs.
Proof.
  unfold includes. rewrite existsb_exists. split.
  - intros [y [Hy E]]. apply String.eqb_eq in E. now subst.
  - intros H. exists x. split; [assumption | apply String.eqb_refl].
Qed.

Lemma same_subject_eq (a b : Study.Subject) : same_subject a b = true <-> a = b.
Proof.
  unfold same_subject. rewrite String.eqb_eq. split; [|congruence].
  destruct a, b; simpl; intros H; first [reflexivity | discriminate H].
Qed.

Lemma by_user_and_subject_In (user : nat) (s : Study.Subject) (t : Table)
  (i : nat) (d : Doc) :
  In (i, d) (by_user_and_subject user s t)
  <-> nth_error t i = Some d /\ userId d = user /\ subject d = s.
Proof.
  unfold by_user_and_subject.
  rewrite filter_In, Attempts.indexed_In, Nat.sub_0_r. simpl.
  rewrite andb_true_iff, Nat.eqb_eq, same_subject_eq.
  split; [tauto|]. intros [H1 H2]. repeat split; try tauto. lia.
Qed.

Lemma indexed_patch_keys (t : Table) (i k : nat) (f : Doc -> Doc) :
  (forall d, userId (f d) = userId d /\ subject (f d) = subject d) ->
  map (fun e : nat * Doc => (userId (snd e), subject (snd e)))
    (Attempts.indexed k (Study.patch t i f))
  = map (fun e : nat * Doc => (userId (snd e), subject (snd e)))
      (Attempts.indexed k t).
Proof.
  intros Hf. revert i k. induction t as [|a t IH]; intros [|i] k; simpl;
    try reflexivity.
  - destruct (Hf a) as [-> ->]. reflexivity.
  - now rewrite IH.
Qed.

Lemma filter_keys_length (user : nat) (s : Study.Subject)
  (l l' : list (nat * Doc)) :
  map (fun e : nat * Doc => (userId (snd e), subject (snd e))) l
  = map (fun e : nat * Doc => (userId (snd e), subject (snd e))) l' ->
  List.length
    (filter (fun e => (userId (snd e) =? user) && same_subject (subject (snd e)) s) l)
  = List.length
      (filter (fun e => (userId (snd e) =? user) && same_subject (subject (snd e)) s) l').
Proof.
  revert l'. induction l as [|x l IH]; intros [|y l'] H; simpl in *;
    try discriminate; [reflexivity|].
  injection H as H1 H2 H3. rewrite H1, H2.
  destruct ((userId (snd y) =? user) && same_subject (subject (snd y)) s);
    simpl; [f_equal|]; now apply IH.
Qed.

Lemma by_user_and_subject_snoc (user : nat) (s : Study.Subject) (t : Table)
  (d : Doc) :
  by_user_and_subject user s (t ++ [d])
  = by_user_and_subject user s t
    ++ (if (userId d =? user) && same_subject (subject d) s
        then [(List.length t, d)] else []).
Proof.
  unfold by_user_and_subject.
  now rewrite Attempts.indexed_snoc, filter_app.
Qed.

Lemma Forall_patch {A : Type} (P : A -> Prop) (t : list A) (i : nat)
  (f : A -> A) :
  Forall P t -> (forall a, nth_error t i = Some a -> P (f a)) ->
  Forall P (Study.patch t i f).
Proof.
  intros H. revert i. induction H as [|a t Ha Ht IH]; intros [|i] Hf; simpl;
    constructor; auto.
Qed.

(** X28: The table keeps one document for a user and a subject: from such a
    table a signed-in caller always succeeds, so that [unique()] never
    finds several documents, and the table after is such a table again, in
    which no document lists a topic twice if none did before. *)
Theorem updateSubjectProgress_keeps_one (ctx : Ctx) (args_subject : Study.Subject)
  (args_topicCompleted : string) (args_hoursSpent args_focusScore : num)
  (user : nat) :
  currentUser ctx = Some user ->
  one_per_subject (subjectProgress ctx) ->
  fst (updateSubjectProgress ctx args_subject args_topicCompleted
         args_hoursSpent args_focusScore) = Ok tt
  /\ one_per_subject
       (snd (updateSubjectProgress ctx args_subject args_topicCompleted
               args_hoursSpent args_focusScore))
  /\ (topics_once (subjectProgress ctx) ->
      topics_once
        (snd (updateSubjectProgress ctx args_subject args_topicCompleted
                args_hoursSpent args_focusScore))).
Proof.
  intros Hu Hone. unfold updateSubjectProgress. rewrite Hu.
  pose proof (Hone user args_subject) as Hlen.
  destruct (by_user_and_subject user args_subject (subjectProgress ctx))
    as [|[i existing] [|e rest]] eqn:E; simpl in Hlen; try lia;
    cbn [unique fst snd].
  - split; [reflexivity|]. split.
    + intros u s. rewrite by_user_and_subject_snoc, length_app. cbn [userId subject].
      destruct (Nat.eqb_spec user u) as [<-|Hne]; cbn [andb].
      * destruct (same_subject args_subject s) eqn:Es.
        -- apply same_subject_eq in Es. subst s. rewrite E. simpl. lia.
        -- specialize (Hone user s). simpl. lia.
      * specialize (Hone u s). simpl. lia.
    + intros Ht. apply Forall_app. split; [assumption|].
      repeat constructor. intros [].
  - split; [reflexivity|]. split.
    + intros u s. unfold by_user_and_subject.
      rewrite (filter_keys_length u s _ (Attempts.indexed 0 (subjectProgress ctx))).
      * apply Hone.
      * apply indexed_patch_keys. intros d. now split.
    + intros Ht. apply Forall_patch; [assumption|]. intros a Ha.
      cbn [topicsCompleted].
      assert (Hin : In (i, existing)
                      (by_user_and_subject user args_subject (subjectProgress ctx)))
        by (rewrite E; now left).
      apply by_user_and_subject_In in Hin. destruct Hin as [Hn _].
      unfold topics_once in Ht. rewrite Forall_forall in Ht.
      pose proof (Ht _ (nth_error_In _ _ Hn)) as Hnd.
      destruct (includes (topicsCompleted existing) args_topicCompleted) eqn:Ei;
        [assumption|].
      apply NoDup_app; [assumption | repeat constructor; intros [] |].
      intros x Hx [<-|[]]. apply includes_In in Hx. congruence.
Qed.

Lemma indexed_patch_at {A : Type} (t : list A) (i k : nat) (f : A -> A) :
  Attempts.indexed k (Study.patch t i f)
  = map (fun e => if fst e =? k + i then (fst e, f (snd e)) else e)
      (Attempts.indexed k t).
Proof.
  revert i k. induction t as [|a t IH]; intros i k; simpl; [reflexivity|].
  destruct i as [|i]; simpl.
  - rewrite Nat.add_0_r, Nat.eqb_refl. f_equal.
    rewrite <- (map_id (Attempts.indexed (S k) t)) at 1. apply map_ext_in.
    intros [j b] H. apply Attempts.indexed_In in H. simpl.
    destruct (Nat.eqb_spec j k); [lia | reflexivity].
  - destruct (Nat.eqb_spec k (k + S i)); [lia|]. f_equal.
    rewrite IH. apply map_ext. intros e.
    now replace (S k + i) with (k + S i) by lia.
Qed.

Lemma by_user_and_subject_patch (u : nat) (s : Study.Subject) (t : Table)
  (i : nat) (f : Doc -> Doc) :
  (forall d, userId (f d) = userId d /\ subject (f d) = subject d) ->
  by_user_and_subject u s (Study.patch t i f)
  = map (fun e => if fst e =? i then (fst e, f (snd e)) else e)
      (by_user_and_subject u s t).
Proof.
  intros Hf. unfold by_user_and_subject. rewrite indexed_patch_at.
  cbn [Nat.add]. apply Attempts.filter_map_commute.
  intros [j d] _. cbn [fst snd]. destruct (j =? i); [|reflexivity].
  cbn [snd]. now destruct (Hf d) as [-> ->].
Qed.

(** X29: After an update the caller has one document for the subject, and it
    lists the topic. A document that was there keeps its topics in their
    order and gets the topic as the last one unless it lists it already,
    and the hours given are added to its hours; a new document has the
    topic alone, the hours given and 50 as total of topics. The documents
    of other users and of other subjects are as before. *)
Theorem updateSubjectProgress_records_topic (ctx : Ctx)
  (args_subject : Study.Subject) (args_topicCompleted : string)
  (args_hoursSpent args_focusScore : num) (user : nat) :
  currentUser ctx = Some user ->
  one_per_subject (subjectProgress ctx) ->
  (exists i after,
      by_user_and_subject user args_subject
        (snd (updateSubjectProgress ctx args_subject args_topicCompleted
                args_hoursSpent args_focusScore)) = [(i, after)]
      /\ In args_topicCompleted (topicsCompleted after)
      /\ (forall j before,
            In (j, before)
              (by_user_and_subject user args_subject (subjectProgress ctx)) ->
            i = j
            /\ hoursSpent after = plus (hoursSpent before) args_hoursSpent
            /\ totalTopics after = totalTopics before
            /\ (In args_topicCompleted (topicsCompleted before) ->
                topicsCompleted after = topicsCompleted before)
            /\ (~ In args_topicCompleted (topicsCompleted before) ->
                topicsCompleted after
                = topicsCompleted before ++ [args_topicCompleted]))
      /\ (by_user_and_subject user args_subject (subjectProgress ctx) = [] ->
          i = List.length (subjectProgress ctx)
          /\ topicsCompleted after = [args_topicCompleted]
          /\ hoursSpent after = args_hoursSpent
          /\ averageFocusScore after = args_focusScore
          /\ totalTopics after = of_Z 50))
  /\ (forall u s, u <> user \/ s <> args_subject ->
        by_user_and_subject u s
          (snd (updateSubjectProgress ctx args_subject args_topicCompleted
                  args_hoursSpent args_focusScore))
        = by_user_and_subject u s (subjectProgress ctx)).
Proof.
  intros Hu Hone. unfold updateSubjectProgress. rewrite Hu.
  pose proof (Hone user args_subject) as Hlen.
  destruct (by_user_and_subject user args_subject (subjectProgress ctx))
    as [|[j before] [|e rest]] eqn:E; simpl in Hlen; try lia;
    cbn [unique fst snd].
  - split.
    + eexists. eexists. split.
      * rewrite by_user_and_subject_snoc, E. cbn [userId subject].
        rewrite Nat.eqb_refl.
        replace (same_subject args_subject args_subject) with true
          by (symmetry; now apply same_subject_eq).
        reflexivity.
      * cbn [topicsCompleted hoursSpent averageFocusScore totalTopics].
        split; [now left|]. split; [intros ? ? []|]. intros _. repeat split.
    + intros u s Hne. rewrite by_user_and_subject_snoc. cbn [userId subject].
      destruct (Nat.eqb_spec user u) as [<-|Hn]; cbn [andb];
        [|apply app_nil_r].
      destruct (same_subject args_subject s) eqn:Es; [|apply app_nil_r].
      apply same_subject_eq in Es. subst s. destruct Hne; congruence.
  - assert (Hin : In (j, before)
                    (by_user_and_subject user args_subject (subjectProgress ctx)))
      by (rewrite E; now left).
    apply by_user_and_subject_In in Hin. destruct Hin as [_ [Hbu Hbs]].
    split.
    + eexists. eexists. split.
      * rewrite by_user_and_subject_patch by (intros d; now split).
        rewrite E. cbn [map fst snd]. rewrite Nat.eqb_refl. reflexivity.
      * cbn [topicsCompleted hoursSpent averageFocusScore totalTopics].
        split.
        { destruct (includes (topicsCompleted before) args_topicCompleted) eqn:Ei.
          - now apply includes_In.
          - apply in_or_app. right. now left. }
        split; [|discriminate].
        intros j' before' [H|[]]. injection H as <- <-.
        split; [reflexivity|]. split; [reflexivity|]. split; [reflexivity|].
        split; intros Hi.
        { apply includes_In in Hi. now rewrite Hi. }
        { destruct (includes (topicsCompleted before) args_topicCompleted) eqn:Ei;
            [|reflexivity].
          apply includes_In in Ei. contradiction. }
    + intros u s Hne.
      rewrite by_user_and_subject_patch by (intros d; now split).
      rewrite <- (map_id (by_user_and_subject u s (subjectProgress ctx))) at 2.
      apply map_ext_in. intros [k d] Hk. cbn [fst snd].
      destruct (Nat.eqb_spec k j) as [->|]; [|reflexivity].
      apply by_user_and_subject_In in Hk. destruct Hk as [Hk [Hku Hks]].
      assert (Hj : In (j, before)
                     (by_user_and_subject user args_subject (subjectProgress ctx)))
        by (rewrite E; now left).
      apply by_user_and_subject_In in Hj. destruct Hj as [Hj _].
      assert (d = before) by congruence. subst d.
      destruct Hne; congruence.
Qed.

(** X30: [getUserProgress] lists the documents of the caller and no other, in
    the order of their creation, and nothing when nobody is signed in; with
    one document for a user and a subject, no two listed documents have the
    same subject. *)
Theorem getUserProgress_lists_own (ctx : Ctx) :
  (forall i d, In (i, d) (getUserProgress ctx) <->
     nth_error (subjectProgress ctx) i = Some d
     /\ currentUser ctx = Some (userId d))
  /\ StronglySorted (fun x y => fst x < fst y) (getUserProgress ctx)
  /\ (one_per_subject (subjectProgress ctx) ->
      forall i d i' d', In (i, d) (getUserProgress ctx) ->
        In (i', d') (getUserProgress ctx) ->
        subject d = subject d' -> i = i').
Proof.
  unfold getUserProgress. destruct (currentUser ctx) as [user|].
  2:{ split; [|split; [constructor|]].
      - intros i d. split; [intros [] | intros [_ H]; discriminate].
      - intros _ i d i' d' []. }
  assert (Hin : forall i d,
            In (i, d) (filter (fun e : nat * Doc => userId (snd e) =? user)
                         (Attempts.indexed 0 (subjectProgress ctx)))
            <-> nth_error (subjectProgress ctx) i = Some d /\ userId d = user).
  { intros i d. rewrite filter_In, Attempts.indexed_In, Nat.sub_0_r. simpl.
    rewrite Nat.eqb_eq. split; [tauto|]. intros [H1 H2].
    repeat split; auto. lia. }
  split.
  { intros i d. split; intros H.
    - apply Hin in H. destruct H as [H1 H2]. split; congruence.
    - apply Hin. destruct H as [H1 H2]. split; congruence. }
  split; [apply StronglySorted_filter, Attempts.indexed_sorted|].
  intros Hone i d i' d' Hi Hi' Hs. apply Hin in Hi, Hi'.
  destruct Hi as [Hi Hu], Hi' as [Hi' Hu'].
  specialize (Hone user (subject d)).
  assert (H1 : In (i, d) (by_user_and_subject user (subject d) (subjectProgress ctx)))
    by (apply by_user_and_subject_In; auto).
  assert (H2 : In (i', d') (by_user_and_subject user (subject d) (subjectProgress ctx)))
    by (apply by_user_and_subject_In; auto).
  destruct (by_user_and_subject user (subject d) (subjectProgress ctx))
    as [|x [|y l]]; simpl in Hone; try lia; [contradiction|].
  destruct H1 as [H1|[]], H2 as [H2|[]]. congruence.
Qed.

End Host.

(** *** Examples *)

Definition caller (t : Table) (t0 : Z) : Ctx :=
  {| currentUser := Some 1; subjectProgress := t; now := t0 |}.

(** The table after user 1 reported the topic [paging] of operating
    systems, for two hours at focus 80. *)
Definition reported_once : Table :=
  snd (updateSubjectProgress (Error "not unique") (caller [] 1000)
         Study.operating_systems "paging" (of_Z 2) (of_Z 80)).

Lemma reported_once_one_per_subject : one_per_subject reported_once.
Proof.
  intros u s. unfold by_user_and_subject. simpl.
  destruct (_ && _); simpl; lia.
Qed.

Lemma updateSubjectProgress_keeps_one_witness :
  one_per_subject reported_once
  /\ fst (updateSubjectProgress (Error "not unique") (caller reported_once 2000)
            Study.linear_algebra "rank" (of_Z 1) (of_Z 60)) = Ok tt
  /\ one_per_subject
       (snd (updateSubjectProgress (Error "not unique")
               (caller reported_once 2000) Study.linear_algebra "rank" (of_Z 1)
               (of_Z 60))).
Proof.
  split; [exact reported_once_one_per_subject|].
  destruct (updateSubjectProgress_keeps_one (Error "not unique")
              (caller reported_once 2000) Study.linear_algebra "rank" (of_Z 1)
              (of_Z 60) 1 eq_refl reported_once_one_per_subject) as [H1 [H2 _]].
  split; [exact H1 | exact H2].
Defined.

Lemma updateSubjectProgress_records_topic_witness :
  exists i after,
    by_user_and_subject 1 Study.operating_systems
      (snd (updateSubjectProgress (Error "not unique")
              (caller reported_once 2000) Study.operating_systems "paging"
              (of_Z 1) (of_Z 60))) = [(i, after)]
    /\ In "paging" (topicsCompleted after).
Proof.
  destruct (updateSubjectProgress_records_topic (Error "not unique")
              (caller reported_once 2000) Study.operating_systems "paging"
              (of_Z 1) (of_Z 60) 1 eq_refl
              reported_once_one_per_subject)
    as [[i [after [H1 [H2 _]]]] _].
  exists i, after. split; [exact H1 | exact H2].
Defined.

End Progress.
